(** * dream-crawler: the crawl engine of go-backend/cmd/crawler

    A shallow embedding of the crawler's source (package main of
    go-backend/cmd/crawler) and the properties of its keyword extraction,
    link extraction, fetch/parse step, worker loop and Kafka producer.

    Conventions.
    - A Go [string] is a byte sequence: [string] of the Standard Library,
      [String.length] is Go's [len].
    - A Go [int]/[int64] is a [Z]; arithmetic that can leave the 64-bit range
      goes through [wrap64].
    - A Go [float64] is a primitive binary64 [float].
    - A Go [map] is a [gmap]; a [map] used as a set, and [sync.Map] used as a
      set, is a [gset].  The order in which [range] visits a map is not fixed
      by the language, so it is an explicit argument wherever the source
      ranges over a map.
    - Packages the crawler imports (net/url, net/http, goquery, regexp with a
      pattern that is not a plain character class, crypto/md5, time,
      encoding/json) are not part of the repository: what they return is an
      input of the embedding. *)

From Stdlib Require Import ZArith String Ascii List Bool Lia Floats Permutation.
From stdpp Require Import base option list gmap strings pretty fin_maps fin_sets.

Set Warnings "-inexact-float,-clear-no-such-hyp".
Set Default Proof Using "Type".

(** ** Package strings, on bytes

    [ToLower], [Fields] and [TrimSpace] are Unicode-aware in Go; they are
    given here on ASCII text, where both agree.  [Trim] with an ASCII cutset,
    [Contains], [HasPrefix], [Count] and [Split] work on bytes in Go as they
    do here. *)
Module Strings.

Definition byte_in (lo hi : nat) (c : ascii) : bool :=
  (lo <=? nat_of_ascii c)%nat && (nat_of_ascii c <=? hi)%nat.

(** unicode.IsSpace on ASCII: tab, line feed, vertical tab, form feed,
    carriage return, space. *)
Definition isSpace (c : ascii) : bool :=
  byte_in 9 13 c || (nat_of_ascii c =? 32)%nat.

Definition isUpper (c : ascii) : bool := byte_in 65 90 c.
Definition isLower (c : ascii) : bool := byte_in 97 122 c.
Definition isDigit (c : ascii) : bool := byte_in 48 57 c.

Definition toLower (c : ascii) : ascii :=
  if isUpper c then ascii_of_nat (nat_of_ascii c + 32) else c.

Fixpoint ToLower (s : string) : string :=
  match s with
  | EmptyString => EmptyString
  | String c s' => String (toLower c) (ToLower s')
  end.

Fixpoint mem (c : ascii) (cutset : string) : bool :=
  match cutset with
  | EmptyString => false
  | String d cutset' => Ascii.eqb c d || mem c cutset'
  end.

Fixpoint TrimLeftFunc (f : ascii -> bool) (s : string) : string :=
  match s with
  | EmptyString => EmptyString
  | String c s' => if f c then TrimLeftFunc f s' else s
  end.

Fixpoint TrimRightFunc (f : ascii -> bool) (s : string) : string :=
  match s with
  | EmptyString => EmptyString
  | String c s' =>
      match TrimRightFunc f s' with
      | EmptyString => if f c then EmptyString else String c EmptyString
      | t => String c t
      end
  end.

(** strings.Trim(s, cutset): all leading and all trailing bytes of [cutset]
    removed. *)
Definition Trim (s cutset : string) : string :=
  TrimRightFunc (fun c => mem c cutset) (TrimLeftFunc (fun c => mem c cutset) s).

Definition TrimSpace (s : string) : string :=
  TrimRightFunc isSpace (TrimLeftFunc isSpace s).

Definition HasPrefix (s pre : string) : bool := String.prefix pre s.

Fixpoint Contains (s substr : string) : bool :=
  String.prefix substr s ||
  match s with
  | EmptyString => false
  | String _ s' => Contains s' substr
  end.

(** strings.Count: non-overlapping occurrences; [skip] bytes of the
    occurrence just counted are still to be passed. *)
Fixpoint count_from (skip : nat) (s substr : string) : nat :=
  match s with
  | EmptyString => 0
  | String _ s' =>
      match skip with
      | S k => count_from k s' substr
      | O =>
          if String.prefix substr s
          then S (count_from (String.length substr - 1) s' substr)
          else count_from 0 s' substr
      end
  end.

Definition Count (s substr : string) : nat :=
  match substr with
  | EmptyString => S (String.length s)
  | _ => count_from 0 s substr
  end.

(** strings.Fields: the maximal runs of non-space bytes, in order. *)
Fixpoint fields_go (cur : string) (s : string) : list string :=
  match s with
  | EmptyString => match cur with EmptyString => [] | _ => [cur] end
  | String c s' =>
      if isSpace c
      then match cur with
           | EmptyString => fields_go EmptyString s'
           | _ => cur :: fields_go EmptyString s'
           end
      else fields_go (cur +:+ String c EmptyString) s'
  end.

Definition Fields (s : string) : list string := fields_go EmptyString s.

(** strings.Split(s, sep) for a one-byte separator. *)
Fixpoint split_go (sep : ascii) (cur : string) (s : string) : list string :=
  match s with
  | EmptyString => [cur]
  | String c s' =>
      if Ascii.eqb c sep
      then cur :: split_go sep EmptyString s'
      else split_go sep (cur +:+ String c EmptyString) s'
  end.

Definition Split (s : string) (sep : ascii) : list string :=
  split_go sep EmptyString s.

Fixpoint Join (parts : list string) (sep : string) : string :=
  match parts with
  | [] => EmptyString
  | [p] => p
  | p :: rest => p +:+ sep +:+ Join rest sep
  end.

End Strings.

(** ** Integers and floats *)

Definition wrap64 (z : Z) : Z := ((z + 2 ^ 63) mod 2 ^ 64 - 2 ^ 63)%Z.

(** [a + b] on Go's 64-bit [int]. *)
Definition int_add (a b : Z) : Z := wrap64 (a + b).
Definition int_sub (a b : Z) : Z := wrap64 (a - b).

(** len(x) as an [int]. *)
Definition len (s : string) : Z := Z.of_nat (String.length s).

(** float64(n) for an [int]: the nearest binary64. *)
Definition float64 (n : Z) : float :=
  if (0 <=? n)%Z then PrimFloat.of_uint63 (Uint63.of_Z n)
  else PrimFloat.opp (PrimFloat.of_uint63 (Uint63.of_Z (- n))).

(** The crawler's own [min] on float64 and [max] on int. *)
Definition min (a b : float) : float := if PrimFloat.ltb a b then a else b.
Definition max (a b : Z) : Z := if (a >? b)%Z then a else b.

(** ** Keyword extraction *)

Definition stopWords : gset string :=
  list_to_set
    ["the"; "a"; "an"; "and"; "or"; "but";
     "in"; "on"; "at"; "to"; "for"; "of";
     "with"; "by"; "is"; "are"; "was"; "were";
     "be"; "been"; "have"; "has"; "had"; "do";
     "does"; "did"; "will"; "would"; "could"; "should";
     "this"; "that"; "these"; "those"; "i"; "you";
     "he"; "she"; "it"; "we"; "they"]%string.

(** The first loop of extractKeywords: [wordCount[word]++] for every trimmed
    token longer than 3 bytes that is no stop word. *)
Definition countWord (wordCount : gmap string nat) (word0 : string) : gmap string nat :=
  let word := Strings.Trim word0 ".,!?;:" in
  if (3 <? String.length word)%nat && negb (bool_decide (word ∈ stopWords))
  then <[word := S (default 0 (wordCount !! word))]> wordCount
  else wordCount.

Definition wordCounts (text : string) : gmap string nat :=
  foldl countWord ∅ (Strings.Fields (Strings.ToLower text)).

(** The second loop: [for word, count := range wordCount], the keys visited
    in the order [order]; the loop is left once ten keywords are held. *)
Fixpoint collectKeywords (wordCount : gmap string nat) (order : list string)
    (keywords : list string) : list string :=
  match order with
  | [] => keywords
  | word :: rest =>
      let count := default 0 (wordCount !! word) in
      let keywords' :=
        if (2 <=? count)%nat || (6 <? String.length word)%nat
        then keywords ++ [word] else keywords in
      if (10 <=? length keywords')%nat then keywords'
      else collectKeywords wordCount rest keywords'
  end.

(** An order in which [range] may visit the keys of [m]: every key once. *)
Definition range_order (m : gmap string nat) (order : list string) : Prop :=
  NoDup order ∧ ∀ w, w ∈ order ↔ is_Some (m !! w).

(** A choice of visiting order for every map ranged over. *)
Definition RangeOrder : Type := gmap string nat → list string.

Definition valid_order (ρ : RangeOrder) : Prop := ∀ m, range_order m (ρ m).

Definition extractKeywords (ρ : RangeOrder) (text : string) : list string :=
  let wordCount := wordCounts text in
  collectKeywords wordCount (ρ wordCount) [].

(** Two visiting orders used in the examples: the order in which the map
    lists its keys, and the reverse of it. *)
Definition listed : RangeOrder := λ m, (map_to_list m).*1.
Definition reversed : RangeOrder := λ m, reverse ((map_to_list m).*1).

(** ** Data model (the structs of main.go) *)

Record ContentChunk := {
  ID : string;
  chunk_Type : string;
  chunk_Text : string;
  Position : Z;
  Confidence : float;
  Keywords : list string;
  Sentiment : string;
  Entities : list string
}.

Record ExtractedLink := {
  link_URL : string;
  link_Text : string;
  link_Type : string;
  link_Context : string;
  Priority : Z
}.

Record MediaAsset := {
  media_URL : string;
  media_Type : string;
  Alt : string;
  Caption : string;
  media_Size : string;
  Format : string
}.

Record DreamingHints := {
  Emotions : list string;
  Themes : list string;
  Motifs : list string;
  Tone : string;
  Complexity : float;
  Surrealism : float;
  VisualCues : list string;
  AudioCues : list string;
  ColorPalette : list string;
  Abstractness : float
}.

(** [PublishedAt] is a pointer in the source: [None] is nil.  A [time.Time]
    is the instant as an integer, the zero time being 0. *)
Record DocumentMetadata := {
  Domain : string;
  Language : string;
  WordCount : Z;
  Author : string;
  PublishedAt : option Z;
  Tags : list string;
  Category : string;
  Headers : gmap string string;
  ContentType : string;
  Size : Z
}.

Record Document := {
  URL : string;
  Title : string;
  Text : string;
  CleanText : string;
  FetchedAt : Z;
  Status : Z;
  ContentHash : string;
  Metadata : DocumentMetadata;
  Chunks : list ContentChunk;
  Links : list ExtractedLink;
  Media : list MediaAsset;
  DreamHints : DreamingHints
}.

Record URLMetadata := {
  depth : Z;
  parent : string;
  priority : Z
}.

Record URLWithMetadata := {
  um_URL : string;
  um_Metadata : URLMetadata
}.

Record CrawlerStats := {
  PagesProcessed : Z;
  Errors : Z;
  DreamsGenerated : Z;
  BytesProcessed : Z;
  AveragePageSize : float
}.

(** The zero values [DreamingHints{}], [DocumentMetadata{}], [Document{}]. *)
Definition zeroHints : DreamingHints :=
  {| Emotions := []; Themes := []; Motifs := []; Tone := ""; Complexity := 0;
     Surrealism := 0; VisualCues := []; AudioCues := []; ColorPalette := [];
     Abstractness := 0 |}.

Definition zeroMetadata : DocumentMetadata :=
  {| Domain := ""; Language := ""; WordCount := 0; Author := "";
     PublishedAt := None; Tags := []; Category := ""; Headers := ∅;
     ContentType := ""; Size := 0 |}.

Definition zeroDocument : Document :=
  {| URL := ""; Title := ""; Text := ""; CleanText := ""; FetchedAt := 0;
     Status := 0; ContentHash := ""; Metadata := zeroMetadata; Chunks := [];
     Links := []; Media := []; DreamHints := zeroHints |}.

(** ** What the imported packages return *)

(** net/url: [url.Parse], the methods ResolveReference and String of a
    parsed URL and the fields the crawler reads, over the package's URL
    type [U]. *)
Class NetURL (U : Type) := {
  url_Parse : string → option U;
  ResolveReference : U → U → U;
  Scheme : U → string;
  Host : U → string;
  Path : U → string;
  URL_String : U → string
}.

(** crypto/md5 with fmt's %x, time.Parse with the RFC3339 layout,
    FindAllString of the entity pattern of extractEntities, json.Marshal of
    a Document ([None]: it returned an error) and fmt.Sprintf with the
    format %.2f. *)
Class Packages := {
  md5_hex : string → string;
  time_Parse_RFC3339 : string → option Z;
  entity_FindAllString : string → list string;
  json_Marshal : Document → option string;
  fmt_2f : float → string
}.

(** goquery: an element of a selection, with its attributes and the text of
    its subtree. *)
Record Element := {
  attributes : list (string * string);
  elem_Text : string
}.

(** s.Attr(name): the value and whether the attribute exists. *)
Definition Attr (s : Element) (name : string) : option string :=
  snd <$> List.find (λ kv, String.eqb (fst kv) name) (attributes s).

(** Selection.Text(): the text of every element of the selection, joined. *)
Definition Text_of (sel : list Element) : string :=
  foldr (λ s acc, elem_Text s +:+ acc) EmptyString sel.

Definition First (sel : list Element) : list Element := take 1 sel.

(** A parsed page, through the selections the crawler asks of it, each as it
    is when the source evaluates it: [find_title] on the parsed document, the
    others after extractText has removed the script, style, noscript, nav,
    footer, header, aside, .advertisement, .ad and .sidebar elements from the
    shared document. *)
Record Page := {
  find_title : list Element;
  find_main : list Element;
  find_body : list Element;
  find_author : list Element;
  find_published : list Element;
  find_keywords : list Element;
  find_category : list Element;
  find_html : list Element;
  find_headlines : list Element;
  find_p : list Element;
  find_quotes : list Element;
  find_a_href : list Element;
  find_img : list Element;
  find_video : list Element
}.

(** ** Text extraction and cleaning *)

Definition newline : ascii := ascii_of_nat 10.

Definition extractText (d : Page) : string :=
  let textParts :=
    match find_main d with
    | _ :: _ =>
        omap (λ s, let text := Strings.TrimSpace (elem_Text s) in
                   if (50 <? String.length text)%nat then Some text else None)
             (find_main d)
    | [] =>
        let text := Strings.TrimSpace (Text_of (find_body d)) in
        if String.eqb text "" then [] else [text]
    end in
  Strings.Join textParts (String newline (String newline EmptyString)).

(** The class \s of Go's regexp: tab, line feed, form feed, carriage return,
    space. *)
Definition re_space (c : ascii) : bool :=
  let n := nat_of_ascii c in
  (n =? 9)%nat || (n =? 10)%nat || (n =? 12)%nat || (n =? 13)%nat || (n =? 32)%nat.

(** The class \w: letters, digits, underscore. *)
Definition re_word (c : ascii) : bool :=
  Strings.isUpper c || Strings.isLower c || Strings.isDigit c
  || (nat_of_ascii c =? 95)%nat.

(** ReplaceAllString of \s+ by one space. *)
Fixpoint collapseSpace (inRun : bool) (s : string) : string :=
  match s with
  | EmptyString => EmptyString
  | String c s' =>
      if re_space c
      then if inRun then collapseSpace true s'
           else String " "%char (collapseSpace true s')
      else String c (collapseSpace false s')
  end.

(** The bytes kept by the second pattern: \w, \s, the punctuation
    . , ! ? ; : ( ) - the apostrophe and the double quote (byte 34). *)
Definition keptByte (c : ascii) : bool :=
  re_word c || re_space c
  || Strings.mem c ".,!?;:'()-" || (nat_of_ascii c =? 34)%nat.

Fixpoint keepBytes (s : string) : string :=
  match s with
  | EmptyString => EmptyString
  | String c s' => if keptByte c then String c (keepBytes s') else keepBytes s'
  end.

Definition cleanText (text : string) : string :=
  Strings.TrimSpace (keepBytes (collapseSpace false text)).

Definition getFileExtension (filename : string) : string :=
  let parts := Strings.Split filename "."%char in
  if (1 <? length parts)%nat then List.last parts EmptyString else EmptyString.

(** ** Per-chunk annotation *)

(** The sum of strings.Count over a word list. *)
Definition countAll (text : string) (words : list string) : nat :=
  foldl (λ n word, n + Strings.Count (Strings.ToLower text) word)%nat 0%nat words.

Definition detectSentiment (text : string) : string :=
  let positiveCount :=
    countAll text ["good"; "great"; "excellent"; "amazing"; "wonderful"; "love"; "best"] in
  let negativeCount :=
    countAll text ["bad"; "terrible"; "awful"; "hate"; "worst"; "horrible"] in
  if (negativeCount <? positiveCount)%nat then "positive"
  else if (positiveCount <? negativeCount)%nat then "negative"
  else "neutral".

(** The loop of extractEntities over the matches of the pattern. *)
Fixpoint collectEntities (matches : list string) (entities : list string) : list string :=
  match matches with
  | [] => entities
  | m :: rest =>
      let entities' :=
        if (3 <? String.length m)%nat && negb (bool_decide (m ∈ entities))
        then entities ++ [m] else entities in
      if (5 <=? length entities')%nat then entities'
      else collectEntities rest entities'
  end.

Definition extractEntities {pkg : Packages} (text : string) : list string :=
  collectEntities (entity_FindAllString text) [].

Section Extraction.
Context {U : Type} {net : NetURL U} {pkg : Packages}.

(** ** Content chunks

    [ρ k] is the order in which the keyword loop of chunk number [k] visits
    its word counts. *)

Definition headlineChunk (ρ : Z → RangeOrder)
    (st : list ContentChunk * Z) (s : Element) : list ContentChunk * Z :=
  let '(chunks, chunkID) := st in
  let text := Strings.TrimSpace (elem_Text s) in
  if negb (String.eqb text "") && (5 <? len text)%Z
  then (chunks ++ [ {| ID := "h_" +:+ pretty chunkID; chunk_Type := "headline";
                       chunk_Text := text; Position := chunkID; Confidence := 0.9;
                       Keywords := extractKeywords (ρ chunkID) text;
                       Sentiment := ""; Entities := [] |} ],
        int_add chunkID 1)
  else st.

Definition paragraphChunk (ρ : Z → RangeOrder)
    (st : list ContentChunk * Z) (s : Element) : list ContentChunk * Z :=
  let '(chunks, chunkID) := st in
  let text := Strings.TrimSpace (elem_Text s) in
  if negb (String.eqb text "") && (20 <? len text)%Z
  then (chunks ++ [ {| ID := "p_" +:+ pretty chunkID; chunk_Type := "paragraph";
                       chunk_Text := text; Position := chunkID; Confidence := 0.8;
                       Keywords := extractKeywords (ρ chunkID) text;
                       Sentiment := detectSentiment text;
                       Entities := extractEntities text |} ],
        int_add chunkID 1)
  else st.

Definition quoteChunk (ρ : Z → RangeOrder)
    (st : list ContentChunk * Z) (s : Element) : list ContentChunk * Z :=
  let '(chunks, chunkID) := st in
  let text := Strings.TrimSpace (elem_Text s) in
  if negb (String.eqb text "")
  then (chunks ++ [ {| ID := "q_" +:+ pretty chunkID; chunk_Type := "quote";
                       chunk_Text := text; Position := chunkID; Confidence := 0.85;
                       Keywords := extractKeywords (ρ chunkID) text;
                       Sentiment := detectSentiment text; Entities := [] |} ],
        int_add chunkID 1)
  else st.

Definition extractContentChunks (ρ : Z → RangeOrder) (doc : Page)
    (cleanText : string) : list ContentChunk :=
  let st := foldl (headlineChunk ρ) ([], 0%Z) (find_headlines doc) in
  let st := foldl (paragraphChunk ρ) st (find_p doc) in
  let st := foldl (quoteChunk ρ) st (find_quotes doc) in
  fst st.

(** ** Metadata *)

Definition extractMetadata (doc : Page) (metadata : DocumentMetadata) : DocumentMetadata :=
  let firstContent (sel : list Element) (field : string) : string :=
    foldl (λ cur s, match Attr s "content" with
                    | Some content =>
                        if String.eqb cur "" then Strings.TrimSpace content else cur
                    | None => cur
                    end) field sel in
  let published :=
    foldl (λ cur s, match Attr s "content" ≫= time_Parse_RFC3339 with
                    | Some publishedAt => Some publishedAt
                    | None => cur
                    end) (PublishedAt metadata) (find_published doc) in
  let tags :=
    foldl (λ tags s,
             match Attr s "content" with
             | Some content =>
                 foldl (λ tags tag,
                          let tag := Strings.TrimSpace tag in
                          if String.eqb tag "" then tags else tags ++ [tag])
                       tags (Strings.Split content ","%char)
             | None => tags
             end) (Tags metadata) (find_keywords doc) in
  {| Domain := Domain metadata;
     Language := match find_html doc with
                 | s :: _ => default (Language metadata) (Attr s "lang")
                 | [] => Language metadata
                 end;
     WordCount := WordCount metadata;
     Author := firstContent (find_author doc) (Author metadata);
     PublishedAt := published;
     Tags := tags;
     Category := firstContent (find_category doc) (Category metadata);
     Headers := Headers metadata;
     ContentType := ContentType metadata;
     Size := Size metadata |}.

(** ** Links

    base.Parse(href) of net/url: the reference is parsed, then resolved
    against the base. *)
Definition URL_Parse (base : U) (ref : string) : option U :=
  ResolveReference base <$> url_Parse ref.

Definition anchorMentions (linkText : string) : bool :=
  Strings.Contains (Strings.ToLower linkText) "article"
  || Strings.Contains (Strings.ToLower linkText) "news"
  || Strings.Contains (Strings.ToLower linkText) "blog".

(** The body of the callback of extractLinksWithPriority for one a[href]
    element: the link it appends, if any. *)
Definition linkOf (base : U) (currentDepth : Z) (s : Element) : option ExtractedLink :=
  match Attr s "href" with
  | None => None
  | Some href =>
      if (len href <? 2)%Z || Strings.HasPrefix href "#" then None
      else
        match URL_Parse base href with
        | None => None
        | Some resolvedURL =>
            if negb (String.eqb (Scheme resolvedURL) "http")
               && negb (String.eqb (Scheme resolvedURL) "https")
            then None
            else
              let linkText := Strings.TrimSpace (elem_Text s) in
              let internal := String.eqb (Host resolvedURL) (Host base) in
              let linkType := if internal then "internal" else "external" in
              let priority := if internal then 3%Z else 1%Z in
              let priority :=
                if anchorMentions linkText then int_add priority 2 else priority in
              let priority :=
                if (currentDepth >=? 2)%Z then max 1 (int_sub priority 1) else priority in
              Some {| link_URL := URL_String resolvedURL; link_Text := linkText;
                      link_Type := linkType; link_Context := ""; Priority := priority |}
        end
  end.

(** [base, _ := url.Parse(baseURL)] leaves [base] nil when the URL does not
    parse, and the callback then dereferences nil: that outcome is [None].
    The crawler calls the function only with a URL that its request creation
    has parsed. *)
Definition extractLinksWithPriority (doc : Page) (baseURL : string)
    (currentDepth : Z) : option (list ExtractedLink) :=
  match url_Parse baseURL with
  | Some base => Some (omap (linkOf base currentDepth) (find_a_href doc))
  | None => None
  end.

(** ** Media *)

Definition imageOf (base : U) (s : Element) : option MediaAsset :=
  match Attr s "src" with
  | None => None
  | Some src =>
      match URL_Parse base src with
      | None => None
      | Some resolvedURL =>
          Some {| media_URL := URL_String resolvedURL; media_Type := "image";
                  Alt := default "" (Attr s "alt"); Caption := "";
                  media_Size := ""; Format := getFileExtension src |}
      end
  end.

Definition videoOf (base : U) (s : Element) : option MediaAsset :=
  match Attr s "src" with
  | None => None
  | Some src =>
      match URL_Parse base src with
      | None => None
      | Some resolvedURL =>
          Some {| media_URL := URL_String resolvedURL; media_Type := "video";
                  Alt := ""; Caption := ""; media_Size := "";
                  Format := getFileExtension src |}
      end
  end.

Definition extractMediaAssets (doc : Page) (baseURL : string) : option (list MediaAsset) :=
  match url_Parse baseURL with
  | Some base => Some (omap (imageOf base) (find_img doc) ++ omap (videoOf base) (find_video doc))
  | None => None
  end.

Definition extractDomain (rawurl : string) : string :=
  match url_Parse rawurl with
  | Some parsed => Host parsed
  | None => ""
  end.

End Extraction.

(** ** Dream hints *)

Definition containsAny (text : string) (words : list string) : bool :=
  existsb (Strings.Contains text) words.

Definition detectEmotions (text : string) : list string :=
  let positiveWords := ["amazing"; "beautiful"; "wonderful"; "great"; "love"; "happy"; "joy"; "success"] in
  let negativeWords := ["terrible"; "awful"; "hate"; "sad"; "fear"; "anger"; "pain"; "failure"] in
  let mysticalWords := ["mystery"; "magic"; "dream"; "vision"; "spirit"; "soul"; "ethereal"; "cosmic"] in
  let emotions := [] in
  let emotions := if containsAny text positiveWords then emotions ++ ["positive"] else emotions in
  let emotions := if containsAny text negativeWords then emotions ++ ["dark"] else emotions in
  let emotions := if containsAny text mysticalWords then emotions ++ ["mystical"] else emotions in
  match emotions with
  | [] => ["neutral"]
  | _ => emotions
  end.

Definition detectThemes (text : string) : list string :=
  let techWords := ["technology"; "ai"; "computer"; "digital"; "software"; "algorithm"] in
  let artWords := ["art"; "creative"; "design"; "visual"; "aesthetic"; "beauty"] in
  let scienceWords := ["science"; "research"; "discovery"; "experiment"; "analysis"] in
  let themes := [] in
  let themes := if containsAny text techWords then themes ++ ["technology"] else themes in
  let themes := if containsAny text artWords then themes ++ ["creative"] else themes in
  let themes := if containsAny text scienceWords then themes ++ ["scientific"] else themes in
  themes.

Definition extractVisualMotifs (text : string) : list string :=
  let visualWords := ["light"; "shadow"; "color"; "bright"; "dark"; "crystal"; "liquid";
                      "flowing"; "geometric"; "organic"] in
  filter (λ word, Is_true (Strings.Contains text word)) visualWords.

Definition extractVisualCues (text : string) : list string :=
  ["ethereal lighting"; "flowing forms"; "crystalline structures"].

Definition extractAudioCues (text : string) : list string :=
  ["ambient whispers"; "digital harmonics"; "pulsing rhythms"].

Definition extractColors (text : string) : list string :=
  let colorWords := ["red"; "blue"; "green"; "yellow"; "purple"; "orange"; "pink";
                     "white"; "black"; "gold"; "silver"] in
  filter (λ color, Is_true (Strings.Contains text color)) colorWords.

Definition calculateComplexity (doc : Document) : float :=
  let complexity := (float64 (WordCount (Metadata doc)) / 1000)%float in
  let complexity := (complexity + float64 (Z.of_nat (length (Chunks doc))) / 10)%float in
  let complexity := (complexity + float64 (Z.of_nat (length (Media doc))) / 5)%float in
  min 1 complexity.

Definition calculateSurrealismPotential (doc : Document) (hints : DreamingHints) : float :=
  let score := 0%float in
  let score := if (1 <? length (Emotions hints))%nat then (score + 0.3)%float else score in
  let score :=
    foldl (λ score emotion, if String.eqb emotion "mystical" then (score + 0.4)%float else score)
          score (Emotions hints) in
  let score :=
    foldl (λ score theme, if String.eqb theme "creative" then (score + 0.3)%float else score)
          score (Themes hints) in
  let score := (score + float64 (Z.of_nat (length (Motifs hints))) * 0.05)%float in
  let score := (score + Complexity hints * 0.2)%float in
  min 1 score.

Definition calculateAbstractness (text : string) (hints : DreamingHints) : float :=
  let abstractWords := ["concept"; "idea"; "essence"; "meaning"; "philosophy"; "abstract";
                        "theory"; "metaphor"] in
  let score :=
    foldl (λ score word, if Strings.Contains text word then (score + 0.1)%float else score)
          0%float abstractWords in
  let score := (score + float64 (Z.of_nat (length (Emotions hints))) * 0.05)%float in
  min 1 score.

Definition countPresent (text : string) (words : list string) : nat :=
  length (filter (λ word, Is_true (Strings.Contains text word)) words).

Definition detectTone (text : string) : string :=
  let formalCount := countPresent text ["therefore"; "furthermore"; "consequently"; "analysis"; "research"] in
  let casualCount := countPresent text ["really"; "pretty"; "quite"; "basically"; "actually"] in
  let dramaticCount := countPresent text ["incredible"; "amazing"; "shocking"; "revolutionary"; "breakthrough"] in
  if (formalCount <? dramaticCount)%nat && (casualCount <? dramaticCount)%nat then "dramatic"
  else if (casualCount <? formalCount)%nat then "formal"
  else if (0 <? casualCount)%nat then "casual"
  else "neutral".

Definition generateDreamHints (doc : Document) : DreamingHints :=
  let text := Strings.ToLower (CleanText doc +:+ " " +:+ Title doc) in
  let hints :=
    {| Emotions := detectEmotions text; Themes := detectThemes text;
       Motifs := extractVisualMotifs text; Tone := detectTone text;
       Complexity := 0; Surrealism := 0;
       VisualCues := extractVisualCues text; AudioCues := extractAudioCues text;
       ColorPalette := extractColors text; Abstractness := 0 |} in
  let complexity := calculateComplexity doc in
  let hints :=
    {| Emotions := Emotions hints; Themes := Themes hints; Motifs := Motifs hints;
       Tone := Tone hints; Complexity := complexity; Surrealism := 0;
       VisualCues := VisualCues hints; AudioCues := AudioCues hints;
       ColorPalette := ColorPalette hints; Abstractness := 0 |} in
  let surrealism := calculateSurrealismPotential doc hints in
  let hints :=
    {| Emotions := Emotions hints; Themes := Themes hints; Motifs := Motifs hints;
       Tone := Tone hints; Complexity := complexity; Surrealism := surrealism;
       VisualCues := VisualCues hints; AudioCues := AudioCues hints;
       ColorPalette := ColorPalette hints; Abstractness := 0 |} in
  {| Emotions := Emotions hints; Themes := Themes hints; Motifs := Motifs hints;
     Tone := Tone hints; Complexity := complexity; Surrealism := surrealism;
     VisualCues := VisualCues hints; AudioCues := AudioCues hints;
     ColorPalette := ColorPalette hints;
     Abstractness := calculateAbstractness text hints |}.

(** ** Fetch and parse *)

(** What [client.Do] hands back: headers by canonical key, and the body as
    goquery parses it ([None]: the reader or the parser failed). *)
Record Response := {
  StatusCode : Z;
  Header : gmap string (list string);
  ContentLength : Z;
  Body : option Page
}.

Inductive FetchOutcome :=
| TransportError
| Responded (resp : Response).

Inductive error :=
| ErrRequest
| ErrTransport
| ErrParse.

(** resp.Header.Get(key): the first value of the key, or the empty string. *)
Definition Header_Get (h : gmap string (list string)) (key : string) : string :=
  default "" (h !! key ≫= head).

Definition StatusOK : Z := 200.

Section Fetch.
Context {U : Type} {net : NetURL U} {pkg : Packages}.

(** enhancedFetchAndParse, with what the outside world supplies made
    explicit: [outcome] is the result of [client.Do], [now] the reading of
    [time.Now()], [ρ] the visiting orders of the keyword loops.  Creating the
    request fails when the URL does not parse. *)
Definition enhancedFetchAndParse (ρ : Z → RangeOrder) (now : Z) (outcome : FetchOutcome)
    (rawurl : string) (metadata : URLMetadata)
    : Document * list ExtractedLink * option error :=
  match url_Parse rawurl with
  | None => (zeroDocument, [], Some ErrRequest)
  | Some _ =>
  match outcome with
  | TransportError => (zeroDocument, [], Some ErrTransport)
  | Responded resp =>
      let md :=
        {| Domain := ""; Language := ""; WordCount := 0; Author := "";
           PublishedAt := None; Tags := []; Category := "";
           Headers := omap head (Header resp);
           ContentType := Header_Get (Header resp) "Content-Type";
           Size := ContentLength resp |} in
      let doc :=
        {| URL := rawurl; Title := ""; Text := ""; CleanText := ""; FetchedAt := now;
           Status := StatusCode resp; ContentHash := ""; Metadata := md; Chunks := [];
           Links := []; Media := []; DreamHints := zeroHints |} in
      if negb (StatusCode resp =? StatusOK)%Z then (doc, [], None)
      else
        match Body resp with
        | None => (doc, [], Some ErrParse)
        | Some gqDoc =>
            let title := Strings.TrimSpace (Text_of (First (find_title gqDoc))) in
            let text := extractText gqDoc in
            let clean := cleanText text in
            let md :=
              {| Domain := extractDomain rawurl; Language := "";
                 WordCount := Z.of_nat (length (Strings.Fields clean));
                 Author := ""; PublishedAt := None; Tags := []; Category := "";
                 Headers := Headers md; ContentType := ContentType md;
                 Size := Size md |} in
            let md := extractMetadata gqDoc md in
            let chunks := extractContentChunks ρ gqDoc clean in
            let links := default [] (extractLinksWithPriority gqDoc rawurl (depth metadata)) in
            let media := default [] (extractMediaAssets gqDoc rawurl) in
            let doc :=
              {| URL := rawurl; Title := title; Text := text; CleanText := clean;
                 FetchedAt := now; Status := StatusCode resp;
                 ContentHash := md5_hex clean; Metadata := md; Chunks := chunks;
                 Links := []; Media := media; DreamHints := zeroHints |} in
            let doc :=
              {| URL := URL doc; Title := Title doc; Text := Text doc;
                 CleanText := CleanText doc; FetchedAt := FetchedAt doc;
                 Status := Status doc; ContentHash := ContentHash doc;
                 Metadata := Metadata doc; Chunks := Chunks doc; Links := Links doc;
                 Media := Media doc; DreamHints := generateDreamHints doc |} in
            (doc, links, None)
        end
  end
  end.

End Fetch.

(** ** The worker pool

    The state the goroutines share, and one worker's loop cut at its
    accesses to that state: each step of [workerStep] is the local code up
    to and including one operation on shared state (a channel operation,
    [seen.LoadOrStore], a method of [CrawlerStats] under its mutex, the host
    map under [hpMu], a read of [hp.robots]), so a run of the pool is an
    interleaving of such steps. *)

Record Config := {
  maxDepth : Z;
  queueSize : nat;
  allowedDomains : option (gset string);
  enableDreaming : bool;
  kafkaTopic : string;
  dreamTopic : string
}.

(** robots.TestAgent(path, "WebCrawlerThatDreams/1.0") of a fetched
    robots.txt, as a function of the path.  The rate limiter of a host only
    delays a worker and is left out of the record. *)
Record hostPolicies := {
  robots : option (string → bool)
}.

Record Shared := {
  urlQueue : list URLWithMetadata;
  seen : gset string;
  hostMap : gmap string hostPolicies;
  stats : CrawlerStats;
  rawOut : list Document;
  fetchLog : list URLWithMetadata;
  cancelled : bool
}.

Definition with_urlQueue (q : list URLWithMetadata) (s : Shared) : Shared :=
  {| urlQueue := q; seen := seen s; hostMap := hostMap s; stats := stats s;
     rawOut := rawOut s; fetchLog := fetchLog s; cancelled := cancelled s |}.
Definition with_seen (x : gset string) (s : Shared) : Shared :=
  {| urlQueue := urlQueue s; seen := x; hostMap := hostMap s; stats := stats s;
     rawOut := rawOut s; fetchLog := fetchLog s; cancelled := cancelled s |}.
Definition with_hostMap (m : gmap string hostPolicies) (s : Shared) : Shared :=
  {| urlQueue := urlQueue s; seen := seen s; hostMap := m; stats := stats s;
     rawOut := rawOut s; fetchLog := fetchLog s; cancelled := cancelled s |}.
Definition with_stats (st : CrawlerStats) (s : Shared) : Shared :=
  {| urlQueue := urlQueue s; seen := seen s; hostMap := hostMap s; stats := st;
     rawOut := rawOut s; fetchLog := fetchLog s; cancelled := cancelled s |}.
Definition with_rawOut (o : list Document) (s : Shared) : Shared :=
  {| urlQueue := urlQueue s; seen := seen s; hostMap := hostMap s; stats := stats s;
     rawOut := o; fetchLog := fetchLog s; cancelled := cancelled s |}.
Definition with_fetchLog (l : list URLWithMetadata) (s : Shared) : Shared :=
  {| urlQueue := urlQueue s; seen := seen s; hostMap := hostMap s; stats := stats s;
     rawOut := rawOut s; fetchLog := l; cancelled := cancelled s |}.
Definition with_cancelled (b : bool) (s : Shared) : Shared :=
  {| urlQueue := urlQueue s; seen := seen s; hostMap := hostMap s; stats := stats s;
     rawOut := rawOut s; fetchLog := fetchLog s; cancelled := b |}.

(** The methods of CrawlerStats. *)
Definition IncrementPages (s : CrawlerStats) : CrawlerStats :=
  {| PagesProcessed := int_add (PagesProcessed s) 1; Errors := Errors s;
     DreamsGenerated := DreamsGenerated s; BytesProcessed := BytesProcessed s;
     AveragePageSize := AveragePageSize s |}.

Definition IncrementErrors (s : CrawlerStats) : CrawlerStats :=
  {| PagesProcessed := PagesProcessed s; Errors := int_add (Errors s) 1;
     DreamsGenerated := DreamsGenerated s; BytesProcessed := BytesProcessed s;
     AveragePageSize := AveragePageSize s |}.

Definition IncrementDreams (s : CrawlerStats) : CrawlerStats :=
  {| PagesProcessed := PagesProcessed s; Errors := Errors s;
     DreamsGenerated := int_add (DreamsGenerated s) 1;
     BytesProcessed := BytesProcessed s; AveragePageSize := AveragePageSize s |}.

Definition AddBytes (bytes : Z) (s : CrawlerStats) : CrawlerStats :=
  let total := int_add (BytesProcessed s) bytes in
  {| PagesProcessed := PagesProcessed s; Errors := Errors s;
     DreamsGenerated := DreamsGenerated s; BytesProcessed := total;
     AveragePageSize := (float64 total / float64 (PagesProcessed s))%float |}.

Definition zeroStats : CrawlerStats :=
  {| PagesProcessed := 0; Errors := 0; DreamsGenerated := 0; BytesProcessed := 0;
     AveragePageSize := 0 |}.

(** The frontier entry a worker makes of a link of the page at [urlMeta]. *)
Definition childEntry (urlMeta : URLWithMetadata) (link : ExtractedLink) : URLWithMetadata :=
  {| um_URL := link_URL link;
     um_Metadata := {| depth := int_add (depth (um_Metadata urlMeta)) 1;
                       parent := um_URL urlMeta;
                       priority := Priority link |} |}.

(** The non-blocking send [select { case urlQueue <- e: default: }] on the
    buffered frontier: the entry is appended when the buffer has room, and
    dropped when it is full.  (With a queue size of 0 the Go channel is
    unbuffered, and a send is a hand-off to a worker waiting in the select;
    the pool below has no hand-off, so it describes the crawler for queue
    sizes from 1 on, the flag's default being 1000.) *)
Definition trySend (cfg : Config) (e : URLWithMetadata) (s : Shared) : Shared :=
  if (length (urlQueue s) <? queueSize cfg)%nat
  then with_urlQueue (urlQueue s ++ [e]) s
  else s.

Section Worker.
Context {U : Type} {net : NetURL U} {pkg : Packages}.

(** Where a worker stands in the loop of enhancedWorker. *)
Inductive pc :=
| AtSelect
| Received (urlMeta : URLWithMetadata)
| Claimed (urlMeta : URLWithMetadata)
| WithPolicy (urlMeta : URLWithMetadata) (parsed : U)
| Waiting (urlMeta : URLWithMetadata)
| Fetching (urlMeta : URLWithMetadata)
| Fetched (urlMeta : URLWithMetadata) (doc : Document) (newLinks : list ExtractedLink)
| Counted (urlMeta : URLWithMetadata) (doc : Document) (newLinks : list ExtractedLink)
| Sized (urlMeta : URLWithMetadata) (doc : Document) (newLinks : list ExtractedLink)
| Queueing (urlMeta : URLWithMetadata) (newLinks : list ExtractedLink)
| Exited.

(** What lets a worker move: its own next statement; the ctx.Done case of
    the select, or lim.Wait failing, once the context is cancelled; the
    return of client.Do with the clock reading and the visiting orders of
    that call. *)
Inductive move :=
| Next
| TakeDone
| Answer (outcome : FetchOutcome) (now : Z) (ρ : Z → RangeOrder).

Definition workerStep (cfg : Config) (m : move) (p : pc) (s : Shared)
    : option (pc * Shared) :=
  match p, m with
  | AtSelect, TakeDone => if cancelled s then Some (Exited, s) else None
  | AtSelect, Next =>
      match urlQueue s with
      | urlMeta :: q => Some (Received urlMeta, with_urlQueue q s)
      | [] => None
      end
  | Received urlMeta, Next =>
      if String.eqb (um_URL urlMeta) "" then Some (AtSelect, s)
      else if bool_decide (um_URL urlMeta ∈ seen s) then Some (AtSelect, s)
      else Some (Claimed urlMeta, with_seen ({[ um_URL urlMeta ]} ∪ seen s) s)
  | Claimed urlMeta, Next =>
      if (depth (um_Metadata urlMeta) >? maxDepth cfg)%Z then Some (AtSelect, s)
      else
        match url_Parse (um_URL urlMeta) with
        | None => Some (AtSelect, with_stats (IncrementErrors (stats s)) s)
        | Some parsed =>
            if match allowedDomains cfg with
               | Some allowed => negb (bool_decide (Host parsed ∈ allowed))
               | None => false
               end
            then Some (AtSelect, s)
            else
              match hostMap s !! Host parsed with
              | Some _ => Some (WithPolicy urlMeta parsed, s)
              | None =>
                  Some (WithPolicy urlMeta parsed,
                        with_hostMap (<[Host parsed := {| robots := None |}]> (hostMap s)) s)
              end
        end
  | WithPolicy urlMeta parsed, Next =>
      match (hostMap s !! Host parsed) ≫= robots return option (pc * Shared) with
      | Some testAgent =>
          if (testAgent (Path parsed) : bool) then Some (Waiting urlMeta, s)
          else Some (AtSelect, s)
      | None => Some (Waiting urlMeta, s)
      end
  | Waiting urlMeta, TakeDone => if cancelled s then Some (AtSelect, s) else None
  | Waiting urlMeta, Next =>
      Some (Fetching urlMeta, with_fetchLog (fetchLog s ++ [urlMeta]) s)
  | Fetching urlMeta, Answer outcome now ρ =>
      match enhancedFetchAndParse ρ now outcome (um_URL urlMeta) (um_Metadata urlMeta) with
      | (_, _, Some _) => Some (AtSelect, with_stats (IncrementErrors (stats s)) s)
      | (doc, newLinks, None) => Some (Fetched urlMeta doc newLinks, s)
      end
  | Fetched urlMeta doc newLinks, Next =>
      Some (Counted urlMeta doc newLinks, with_stats (IncrementPages (stats s)) s)
  | Counted urlMeta doc newLinks, Next =>
      Some (Sized urlMeta doc newLinks, with_stats (AddBytes (len (Text doc)) (stats s)) s)
  | Sized urlMeta doc newLinks, Next =>
      Some (Queueing urlMeta newLinks, with_rawOut (rawOut s ++ [doc]) s)
  | Queueing urlMeta [], Next => Some (AtSelect, s)
  | Queueing urlMeta (link :: rest), Next =>
      if (Priority link >? 0)%Z
      then Some (Queueing urlMeta rest, trySend cfg (childEntry urlMeta link) s)
      else Some (Queueing urlMeta rest, s)
  | _, _ => None
  end.

(** The whole process: the shared state, the workers by id, and the seeds
    the seeding goroutine has still to send. *)
Record System := {
  shared : Shared;
  workers : list pc;
  seeds : list string
}.

Inductive action :=
| Seed
| Cancel
| RobotsFetched (host : string) (data : string → bool)
| Work (id : nat) (m : move).

Definition seedEntry (s : string) : URLWithMetadata :=
  {| um_URL := s; um_Metadata := {| depth := 0; parent := ""; priority := 10 |} |}.

Definition act (cfg : Config) (a : action) (σ : System) : option System :=
  match a with
  | Seed =>
      match seeds σ with
      | s :: rest =>
          if (length (urlQueue (shared σ)) <? queueSize cfg)%nat
          then Some {| shared := with_urlQueue (urlQueue (shared σ) ++ [seedEntry s]) (shared σ);
                       workers := workers σ; seeds := rest |}
          else None
      | [] => None
      end
  | Cancel =>
      Some {| shared := with_cancelled true (shared σ); workers := workers σ;
              seeds := seeds σ |}
  | RobotsFetched host data =>
      match hostMap (shared σ) !! host with
      | Some {| robots := None |} =>
          Some {| shared := with_hostMap (<[host := {| robots := Some data |}]> (hostMap (shared σ)))
                                         (shared σ);
                  workers := workers σ; seeds := seeds σ |}
      | _ => None
      end
  | Work id m =>
      match workers σ !! id with
      | Some p =>
          match workerStep cfg m p (shared σ) with
          | Some (p', s') =>
              Some {| shared := s'; workers := <[id := p']> (workers σ);
                      seeds := seeds σ |}
          | None => None
          end
      | None => None
      end
  end.

Definition initial (nworkers : nat) (seedURLs : list string) : System :=
  {| shared := {| urlQueue := []; seen := ∅; hostMap := ∅; stats := zeroStats;
                  rawOut := []; fetchLog := []; cancelled := false |};
     workers := replicate nworkers AtSelect;
     seeds := seedURLs |}.

Definition step (cfg : Config) (σ σ' : System) : Prop :=
  ∃ a, act cfg a σ = Some σ'.

Inductive reachable (cfg : Config) (nworkers : nat) (seedURLs : list string)
    : System → Prop :=
| reach_initial : reachable cfg nworkers seedURLs (initial nworkers seedURLs)
| reach_step σ σ' :
    reachable cfg nworkers seedURLs σ → step cfg σ σ' →
    reachable cfg nworkers seedURLs σ'.

(** A trace of actions run from a state. *)
Fixpoint run (cfg : Config) (trace : list action) (σ : System) : option System :=
  match trace with
  | [] => Some σ
  | a :: rest =>
      match act cfg a σ with
      | Some σ' => run cfg rest σ'
      | None => None
      end
  end.

End Worker.

(** ** The stage behind the workers and the Kafka producer *)

(** A kafka.Message handed to producer.Produce. *)
Record Message := {
  Topic : string;
  Value : string;
  Key : string;
  msg_Headers : list (string * string)
}.

(** The condition under which dreamProcessor writes its log line. *)
Definition dreamPotential (doc : Document) : bool :=
  (PrimFloat.ltb 0.3 (Surrealism (DreamHints doc))) && (100 <? len (CleanText doc))%Z.

(** dreamProcessor forwards each document it receives, unchanged, until it
    takes the ctx.Done case: [n] documents are received before that. *)
Definition dreamProcessor (n : nat) (input : list Document) : list Document :=
  take n input.

(** The log lines of dreamProcessor, by the URL they name. *)
Definition dreamProcessorLog (n : nat) (input : list Document) : list string :=
  URL <$> filter (λ doc, Is_true (dreamPotential doc)) (take n input).

(** The goroutine main starts instead when dreaming is disabled. *)
Definition passThrough (input : list Document) : list Document := input.

Section Producer.
Context {pkg : Packages}.

Definition rawMessage (cfg : Config) (doc : Document) (docBytes : string) : Message :=
  {| Topic := kafkaTopic cfg; Value := docBytes; Key := URL doc;
     msg_Headers := [("content_type", "application/json");
                     ("crawler_version", "dream-crawler-v1.0");
                     ("surrealism_score", fmt_2f (Surrealism (DreamHints doc)))] |}.

Definition dreamMessage (cfg : Config) (doc : Document) (docBytes : string) : Message :=
  {| Topic := dreamTopic cfg; Value := docBytes; Key := URL doc;
     msg_Headers := [("dream_ready", "true");
                     ("surrealism_score", fmt_2f (Surrealism (DreamHints doc)))] |}.

(** The surrealism gate of the producer. *)
Definition dreamGate (doc : Document) : bool :=
  PrimFloat.ltb 0.5 (Surrealism (DreamHints doc)).

(** The body of the loop of enhancedProducer: the messages produced for one
    document. *)
Definition produce (cfg : Config) (doc : Document) : list Message :=
  match json_Marshal doc with
  | None => []
  | Some docBytes =>
      rawMessage cfg doc docBytes ::
      (if dreamGate doc then [dreamMessage cfg doc docBytes] else [])
  end.

Definition enhancedProducer (cfg : Config) (input : list Document) : list Message :=
  input ≫= produce cfg.

(** main's wiring from the workers' output channel to the producer:
    dreamProcessor when dreaming is enabled, the pass-through otherwise. *)
Definition dispatch (cfg : Config) (n : nat) (rawOut : list Document) : list Message :=
  let dreamOut := if enableDreaming cfg then dreamProcessor n rawOut else passThrough rawOut in
  enhancedProducer cfg dreamOut.

End Producer.

(** ** The claims in the words of the specification *)

(** The link priority as the specification words it: 3 for an internal link
    and 1 otherwise, plus 2 when the anchor text mentions article, news or
    blog, then minus 1 with floor 1 at depth 2 or more. *)
Definition priorityRule (internal mentions : bool) (currentDepth : Z) : Z :=
  let p := if internal then 3%Z else 1%Z in
  let p := if mentions then (p + 2)%Z else p in
  if (2 <=? currentDepth)%Z then Z.max 1 (p - 1) else p.

(** The tokens of a text: split on whitespace, lowercased, the punctuation
    . , ! ? ; : stripped at both ends. *)
Definition tokens (text : string) : list string :=
  (λ word, Strings.Trim word ".,!?;:") <$> Strings.Fields (Strings.ToLower text).

Definition occurrences (text : string) (w : string) : nat :=
  length (filter (λ t, t = w) (tokens text)).

(** A word that extractKeywords counts: longer than 3 bytes, no stop word. *)
Definition counted (w : string) : Prop :=
  (3 < String.length w)%nat ∧ w ∉ stopWords.

(** A counted word that is kept: at least two occurrences, or longer than 6
    bytes. *)
Definition kept (text : string) (w : string) : Prop :=
  counted w ∧ w ∈ tokens text ∧ (2 ≤ occurrences text w ∨ 6 < String.length w)%nat.

(** ** Stand-ins for the imported packages, for running the examples

    A small net/url for URLs of the shapes scheme://host/path, scheme:opaque,
    /absolute/path and relative/path, and constant answers for the other
    packages.  They instantiate the interfaces above on concrete inputs; the
    theorems hold for every instance. *)
Module Standin.

Record url := { u_scheme : string; u_host : string; u_path : string }.

(** [cut sep s]: the text before the first byte [sep] of [s], and the text
    after it. *)
Fixpoint cut (sep : ascii) (s : string) : option (string * string) :=
  match s with
  | EmptyString => None
  | String c s' =>
      if Ascii.eqb c sep then Some (EmptyString, s')
      else match cut sep s' with
           | Some (a, b) => Some (String c a, b)
           | None => None
           end
  end.

Definition parse (s : string) : option url :=
  if Strings.HasPrefix s ":" then None
  else if Strings.HasPrefix s "/" then Some {| u_scheme := ""; u_host := ""; u_path := s |}
  else
    match cut ":" s with
    | Some (scheme, rest) =>
        if Strings.HasPrefix rest "//"
        then let authority := String.substring 2 (String.length rest - 2) rest in
             match cut "/" authority with
             | Some (host, path) =>
                 Some {| u_scheme := scheme; u_host := host; u_path := "/" +:+ path |}
             | None => Some {| u_scheme := scheme; u_host := authority; u_path := "" |}
             end
        else Some {| u_scheme := scheme; u_host := ""; u_path := rest |}
    | None => Some {| u_scheme := ""; u_host := ""; u_path := s |}
    end.

Definition resolve (base ref : url) : url :=
  if negb (String.eqb (u_scheme ref) "") then ref
  else if Strings.HasPrefix (u_path ref) "/"
       then {| u_scheme := u_scheme base; u_host := u_host base; u_path := u_path ref |}
       else {| u_scheme := u_scheme base; u_host := u_host base;
               u_path := "/" +:+ u_path ref |}.

Definition show (u : url) : string :=
  if String.eqb (u_host u) "" then u_scheme u +:+ ":" +:+ u_path u
  else u_scheme u +:+ "://" +:+ u_host u +:+ u_path u.

Definition netURL : NetURL url :=
  {| url_Parse := parse; ResolveReference := resolve; Scheme := u_scheme;
     Host := u_host; Path := u_path; URL_String := show |}.

Definition packages : Packages :=
  {| md5_hex := λ _, "d41d8cd98f00b204e9800998ecf8427e";
     time_Parse_RFC3339 := λ _, None;
     entity_FindAllString := λ _, [];
     json_Marshal := λ doc, Some ("{url:" +:+ URL doc +:+ "}");
     fmt_2f := λ _, "0.00" |}.

Definition anchor (href text : string) : Element :=
  {| attributes := [("href", href)]; elem_Text := text |}.

Definition paragraph (text : string) : Element :=
  {| attributes := []; elem_Text := text |}.

Definition pageOf (title : string) (paragraphs : list string)
    (anchors : list (string * string)) : Page :=
  {| find_title := [paragraph title]; find_main := [];
     find_body := paragraph <$> paragraphs; find_author := [];
     find_published := []; find_keywords := []; find_category := []; find_html := [];
     find_headlines := []; find_p := paragraph <$> paragraphs; find_quotes := [];
     find_a_href := (λ a, anchor (fst a) (snd a)) <$> anchors;
     find_img := []; find_video := [] |}.

Definition config : Config :=
  {| maxDepth := 1; queueSize := 4; allowedDomains := None; enableDreaming := false;
     kafkaTopic := "raw.content"; dreamTopic := "dream.seeds" |}.

Definition ok (page : Page) : FetchOutcome :=
  Responded {| StatusCode := 200; Header := {[ "Content-Type" := ["text/html"] ]};
               ContentLength := -1; Body := Some page |}.

Definition notFound : FetchOutcome :=
  Responded {| StatusCode := 404;
               Header := {[ "Content-Type" := ["text/plain"; "charset=utf-8"] ]};
               ContentLength := 19; Body := None |}.

End Standin.

(** * Notions used in the statements *)

(** The document of a page with mystical, positive and creative words, as
    enhancedFetchAndParse builds it. *)
Definition dreamyDocument : Document :=
  fst (fst (enhancedFetchAndParse (net := Standin.netURL) (pkg := Standin.packages)
              (λ _, listed) 0
              (Standin.ok (Standin.pageOf "Dreams"
                 ["mystical dream cosmic ethereal beautiful creative"] []))
              "http://a.test/dreams"
              {| depth := 0; parent := ""; priority := 10 |})).

(** The page of the first scenario, with a link to the site's root added. *)
Definition page1 : Page :=
  Standin.pageOf "Page 1" ["Welcome to page 1."]
    [("/page2", "Go to Page 2");
     ("https://example.com/external", " External News ");
     ("#fragment", "Fragment Link");
     ("mailto:test@example.com", "Mail Link");
     ("/", "Home")].

(** The base URL of that page, parsed. *)
Definition base1 : Standin.url :=
  {| Standin.u_scheme := "http"; Standin.u_host := "a.test"; Standin.u_path := "/page1" |}.

#[local] Instance counted_dec (w : string) : Decision (counted w).
Proof. unfold counted. apply _. Defined.

#[local] Instance kept_dec (text w : string) : Decision (kept text w).
Proof. unfold kept. apply _. Defined.

(** The number of list elements equal to [w]. *)
Definition hits (w : string) (ws : list string) : nat :=
  length (filter (λ t, t = w) ws).

(** The test of the second loop. *)
Definition passes (wordCount : gmap string nat) (word : string) : Prop :=
  (2 ≤ default 0 (wordCount !! word) ∨ 6 < String.length word)%nat.

#[local] Instance passes_dec wordCount word : Decision (passes wordCount word).
Proof. unfold passes. apply _. Defined.

Definition intRange (urlMeta : URLWithMetadata) : Prop :=
  (- 2 ^ 63 ≤ depth (um_Metadata urlMeta) < 2 ^ 63)%Z.

(** A frontier entry is a seed, or the child of a fetched page with that
    page's depth plus one. *)
Definition bornFrom (log : list URLWithMetadata) (e : URLWithMetadata) : Prop :=
  depth (um_Metadata e) = 0%Z
  ∨ ∃ p, p ∈ log ∧ parent (um_Metadata e) = um_URL p
         ∧ depth (um_Metadata e) = int_add (depth (um_Metadata p)) 1.

Definition log_ok (cfg : Config) (log : list URLWithMetadata) : Prop :=
  Forall (λ urlMeta, (depth (um_Metadata urlMeta) ≤ maxDepth cfg)%Z ∧ intRange urlMeta) log.

Definition queue_ok (log : list URLWithMetadata) (q : list URLWithMetadata) : Prop :=
  Forall (λ e, intRange e ∧ bornFrom log e) q.

Definition page2 : Page :=
  Standin.pageOf "Page 2" ["This is page 2."]
    [("/page3", "Deeper"); ("/page1", "Back to page one")].

Definition demoSeeds : list string := ["http://a.test/page1"; "http://a.test/page1"].

Definition demoTrace : list action :=
  [ Seed; Seed;
    Work 0 Next; Work 1 Next;
    Work 0 Next; Work 1 Next;
    Work 0 Next;
    RobotsFetched "a.test" (λ path, negb (Strings.HasPrefix path "/private"));
    Work 0 Next; Work 0 Next;
    Work 0 (Answer (Standin.ok page1) 100 (λ _, listed));
    Work 0 Next; Work 0 Next; Work 0 Next;
    Work 0 Next; Work 0 Next; Work 0 Next;
    Work 1 Next; Work 1 Next; Work 1 Next; Work 1 Next; Work 1 Next;
    Work 1 (Answer (Standin.ok page2) 101 (λ _, reversed));
    Work 1 Next; Work 1 Next; Work 1 Next;
    Work 1 Next; Work 1 Next; Work 1 Next;
    Work 0 Next;
    Work 1 Next; Work 1 Next; Work 1 Next;
    Cancel ].

Definition demoState : System (U := Standin.url) :=
  default (initial 2 demoSeeds)
    (run (net := Standin.netURL) (pkg := Standin.packages) Standin.config demoTrace
       (initial 2 demoSeeds)).

(** A chunk with its keyword list blanked. *)
Definition withoutKeywords (c : ContentChunk) : ContentChunk :=
  {| ID := ID c; chunk_Type := chunk_Type c; chunk_Text := chunk_Text c;
     Position := Position c; Confidence := Confidence c; Keywords := [];
     Sentiment := Sentiment c; Entities := Entities c |}.

Definition sameButKeywords (st1 st2 : list ContentChunk * Z) : Prop :=
  withoutKeywords <$> fst st1 = withoutKeywords <$> fst st2 ∧ snd st1 = snd st2.

Definition zooPage : Page :=
  Standin.pageOf "Zoo" ["elephant giraffes wander quietly"] [].

(** A page whose only main-content element is a short teaser, over a long
    body. *)
Definition teaserPage : Page :=
  {| find_title := [Standin.paragraph "Teaser"];
     find_main := [Standin.paragraph "  Read more  "];
     find_body := [Standin.paragraph
       "The body of this page holds far more than fifty bytes of text, all of it outside the main element."];
     find_author := []; find_published := []; find_keywords := []; find_category := [];
     find_html := []; find_headlines := []; find_p := []; find_quotes := [];
     find_a_href := []; find_img := []; find_video := [] |}.

(** The content attributes of the elements of a selection that have one. *)
Definition contents (sel : list Element) : list string :=
  omap (λ s, Attr s "content") sel.

(** The state of the chunk loops: the chunks so far are numbered from 0 in
    their order, each ID is a kind prefix before the number, and the counter
    is the number of chunks. *)
Definition numbered (st : list ContentChunk * Z) : Prop :=
  snd st = wrap64 (Z.of_nat (length (fst st)))
  ∧ ∀ (i : nat) c, fst st !! i = Some c →
      Position c = wrap64 (Z.of_nat i)
      ∧ ∃ kind, kind ∈ ["h_"; "p_"; "q_"] ∧ ID c = kind +:+ pretty (Position c).

(** The kind and the text of a chunk. *)
Definition tagged (c : ContentChunk) : string * string := (chunk_Type c, chunk_Text c).

(** The trimmed texts of the elements of a selection. *)
Definition trimmed (sel : list Element) : list string :=
  (λ s, Strings.TrimSpace (elem_Text s)) <$> sel.

(** A page with two headlines, two paragraphs and a quote. *)
Definition articlePage : Page :=
  {| find_title := [Standin.paragraph "Article"]; find_main := [];
     find_body := [];
     find_author := []; find_published := []; find_keywords := []; find_category := [];
     find_html := [];
     find_headlines := [Standin.paragraph "Crystal caves"; Standin.paragraph "Intro"];
     find_p := [Standin.paragraph "The caves glow with a pale light all year.";
                Standin.paragraph "Too short."];
     find_quotes := [Standin.paragraph " Magic! "];
     find_a_href := []; find_img := []; find_video := [] |}.

(** A configuration with a whitelist of one domain, and a run of two
    workers on a seed inside and a seed outside of it. *)
Definition fencedConfig : Config :=
  {| maxDepth := 1; queueSize := 4; allowedDomains := Some {[ "a.test" ]};
     enableDreaming := false; kafkaTopic := "raw.content"; dreamTopic := "dream.seeds" |}.

Definition fencedSeeds : list string := ["http://a.test/page1"; "http://b.test/page1"].

Definition fencedTrace : list action :=
  [ Seed; Seed;
    Work 0 Next; Work 0 Next; Work 0 Next; Work 0 Next; Work 0 Next;
    Work 1 Next; Work 1 Next; Work 1 Next;
    Work 0 (Answer (Standin.ok page1) 100 (λ _, listed));
    Work 0 Next; Work 0 Next; Work 0 Next;
    Work 0 Next; Work 0 Next; Work 0 Next; Work 0 Next ].

Definition fencedState : System (U := Standin.url) :=
  default (initial 2 fencedSeeds)
    (run (net := Standin.netURL) (pkg := Standin.packages) fencedConfig fencedTrace
       (initial 2 fencedSeeds)).

(** The fenced run up to the point where worker 0 has sent its document
    and starts on the links of the page. *)
Definition offeringState : System (U := Standin.url) :=
  default (initial 2 fencedSeeds)
    (run (net := Standin.netURL) (pkg := Standin.packages) fencedConfig
       (take 14 fencedTrace) (initial 2 fencedSeeds)).

(** The sum of a list of integers. *)
Definition total (l : list Z) : Z := foldr Z.add 0%Z l.

(** The demo run cut where the robots.txt of a.test has just arrived, and
    the rest of it. *)
Definition robotsLoaded : System (U := Standin.url) :=
  default (initial 2 demoSeeds)
    (run (net := Standin.netURL) (pkg := Standin.packages) Standin.config
       (take 8 demoTrace) (initial 2 demoSeeds)).

Definition privatePath : Standin.url :=
  {| Standin.u_scheme := "http"; Standin.u_host := "a.test";
     Standin.u_path := "/private/notes" |}.

(** A page with two images and a video; the second image has no file
    extension in its src. *)
Definition galleryPage : Page :=
  {| find_title := [Standin.paragraph "Gallery"]; find_main := []; find_body := [];
     find_author := []; find_published := []; find_keywords := []; find_category := [];
     find_html := []; find_headlines := []; find_p := []; find_quotes := [];
     find_a_href := [];
     find_img := [ {| attributes := [("src", "/img/cat.png"); ("alt", "A cat")];
                      elem_Text := "" |};
                   {| attributes := [("alt", "No source")]; elem_Text := "" |};
                   {| attributes := [("src", "http://cdn.test/photo")]; elem_Text := "" |} ];
     find_video := [ {| attributes := [("src", "/v/clip.mp4")]; elem_Text := "" |} ] |}.

Definition galleryAssets : list MediaAsset :=
  default [] (extractMediaAssets (net := Standin.netURL) galleryPage "http://a.test/gallery").

(** A run on an empty seed and a proper one: worker 0 skips the first and
    fetches the second. *)
Definition blankSeeds : list string := [""; "http://a.test/page1"].

Definition blankSeedState : System (U := Standin.url) :=
  default (initial 1 blankSeeds)
    (run (net := Standin.netURL) (pkg := Standin.packages) Standin.config
       [ Seed; Seed; Work 0 Next; Work 0 Next;
         Work 0 Next; Work 0 Next; Work 0 Next; Work 0 Next; Work 0 Next ]
       (initial 1 blankSeeds)).

(** A stand-in whose only publication time is one that json.Marshal
    rejects: time.Parse accepts the RFC 3339 text with the zone offset
    +24:00 (the instant 2024-01-01T00:00:00Z), and Time.MarshalJSON refuses
    a zone hour outside 0..23; so the encoding fails for the documents that
    carry a publication time, and is that of the other stand-in otherwise. *)
Definition lateZone : Packages :=
  {| md5_hex := md5_hex (Packages := Standin.packages);
     time_Parse_RFC3339 := λ value,
       if String.eqb value "2024-01-02T00:00:00+24:00" then Some 1704067200%Z else None;
     entity_FindAllString := entity_FindAllString (Packages := Standin.packages);
     json_Marshal := λ doc,
       match PublishedAt (Metadata doc) with
       | Some _ => None
       | None => json_Marshal (Packages := Standin.packages) doc
       end;
     fmt_2f := fmt_2f (Packages := Standin.packages) |}.

(** A page with that publication time in its meta element. *)
Definition datedPage : Page :=
  {| find_title := [Standin.paragraph "Dated"]; find_main := [];
     find_body := [Standin.paragraph "mystical dream cosmic ethereal beautiful creative"];
     find_author := [];
     find_published := [ {| attributes := [("content", "2024-01-02T00:00:00+24:00")];
                            elem_Text := "" |} ];
     find_keywords := []; find_category := []; find_html := []; find_headlines := [];
     find_p := [Standin.paragraph "mystical dream cosmic ethereal beautiful creative"];
     find_quotes := []; find_a_href := []; find_img := []; find_video := [] |}.

Definition datedDocument : Document :=
  fst (fst (enhancedFetchAndParse (net := Standin.netURL) (pkg := lateZone)
              (λ _, listed) 0 (Standin.ok datedPage) "http://a.test/dated"
              {| depth := 0; parent := ""; priority := 10 |})).

(** The demo run cut where worker 0 has sent the document of the first
    page and starts on its links, and the two links it holds there. *)
Definition linkingState : System (U := Standin.url) :=
  default (initial 2 demoSeeds)
    (run (net := Standin.netURL) (pkg := Standin.packages) Standin.config
       (take 14 demoTrace) (initial 2 demoSeeds)).

Definition linkToPage2 : ExtractedLink :=
  {| link_URL := "http://a.test/page2"; link_Text := "Go to Page 2";
     link_Type := "internal"; link_Context := ""; Priority := 3 |}.

Definition linkToNews : ExtractedLink :=
  {| link_URL := "https://example.com/external"; link_Text := "External News";
     link_Type := "external"; link_Context := ""; Priority := 3 |}.

(** A frontier with room for one entry, and a run of one worker that
    fetches the first page and offers its first link. *)
Definition tightConfig : Config :=
  {| maxDepth := 1; queueSize := 1; allowedDomains := None; enableDreaming := false;
     kafkaTopic := "raw.content"; dreamTopic := "dream.seeds" |}.

Definition tightTrace : list action :=
  [ Seed;
    Work 0 Next; Work 0 Next; Work 0 Next; Work 0 Next; Work 0 Next;
    Work 0 (Answer (Standin.ok page1) 100 (λ _, listed));
    Work 0 Next; Work 0 Next; Work 0 Next; Work 0 Next ].

Definition tightState : System (U := Standin.url) :=
  default (initial 1 ["http://a.test/page1"])
    (run (net := Standin.netURL) (pkg := Standin.packages) tightConfig tightTrace
       (initial 1 ["http://a.test/page1"])).

Section Notions.
Context {U : Type} {net : NetURL U} {pkg : Packages}.

(** The steps of one worker run without another goroutine in between. *)
Fixpoint workerRun (cfg : Config) (moves : list move) (p : pc (U := U)) (s : Shared)
    : option (pc (U := U) * Shared) :=
  match moves with
  | [] => Some (p, s)
  | m :: rest =>
      match workerStep cfg m p s with
      | Some (p', s') => workerRun cfg rest p' s'
      | None => None
      end
  end.

(** The part of the loop after a successful enhancedFetchAndParse. *)
Definition emitting (p : pc (U := U)) : Prop :=
  match p with
  | Fetched _ _ _ | Counted _ _ _ | Sized _ _ _ | Queueing _ _ => True
  | _ => False
  end.

(** The URL a worker has claimed in the seen set and not yet fetched. *)
Definition pendingURL (p : pc (U := U)) : option string :=
  match p with
  | Claimed urlMeta | WithPolicy urlMeta _ | Waiting urlMeta => Some (um_URL urlMeta)
  | _ => None
  end.

(** The URLs fetched so far, and those claimed by a worker on its way to
    the fetch. *)
Definition claimedURLs (σ : System (U := U)) : list string :=
  (um_URL <$> fetchLog (shared σ)) ++ omap pendingURL (workers σ).

Definition dedupe_inv (σ : System (U := U)) : Prop :=
  NoDup (claimedURLs σ) ∧ ∀ u, u ∈ claimedURLs σ → u ∈ seen (shared σ).

(** The frontier entry of the iteration a worker is in. *)
Definition holds (p : pc (U := U)) : option URLWithMetadata :=
  match p with
  | AtSelect | Exited => None
  | Received urlMeta | Claimed urlMeta | WithPolicy urlMeta _ | Waiting urlMeta
  | Fetching urlMeta | Fetched urlMeta _ _ | Counted urlMeta _ _ | Sized urlMeta _ _
  | Queueing urlMeta _ => Some urlMeta
  end.

(** Past the depth test and not yet fetching. *)
Definition pastDepthTest (p : pc (U := U)) : Prop :=
  match p with
  | WithPolicy _ _ | Waiting _ => True
  | _ => False
  end.

(** Past the line that logs the fetch. *)
Definition pastFetch (p : pc (U := U)) : Prop :=
  match p with
  | Fetching _ | Fetched _ _ _ | Counted _ _ _ | Sized _ _ _ | Queueing _ _ => True
  | _ => False
  end.

Definition worker_ok (cfg : Config) (log : list URLWithMetadata) (p : pc (U := U)) : Prop :=
  ∀ urlMeta, holds p = Some urlMeta →
    intRange urlMeta
    ∧ (pastDepthTest p → (depth (um_Metadata urlMeta) ≤ maxDepth cfg)%Z)
    ∧ (pastFetch p → urlMeta ∈ log).

Definition depth_inv (cfg : Config) (σ : System (U := U)) : Prop :=
  log_ok cfg (fetchLog (shared σ))
  ∧ queue_ok (fetchLog (shared σ)) (urlQueue (shared σ))
  ∧ Forall (worker_ok cfg (fetchLog (shared σ))) (workers σ).

(** The domain whitelist, when there is one, holds the host. *)
Definition allowedHost (cfg : Config) (host : string) : Prop :=
  ∀ allowed, allowedDomains cfg = Some allowed → host ∈ allowed.

(** The URL of the entry parses, its host passes the whitelist and has its
    policy record in the host map. *)
Definition vetted (cfg : Config) (s : Shared) (urlMeta : URLWithMetadata) : Prop :=
  ∃ parsed : U,
    url_Parse (um_URL urlMeta) = Some parsed
    ∧ allowedHost cfg (Host parsed)
    ∧ is_Some (hostMap s !! Host parsed).

Definition worker_vetted (cfg : Config) (s : Shared) (p : pc (U := U)) : Prop :=
  match p with
  | WithPolicy urlMeta parsed =>
      url_Parse (um_URL urlMeta) = Some parsed
      ∧ allowedHost cfg (Host parsed)
      ∧ is_Some (hostMap s !! Host parsed)
  | Waiting urlMeta => vetted cfg s urlMeta
  | _ => True
  end.

(** [doc] and [newLinks] are what a successful enhancedFetchAndParse made
    of a logged fetch. *)
Definition parsedFrom (log : list URLWithMetadata) (urlMeta : URLWithMetadata)
    (doc : Document) (newLinks : list ExtractedLink) : Prop :=
  urlMeta ∈ log
  ∧ ∃ ρ now outcome,
      enhancedFetchAndParse ρ now outcome (um_URL urlMeta) (um_Metadata urlMeta)
      = (doc, newLinks, None).

(** Where a frontier entry comes from: a seed, or a link of a page that was
    fetched and parsed. *)
Definition origin (seedURLs : list string) (log : list URLWithMetadata)
    (e : URLWithMetadata) : Prop :=
  (∃ x, x ∈ seedURLs ∧ e = seedEntry x)
  ∨ (∃ urlMeta doc newLinks link,
       parsedFrom log urlMeta doc newLinks ∧ link ∈ newLinks
       ∧ e = childEntry urlMeta link).

Definition worker_parsed (log : list URLWithMetadata) (p : pc (U := U)) : Prop :=
  match p with
  | Fetching urlMeta => urlMeta ∈ log
  | Fetched urlMeta doc newLinks | Counted urlMeta doc newLinks
  | Sized urlMeta doc newLinks => parsedFrom log urlMeta doc newLinks
  | Queueing urlMeta rest =>
      ∃ doc newLinks, parsedFrom log urlMeta doc newLinks
                      ∧ ∀ link, link ∈ rest → link ∈ newLinks
  | _ => True
  end.

Definition prov_shared (seedURLs : list string) (s : Shared) : Prop :=
  Forall (origin seedURLs (fetchLog s)) (urlQueue s)
  ∧ Forall (origin seedURLs (fetchLog s)) (fetchLog s)
  ∧ Forall (λ doc, ∃ urlMeta newLinks, parsedFrom (fetchLog s) urlMeta doc newLinks)
      (rawOut s).

Definition prov_worker (seedURLs : list string) (s : Shared) (p : pc (U := U)) : Prop :=
  (∀ urlMeta, holds p = Some urlMeta → origin seedURLs (fetchLog s) urlMeta)
  ∧ worker_parsed (fetchLog s) p.

(** The URL of the document a worker is about to send: the URL being
    fetched, then the URL of the parsed document until it is sent. *)
Definition sendingURL (p : pc (U := U)) : option string :=
  match p with
  | Fetching urlMeta => Some (um_URL urlMeta)
  | Fetched _ doc _ | Counted _ doc _ | Sized _ doc _ => Some (URL doc)
  | _ => None
  end.

(** The URLs of the documents sent, and of those on their way. *)
Definition outputURLs (σ : System (U := U)) : list string :=
  (URL <$> rawOut (shared σ)) ++ omap sendingURL (workers σ).

Definition output_inv (σ : System (U := U)) : Prop :=
  outputURLs σ ⊆+ um_URL <$> fetchLog (shared σ).

(** The workers between IncrementPages and the send of the document, and
    the size a worker has added with AddBytes for a document it has not
    sent yet. *)
Definition counting (p : pc (U := U)) : option unit :=
  match p with
  | Counted _ _ _ | Sized _ _ _ => Some ()
  | _ => None
  end.

Definition sized (p : pc (U := U)) : option Z :=
  match p with
  | Sized _ doc _ => Some (len (Text doc))
  | _ => None
  end.

Definition stats_inv (σ : System (U := U)) : Prop :=
  PagesProcessed (stats (shared σ))
  = wrap64 (Z.of_nat (length (rawOut (shared σ)) + length (omap counting (workers σ))))
  ∧ BytesProcessed (stats (shared σ))
    = wrap64 (total ((λ doc, len (Text doc)) <$> rawOut (shared σ))
              + total (omap sized (workers σ)))
  ∧ DreamsGenerated (stats (shared σ)) = 0%Z.

End Notions.

(** * Properties *)

(** ** Dream hints: the cue lists *)

(** C10: the visual-cue and audio-cue fields of the dream hints do not depend
    on the document: extractVisualCues and extractAudioCues return their
    three fixed strings for every text, and generateDreamHints stores them
    for every document. *)
Theorem cues_are_constant (doc : Document) (text : string) :
  extractVisualCues text = ["ethereal lighting"; "flowing forms"; "crystalline structures"]
  ∧ extractAudioCues text = ["ambient whispers"; "digital harmonics"; "pulsing rhythms"]
  ∧ VisualCues (generateDreamHints doc)
      = ["ethereal lighting"; "flowing forms"; "crystalline structures"]
  ∧ AudioCues (generateDreamHints doc)
      = ["ambient whispers"; "digital harmonics"; "pulsing rhythms"].
Proof. repeat split; reflexivity. Qed.

(** ** The producer and the stage before it *)

Section ProducerFacts.
Context {pkg : Packages}.

Lemma enhancedProducer_app cfg (xs ys : list Document) :
  enhancedProducer cfg (xs ++ ys) = enhancedProducer cfg xs ++ enhancedProducer cfg ys.
Proof. unfold enhancedProducer. apply bind_app. Qed.

Lemma enhancedProducer_cons cfg (doc : Document) (rest : list Document) :
  enhancedProducer cfg (doc :: rest) = produce cfg doc ++ enhancedProducer cfg rest.
Proof. reflexivity. Qed.

Lemma produce_marshalled cfg doc docBytes :
  json_Marshal doc = Some docBytes →
  produce cfg doc =
    rawMessage cfg doc docBytes ::
    (if PrimFloat.ltb 0.5 (Surrealism (DreamHints doc))
     then [dreamMessage cfg doc docBytes] else []).
Proof. intros Hm. unfold produce, dreamGate. rewrite Hm. reflexivity. Qed.

Lemma produce_unmarshalled cfg doc :
  json_Marshal doc = None → produce cfg doc = [].
Proof. intros Hm. unfold produce. rewrite Hm. reflexivity. Qed.

(** C2 (as the code has it): a document the producer consumes, and whose
    JSON encoding succeeds, is published on the raw-content topic with its
    URL as key, and next to it on the dream topic exactly when its
    surrealism score is strictly greater than 0.5; the messages of the
    documents before and after it surround these in order.  A document whose
    encoding fails is skipped: it is published on neither topic, and the
    messages of the others are as if it had not been consumed. *)
Theorem producer_surrealism_gate cfg (before after : list Document) doc :
  (∀ docBytes,
     json_Marshal doc = Some docBytes →
     enhancedProducer cfg (before ++ doc :: after)
       = enhancedProducer cfg before
         ++ rawMessage cfg doc docBytes
            :: (if PrimFloat.ltb 0.5 (Surrealism (DreamHints doc))
                then [dreamMessage cfg doc docBytes] else [])
         ++ enhancedProducer cfg after
     ∧ Topic (rawMessage cfg doc docBytes) = kafkaTopic cfg
     ∧ Key (rawMessage cfg doc docBytes) = URL doc
     ∧ Topic (dreamMessage cfg doc docBytes) = dreamTopic cfg
     ∧ Key (dreamMessage cfg doc docBytes) = URL doc
     ∧ rawMessage cfg doc docBytes ≠ dreamMessage cfg doc docBytes)
  ∧ (json_Marshal doc = None →
     enhancedProducer cfg (before ++ doc :: after)
       = enhancedProducer cfg before ++ enhancedProducer cfg after
     ∧ produce cfg doc = []).
Proof.
  split.
  - intros docBytes Hm. repeat split.
    + rewrite enhancedProducer_app, enhancedProducer_cons.
      rewrite (produce_marshalled _ _ _ Hm). reflexivity.
    + unfold rawMessage, dreamMessage. intros Heq.
      apply (f_equal msg_Headers) in Heq. simpl in Heq. discriminate Heq.
  - intros Hm. split; [|apply produce_unmarshalled, Hm].
    rewrite enhancedProducer_app, enhancedProducer_cons.
    rewrite (produce_unmarshalled _ _ Hm). reflexivity.
Qed.

(** What main's wiring does with the enable-dreaming flag (see C1): what
    is published does not depend on it.  The flag selects the goroutine
    between the workers and the producer; both forward the documents
    unchanged, so as
    long as dreamProcessor is not stopped by cancellation ([n] covers the
    input) two configurations with the same topics publish the same
    messages, which are those of the producer run on the workers' output:
    with either setting a document whose JSON encoding succeeds goes to the
    dream topic exactly when its surrealism score exceeds 0.5. *)
Theorem dispatch_ignores_dreaming_flag cfg cfg' n (rawOut : list Document) :
  kafkaTopic cfg = kafkaTopic cfg' →
  dreamTopic cfg = dreamTopic cfg' →
  (length rawOut ≤ n)%nat →
  dispatch cfg n rawOut = dispatch cfg' n rawOut
  ∧ dispatch cfg n rawOut = enhancedProducer cfg rawOut
  ∧ (∀ before doc after docBytes,
       rawOut = before ++ doc :: after →
       json_Marshal doc = Some docBytes →
       dispatch cfg n rawOut
       = enhancedProducer cfg before
         ++ rawMessage cfg doc docBytes
            :: (if PrimFloat.ltb 0.5 (Surrealism (DreamHints doc))
                then [dreamMessage cfg doc docBytes] else [])
         ++ enhancedProducer cfg after).
Proof.
  intros Hk Hd Hn.
  assert (Hfwd : ∀ c, dispatch c n rawOut = enhancedProducer c rawOut).
  { intros c. unfold dispatch, dreamProcessor, passThrough.
    destruct (enableDreaming c); [rewrite take_ge by lia|]; reflexivity. }
  split; [|split; [apply Hfwd|]]; cycle 1.
  { intros before doc after docBytes -> Hm.
    rewrite Hfwd, enhancedProducer_app, enhancedProducer_cons.
    rewrite (produce_marshalled _ _ _ Hm). reflexivity. }
  rewrite !Hfwd. clear Hn Hfwd.
  induction rawOut as [|doc rest IH]; [reflexivity|].
  rewrite !enhancedProducer_cons, IH. f_equal.
  unfold produce, rawMessage, dreamMessage. rewrite Hk, Hd. reflexivity.
Qed.

End ProducerFacts.

(** C1 fails on the code.  The flag is declared as the switch of the dream
    hint generation, and main branches on it to run without dreaming; yet
    with the flag false the document of a page still gets its generated
    hints (here a surrealism score of 1), and it is still published on the
    dream topic next to the raw-content topic. *)
Lemma dreaming_disabled_still_publishes :
  enableDreaming Standin.config = false
  ∧ Surrealism (DreamHints dreamyDocument) = 1%float
  ∧ Topic <$> dispatch (pkg := Standin.packages) Standin.config 0 [dreamyDocument]
    = ["raw.content"; "dream.seeds"].
Proof. repeat split; vm_compute; reflexivity. Qed.

(** The two settings of the flag on the same output of the workers. *)
Lemma dispatch_ignores_dreaming_flag_witness :
  dispatch (pkg := Standin.packages) Standin.config 1 [dreamyDocument]
  = dispatch (pkg := Standin.packages)
      {| maxDepth := 1; queueSize := 4; allowedDomains := None; enableDreaming := true;
         kafkaTopic := "raw.content"; dreamTopic := "dream.seeds" |} 1 [dreamyDocument]
  ∧ dispatch (pkg := Standin.packages) Standin.config 1 [dreamyDocument]
    = enhancedProducer (pkg := Standin.packages) Standin.config [dreamyDocument].
Proof.
  destruct (dispatch_ignores_dreaming_flag (pkg := Standin.packages) Standin.config
              {| maxDepth := 1; queueSize := 4; allowedDomains := None;
                 enableDreaming := true;
                 kafkaTopic := "raw.content"; dreamTopic := "dream.seeds" |}
              1 [dreamyDocument] eq_refl eq_refl (le_n 1)) as (Hsame & Hall & _).
  split; assumption.
Defined.

(** The producer on that document: both messages are produced. *)
Lemma producer_surrealism_gate_witness :
  enhancedProducer (pkg := Standin.packages) Standin.config ([] ++ dreamyDocument :: [])
  = enhancedProducer (pkg := Standin.packages) Standin.config []
    ++ rawMessage (pkg := Standin.packages) Standin.config dreamyDocument
         "{url:http://a.test/dreams}"
       :: (if PrimFloat.ltb 0.5 (Surrealism (DreamHints dreamyDocument))
           then [dreamMessage (pkg := Standin.packages) Standin.config dreamyDocument
                   "{url:http://a.test/dreams}"] else [])
    ++ enhancedProducer (pkg := Standin.packages) Standin.config [].
Proof.
  destruct (producer_surrealism_gate (pkg := Standin.packages)
              Standin.config [] [] dreamyDocument) as [Hsome _].
  apply (Hsome "{url:http://a.test/dreams}"). reflexivity.
Defined.

(** C2, counterexample: the document of a page whose publication time has
    the zone offset +24:00.  The worker gets it without an error and sends
    it on; its surrealism score is above 0.5; the producer consumes it, its
    encoding fails, and it is published on no topic. *)
Lemma unencodable_document_is_not_published :
  snd (enhancedFetchAndParse (net := Standin.netURL) (pkg := lateZone) (λ _, listed) 0
         (Standin.ok datedPage) "http://a.test/dated"
         {| depth := 0; parent := ""; priority := 10 |}) = None
  ∧ PublishedAt (Metadata datedDocument) = Some 1704067200%Z
  ∧ PrimFloat.ltb 0.5 (Surrealism (DreamHints datedDocument)) = true
  ∧ json_Marshal (Packages := lateZone) datedDocument = None
  ∧ enhancedProducer (pkg := lateZone) Standin.config [datedDocument] = [].
Proof. repeat split; vm_compute; reflexivity. Qed.

(** ** Link extraction *)

Section LinkFacts.
Context {U : Type} {net : NetURL U} {pkg : Packages}.

Lemma int_add_small (a b : Z) :
  (- 2 ^ 63 ≤ a + b < 2 ^ 63)%Z → int_add a b = (a + b)%Z.
Proof.
  intros Hr. unfold int_add, wrap64.
  rewrite Z.mod_small by lia. lia.
Qed.

Lemma int_sub_small (a b : Z) :
  (- 2 ^ 63 ≤ a - b < 2 ^ 63)%Z → int_sub a b = (a - b)%Z.
Proof.
  intros Hr. unfold int_sub, wrap64.
  rewrite Z.mod_small by lia. lia.
Qed.

Lemma max_is_Zmax (a b : Z) : max a b = Z.max a b.
Proof. unfold max. destruct (Z.gtb_spec a b); lia. Qed.

(** What the callback computes for an element it keeps. *)
Lemma linkOf_Some (base : U) (currentDepth : Z) (s : Element) (link : ExtractedLink) :
  linkOf base currentDepth s = Some link ↔
  ∃ href resolvedURL,
    Attr s "href" = Some href
    ∧ (2 ≤ String.length href)%nat
    ∧ Strings.HasPrefix href "#" = false
    ∧ URL_Parse base href = Some resolvedURL
    ∧ (Scheme resolvedURL = "http" ∨ Scheme resolvedURL = "https")
    ∧ link =
        {| link_URL := URL_String resolvedURL;
           link_Text := Strings.TrimSpace (elem_Text s);
           link_Type := if String.eqb (Host resolvedURL) (Host base)
                        then "internal" else "external";
           link_Context := "";
           Priority := priorityRule (String.eqb (Host resolvedURL) (Host base))
                         (anchorMentions (Strings.TrimSpace (elem_Text s)))
                         currentDepth |}.
Proof.
  assert (Hprio : ∀ internal mentions : bool,
    (let priority := if internal then 3%Z else 1%Z in
     let priority := if mentions then int_add priority 2 else priority in
     if (currentDepth >=? 2)%Z then max 1 (int_sub priority 1) else priority)
    = priorityRule internal mentions currentDepth).
  { intros internal mentions. unfold priorityRule. cbv zeta.
    rewrite Z.geb_leb.
    destruct internal, mentions, (2 <=? currentDepth)%Z; reflexivity. }
  unfold linkOf. split.
  - destruct (Attr s "href") as [href|]; [|discriminate].
    destruct (Z.ltb_spec (len href) 2) as [Hlt|Hge]; simpl; [discriminate|].
    destruct (Strings.HasPrefix href "#") eqn:Hhash; [discriminate|].
    destruct (URL_Parse base href) as [resolvedURL|] eqn:Hres; [|discriminate].
    destruct (String.eqb_spec (Scheme resolvedURL) "http") as [Hh|Hh];
      destruct (String.eqb_spec (Scheme resolvedURL) "https") as [Hs|Hs];
      simpl; try discriminate;
      intros [= <-]; exists href, resolvedURL;
      split_and!; try reflexivity; try (unfold len in Hge; lia); try tauto;
      rewrite <- Hprio; cbv zeta;
      destruct (String.eqb (Host resolvedURL) (Host base)); reflexivity.
  - intros (href & resolvedURL & -> & Hlen & -> & -> & Hscheme & ->).
    destruct (Z.ltb_spec (len href) 2) as [Hlt|Hge]; [unfold len in Hlt; lia|].
    simpl. rewrite <- Hprio. cbv zeta.
    destruct Hscheme as [-> | ->]; simpl;
      destruct (String.eqb (Host resolvedURL) (Host base)); reflexivity.
Qed.

Lemma extractLinksWithPriority_parsed (doc : Page) (baseURL : string) (base : U)
    (currentDepth : Z) :
  url_Parse baseURL = Some base →
  extractLinksWithPriority doc baseURL currentDepth
  = Some (omap (linkOf base currentDepth) (find_a_href doc)).
Proof. intros Hb. unfold extractLinksWithPriority. rewrite Hb. reflexivity. Qed.

(** C9: every link that extraction stores carries the priority of the rule:
    3 when the resolved host is the base URL's host and 1 otherwise, plus 2
    when the lowercased anchor text contains article, news or blog, then one
    less with floor 1 when the depth of the page being parsed is 2 or more. *)
Theorem link_priority_rule (doc : Page) (baseURL : string) (base : U)
    (currentDepth : Z) (links : list ExtractedLink) (link : ExtractedLink) :
  url_Parse baseURL = Some base →
  extractLinksWithPriority doc baseURL currentDepth = Some links →
  link ∈ links →
  ∃ s href resolvedURL,
    s ∈ find_a_href doc
    ∧ Attr s "href" = Some href
    ∧ URL_Parse base href = Some resolvedURL
    ∧ link_URL link = URL_String resolvedURL
    ∧ link_Text link = Strings.TrimSpace (elem_Text s)
    ∧ Priority link =
        priorityRule
          (bool_decide (Host resolvedURL = Host base))
          (bool_decide (Strings.Contains (Strings.ToLower (link_Text link)) "article" = true
                        ∨ Strings.Contains (Strings.ToLower (link_Text link)) "news" = true
                        ∨ Strings.Contains (Strings.ToLower (link_Text link)) "blog" = true))
          currentDepth.
Proof.
  intros Hb Hl Hin.
  rewrite (extractLinksWithPriority_parsed _ _ _ _ Hb) in Hl.
  injection Hl as <-.
  apply list_elem_of_omap in Hin as (s & Hs & Hlink).
  apply linkOf_Some in Hlink as (href & resolvedURL & Hattr & _ & _ & Hres & _ & ->).
  exists s, href, resolvedURL. simpl. repeat split; try assumption.
  f_equal.
  - destruct (String.eqb_spec (Host resolvedURL) (Host base)) as [He|He].
    + rewrite bool_decide_true; done.
    + rewrite bool_decide_false; done.
  - unfold anchorMentions.
    set (t := Strings.ToLower (Strings.TrimSpace (elem_Text s))).
    destruct (Strings.Contains t "article"), (Strings.Contains t "news"),
      (Strings.Contains t "blog"); reflexivity.
Qed.

(** C5 (as the code has it): extraction keeps the a[href] elements whose
    href has at least two bytes, does not begin with #, parses and resolves
    against the base to an http or https URL, and keeps no other; a kept
    link holds the resolved URL and the trimmed anchor text, and the links
    stand in the order of their elements. *)
Theorem link_kept_iff (doc : Page) (baseURL : string) (base : U) (currentDepth : Z) :
  url_Parse baseURL = Some base →
  ∃ links,
    extractLinksWithPriority doc baseURL currentDepth = Some links
    ∧ links = omap (linkOf base currentDepth) (find_a_href doc)
    ∧ (∀ link, link ∈ links →
         ∃ s href resolvedURL,
           s ∈ find_a_href doc
           ∧ Attr s "href" = Some href
           ∧ (2 ≤ String.length href)%nat
           ∧ Strings.HasPrefix href "#" = false
           ∧ URL_Parse base href = Some resolvedURL
           ∧ (Scheme resolvedURL = "http" ∨ Scheme resolvedURL = "https")
           ∧ link_URL link = URL_String resolvedURL
           ∧ link_Text link = Strings.TrimSpace (elem_Text s))
    ∧ (∀ s href resolvedURL,
         s ∈ find_a_href doc →
         Attr s "href" = Some href →
         (2 ≤ String.length href)%nat →
         Strings.HasPrefix href "#" = false →
         URL_Parse base href = Some resolvedURL →
         Scheme resolvedURL = "http" ∨ Scheme resolvedURL = "https" →
         ∃ link, link ∈ links
                 ∧ linkOf base currentDepth s = Some link
                 ∧ link_URL link = URL_String resolvedURL
                 ∧ link_Text link = Strings.TrimSpace (elem_Text s)).
Proof.
  intros Hb. eexists. split; [apply (extractLinksWithPriority_parsed _ _ _ _ Hb)|].
  split; [reflexivity|]. split.
  - intros link Hin.
    apply list_elem_of_omap in Hin as (s & Hs & Hlink).
    apply linkOf_Some in Hlink
      as (href & resolvedURL & Hattr & Hlen & Hhash & Hres & Hscheme & ->).
    exists s, href, resolvedURL. simpl. repeat split; assumption.
  - intros s href resolvedURL Hs Hattr Hlen Hhash Hres Hscheme.
    eexists. split; [|split; [|split]].
    + apply list_elem_of_omap. exists s. split; [exact Hs|].
      apply linkOf_Some. exists href, resolvedURL. repeat split; eauto.
    + apply linkOf_Some. exists href, resolvedURL. repeat split; eauto.
    + reflexivity.
    + reflexivity.
Qed.

(** An href of fewer than two bytes is dropped before it is resolved. *)
Lemma short_href_dropped (base : U) (currentDepth : Z) (s : Element) (href : string) :
  Attr s "href" = Some href → (String.length href < 2)%nat →
  linkOf base currentDepth s = None.
Proof.
  intros Hattr Hlen. unfold linkOf. rewrite Hattr.
  destruct (Z.ltb_spec (len href) 2) as [Hlt|Hge]; [reflexivity|].
  unfold len in Hge. lia.
Qed.

(** The links returned by enhancedFetchAndParse are those of the page at
    the depth of the URL being fetched. *)
Lemma fetched_links (ρ : Z → RangeOrder) (now : Z) (resp : Response) (gqDoc : Page)
    (rawurl : string) (metadata : URLMetadata) (base : U) :
  url_Parse rawurl = Some base →
  StatusCode resp = StatusOK →
  Body resp = Some gqDoc →
  snd (fst (enhancedFetchAndParse ρ now (Responded resp) rawurl metadata))
  = omap (linkOf base (depth metadata)) (find_a_href gqDoc).
Proof.
  intros Hb Hst Hbody. unfold enhancedFetchAndParse.
  rewrite Hb, Hst, Hbody. simpl.
  rewrite (extractLinksWithPriority_parsed _ _ _ _ Hb). reflexivity.
Qed.

End LinkFacts.

(** C5, counterexample: the href "/" is not empty, does not begin with #,
    parses, and resolves against the base to an http URL, and the link is
    not stored. *)
Lemma root_href_is_rejected :
  url_Parse (NetURL := Standin.netURL) "http://a.test/page1" = Some base1
  ∧ Standin.anchor "/" "Home" ∈ find_a_href page1
  ∧ Attr (Standin.anchor "/" "Home") "href" = Some "/"
  ∧ Strings.HasPrefix "/" "#" = false
  ∧ URL_Parse (net := Standin.netURL) base1 "/"
    = Some {| Standin.u_scheme := "http"; Standin.u_host := "a.test";
              Standin.u_path := "/" |}
  ∧ linkOf (net := Standin.netURL) base1 0 (Standin.anchor "/" "Home") = None
  ∧ extractLinksWithPriority (net := Standin.netURL) page1 "http://a.test/page1" 0
    = Some [ {| link_URL := "http://a.test/page2"; link_Text := "Go to Page 2";
                link_Type := "internal"; link_Context := ""; Priority := 3 |};
             {| link_URL := "https://example.com/external"; link_Text := "External News";
                link_Type := "external"; link_Context := ""; Priority := 3 |} ].
Proof.
  split; [reflexivity|]. split.
  { unfold page1, Standin.pageOf. simpl. set_solver. }
  repeat split; vm_compute; reflexivity.
Qed.

(** Extraction on the page of the first scenario. *)
Lemma link_kept_iff_witness :
  ∃ links,
    extractLinksWithPriority (net := Standin.netURL) page1 "http://a.test/page1" 0 = Some links
    ∧ links = omap (linkOf (net := Standin.netURL) base1 0) (find_a_href page1).
Proof.
  destruct (link_kept_iff (net := Standin.netURL) page1 "http://a.test/page1" base1 0 eq_refl)
    as (links & H1 & H2 & _).
  exists links. split; assumption.
Defined.

(** The external link of that page, extracted at depth 2: 1 + 2 - 1. *)
Lemma link_priority_rule_witness :
  ∃ s href resolvedURL,
    s ∈ find_a_href page1
    ∧ Attr s "href" = Some href
    ∧ URL_Parse (net := Standin.netURL) base1 href = Some resolvedURL
    ∧ "https://example.com/external" = Standin.show resolvedURL
    ∧ "External News" = Strings.TrimSpace (elem_Text s)
    ∧ 2%Z = priorityRule (bool_decide (Standin.u_host resolvedURL = "a.test"))
              (bool_decide (Strings.Contains (Strings.ToLower "External News") "article" = true
                            ∨ Strings.Contains (Strings.ToLower "External News") "news" = true
                            ∨ Strings.Contains (Strings.ToLower "External News") "blog" = true))
              2.
Proof.
  apply (link_priority_rule (net := Standin.netURL) page1 "http://a.test/page1" base1 2
           [ {| link_URL := "http://a.test/page2"; link_Text := "Go to Page 2";
                link_Type := "internal"; link_Context := ""; Priority := 2 |};
             {| link_URL := "https://example.com/external"; link_Text := "External News";
                link_Type := "external"; link_Context := ""; Priority := 2 |} ]
           {| link_URL := "https://example.com/external"; link_Text := "External News";
              link_Type := "external"; link_Context := ""; Priority := 2 |}).
  - reflexivity.
  - vm_compute. reflexivity.
  - set_solver.
Defined.

(** ** A response that is not 200 OK *)

Section ResponseFacts.
Context {U : Type} {net : NetURL U} {pkg : Packages}.

Lemma emitting_keeps_errors (cfg : Config) (m : move) (p p' : pc (U := U)) (s s' : Shared) :
  emitting p → workerStep cfg m p s = Some (p', s') →
  Errors (stats s') = Errors (stats s).
Proof.
  intros Hp Hstep.
  destruct p; try contradiction; destruct m; simpl in Hstep; try discriminate;
    repeat case_match; simplify_eq; try reflexivity.
  unfold trySend. case_match; reflexivity.
Qed.

Lemma other_status_document (ρ : Z → RangeOrder) (now : Z) (resp : Response)
    (rawurl : string) (metadata : URLMetadata) (base : U) :
  url_Parse rawurl = Some base →
  StatusCode resp ≠ StatusOK →
  enhancedFetchAndParse ρ now (Responded resp) rawurl metadata
  = ({| URL := rawurl; Title := ""; Text := ""; CleanText := ""; FetchedAt := now;
        Status := StatusCode resp; ContentHash := "";
        Metadata := {| Domain := ""; Language := ""; WordCount := 0; Author := "";
                       PublishedAt := None; Tags := []; Category := "";
                       Headers := omap head (Header resp);
                       ContentType := Header_Get (Header resp) "Content-Type";
                       Size := ContentLength resp |};
        Chunks := []; Links := []; Media := []; DreamHints := zeroHints |}, [], None).
Proof.
  intros Hb Hst. unfold enhancedFetchAndParse. rewrite Hb.
  destruct (Z.eqb_spec (StatusCode resp) StatusOK) as [He|He]; [contradiction|].
  reflexivity.
Qed.

(** C6: when the response of a fetch has a status outside 200..299,
    enhancedFetchAndParse returns no error, no links, and a document with
    the URL, the reported status, the first value of every response header,
    and no title, text, clean text, chunks, links or media; the worker counts
    the page, sends that document on its output channel and returns to the
    select, and none of its steps after the fetch touches the error
    counter, whatever the other goroutines do in between. *)
Theorem non_2xx_is_emitted_without_error (cfg : Config) (ρ : Z → RangeOrder) (now : Z)
    (resp : Response) (urlMeta : URLWithMetadata) (base : U) (s : Shared) :
  url_Parse (um_URL urlMeta) = Some base →
  ¬ (200 ≤ StatusCode resp < 300)%Z →
  ∃ doc,
    enhancedFetchAndParse ρ now (Responded resp) (um_URL urlMeta) (um_Metadata urlMeta)
      = (doc, [], None)
    ∧ URL doc = um_URL urlMeta
    ∧ Status doc = StatusCode resp
    ∧ (∀ key, Headers (Metadata doc) !! key = (Header resp !! key) ≫= head)
    ∧ Title doc = "" ∧ Text doc = "" ∧ CleanText doc = ""
    ∧ Chunks doc = [] ∧ Links doc = [] ∧ Media doc = []
    ∧ workerStep cfg (Answer (Responded resp) now ρ) (Fetching urlMeta) s
      = Some (Fetched urlMeta doc [], s)
    ∧ (∃ s', workerRun cfg [Next; Next; Next; Next] (Fetched urlMeta doc []) s
             = Some (AtSelect, s')
             ∧ rawOut s' = rawOut s ++ [doc]
             ∧ Errors (stats s') = Errors (stats s)
             ∧ PagesProcessed (stats s') = int_add (PagesProcessed (stats s)) 1
             ∧ urlQueue s' = urlQueue s)
    ∧ (∀ m p p' s1 s1',
         emitting p → workerStep cfg m p s1 = Some (p', s1') →
         Errors (stats s1') = Errors (stats s1)).
Proof.
  intros Hb Hst.
  assert (Hne : StatusCode resp ≠ StatusOK) by (unfold StatusOK; lia).
  eexists. split; [apply (other_status_document _ _ _ _ _ _ Hb Hne)|].
  split_and!; try reflexivity.
  - intros key. simpl. apply lookup_omap.
  - simpl. rewrite (other_status_document _ _ _ _ _ _ Hb Hne). reflexivity.
  - eexists. split; [reflexivity|]. simpl. split_and!; reflexivity.
  - intros m p p' s1 s1'. apply emitting_keeps_errors.
Qed.

End ResponseFacts.

(** A 404 response: the document carries the status and the first value of
    the Content-Type header. *)
Lemma non_2xx_is_emitted_without_error_witness :
  ∃ doc,
    enhancedFetchAndParse (net := Standin.netURL) (pkg := Standin.packages)
      (λ _, listed) 7 Standin.notFound "http://a.test/missing"
      {| depth := 1; parent := "http://a.test/page1"; priority := 3 |} = (doc, [], None)
    ∧ Status doc = 404%Z
    ∧ Headers (Metadata doc) !! "Content-Type" = Some "text/plain".
Proof.
  destruct (non_2xx_is_emitted_without_error (net := Standin.netURL) (pkg := Standin.packages)
              Standin.config (λ _, listed) 7
              {| StatusCode := 404;
                 Header := {[ "Content-Type" := ["text/plain"; "charset=utf-8"] ]};
                 ContentLength := 19; Body := None |}
              {| um_URL := "http://a.test/missing";
                 um_Metadata := {| depth := 1; parent := "http://a.test/page1";
                                   priority := 3 |} |}
              {| Standin.u_scheme := "http"; Standin.u_host := "a.test";
                 Standin.u_path := "/missing" |}
              {| urlQueue := []; seen := ∅; hostMap := ∅; stats := zeroStats;
                 rawOut := []; fetchLog := []; cancelled := false |})
    as (doc & Hdoc & _ & Hstatus & Hheaders & _).
  - reflexivity.
  - simpl. lia.
  - exists doc. split; [exact Hdoc|]. split; [exact Hstatus|].
    rewrite Hheaders. reflexivity.
Defined.

(** ** Keyword extraction *)

Lemma counted_test (w : string) :
  (3 <? String.length w)%nat && negb (bool_decide (w ∈ stopWords)) = true ↔ counted w.
Proof.
  unfold counted. rewrite andb_true_iff, Nat.ltb_lt, negb_true_iff.
  rewrite bool_decide_eq_false. reflexivity.
Qed.

Lemma hits_cons (w t : string) (ws : list string) :
  hits w (t :: ws) = ((if decide (t = w) then 1 else 0) + hits w ws)%nat.
Proof. unfold hits. rewrite filter_cons. destruct (decide (t = w)); reflexivity. Qed.

Lemma hits_pos (w : string) (ws : list string) : (0 < hits w ws)%nat ↔ w ∈ ws.
Proof.
  unfold hits. split.
  - intros Hpos. destruct (filter (λ t, t = w) ws) as [|x xs] eqn:Hf; [simpl in Hpos; lia|].
    assert (Hx : x ∈ filter (λ t, t = w) ws) by (rewrite Hf; left).
    apply list_elem_of_filter in Hx as [-> Hx]. exact Hx.
  - intros Hin.
    assert (Hw : w ∈ filter (λ t, t = w) ws) by (apply list_elem_of_filter; auto).
    destruct (filter (λ t, t = w) ws); [inversion Hw | simpl; lia].
Qed.

(** The first loop, from any map of counts: a counted word gains its number
    of occurrences among the trimmed tokens, every other entry is left. *)
Lemma countWord_fold (ws : list string) (m : gmap string nat) (w : string) :
  foldl countWord m ws !! w =
    let n := hits w ((λ word, Strings.Trim word ".,!?;:") <$> ws) in
    if decide (counted w ∧ (0 < n)%nat)
    then Some (n + default 0 (m !! w))%nat
    else m !! w.
Proof.
  cbv zeta. revert m. induction ws as [|a ws IH]; intros m.
  - simpl. destruct (decide _) as [[_ H0]|_]; [unfold hits in H0; simpl in H0; lia|reflexivity].
  - simpl foldl. rewrite IH. rewrite fmap_cons, hits_cons.
    set (t := Strings.Trim a ".,!?;:").
    set (n := hits w ((λ word, Strings.Trim word ".,!?;:") <$> ws)).
    unfold countWord. fold t.
    destruct ((3 <? String.length t)%nat && negb (bool_decide (t ∈ stopWords))) eqn:Hc.
    + apply counted_test in Hc.
      destruct (decide (t = w)) as [->|Hne].
      * rewrite lookup_insert_eq.
        set (d := default 0 (m !! w)).
        change (default 0 (Some (S d))) with (S d).
        destruct (decide (counted w ∧ (0 < n)%nat)) as [[_ Hn]|Hn];
          destruct (decide (counted w ∧ (0 < 1 + n)%nat)) as [_|Hn']; try reflexivity.
        -- f_equal. lia.
        -- exfalso. apply Hn'. split; [exact Hc|lia].
        -- assert (n = 0%nat) as -> by (destruct n; [reflexivity|exfalso; apply Hn; split; [exact Hc|lia]]).
           reflexivity.
        -- exfalso. apply Hn'. split; [exact Hc|lia].
      * rewrite lookup_insert_ne by exact Hne. simpl. reflexivity.
    + destruct (decide (t = w)) as [->|Hne]; simpl; [|reflexivity].
      assert (Hnc : ¬ counted w).
      { intros Hw. apply counted_test in Hw. rewrite Hw in Hc. discriminate. }
      destruct (decide (counted w ∧ (0 < n)%nat)) as [[? _]|_]; [contradiction|].
      destruct (decide (counted w ∧ (0 < S n)%nat)) as [[? _]|_]; [contradiction|].
      reflexivity.
Qed.

(** The word counts of a text. *)
Lemma wordCounts_lookup (text w : string) :
  wordCounts text !! w =
    if decide (counted w ∧ w ∈ tokens text) then Some (occurrences text w) else None.
Proof.
  unfold wordCounts. rewrite countWord_fold. cbv zeta.
  fold (tokens text). fold (occurrences text w). unfold hits. fold (occurrences text w).
  rewrite lookup_empty. simpl.
  assert (Hpos : (0 < occurrences text w)%nat ↔ w ∈ tokens text) by apply hits_pos.
  destruct (decide (counted w ∧ (0 < occurrences text w)%nat)) as [[Hc Hn]|Hn];
    destruct (decide (counted w ∧ w ∈ tokens text)) as [[Hc' Hin]|Hin]; try reflexivity.
  - f_equal. lia.
  - exfalso. apply Hin. split; [exact Hc|apply Hpos, Hn].
  - exfalso. apply Hn. split; [exact Hc'|apply Hpos, Hin].
Qed.

Lemma collectKeywords_cons (wordCount : gmap string nat) (word : string)
    (rest keywords : list string) :
  collectKeywords wordCount (word :: rest) keywords
  = if (10 <=? length (if (2 <=? default 0 (wordCount !! word))%nat
                          || (6 <? String.length word)%nat
                       then keywords ++ [word] else keywords))%nat
    then (if (2 <=? default 0 (wordCount !! word))%nat || (6 <? String.length word)%nat
          then keywords ++ [word] else keywords)
    else collectKeywords wordCount rest
           (if (2 <=? default 0 (wordCount !! word))%nat || (6 <? String.length word)%nat
            then keywords ++ [word] else keywords).
Proof. reflexivity. Qed.

(** The second loop: the keywords held so far, then the passing words in
    visiting order up to ten keywords in all. *)
Lemma collectKeywords_take (wordCount : gmap string nat) (order keywords : list string) :
  (length keywords < 10)%nat →
  collectKeywords wordCount order keywords
  = keywords ++ take (10 - length keywords) (filter (passes wordCount) order).
Proof.
  revert keywords. induction order as [|word rest IH]; intros keywords Hlen.
  - simpl collectKeywords. rewrite filter_nil, take_nil, app_nil_r. reflexivity.
  - rewrite collectKeywords_cons, filter_cons.
    destruct (decide (passes wordCount word)) as [Hp|Hp].
    + assert (Ht : (2 <=? default 0 (wordCount !! word))%nat
                   || (6 <? String.length word)%nat = true).
      { apply orb_true_iff. unfold passes in Hp.
        rewrite Nat.leb_le, Nat.ltb_lt. exact Hp. }
      rewrite Ht. rewrite length_app. simpl length.
      destruct (Nat.leb_spec 10 (length keywords + 1)) as [Hfull|Hroom].
      * replace (10 - length keywords)%nat with 1%nat by lia. reflexivity.
      * rewrite IH by (rewrite length_app; simpl; lia).
        rewrite length_app. simpl length.
        replace (10 - length keywords)%nat with (S (10 - (length keywords + 1)))%nat by lia.
        simpl. rewrite <- app_assoc. reflexivity.
    + assert (Ht : (2 <=? default 0 (wordCount !! word))%nat
                   || (6 <? String.length word)%nat = false).
      { apply orb_false_iff. unfold passes in Hp.
        rewrite Nat.leb_gt, Nat.ltb_ge. lia. }
      rewrite Ht.
      destruct (Nat.leb_spec 10 (length keywords)) as [Hfull|Hroom]; [lia|].
      apply IH. exact Hlen.
Qed.

(** On the keys of the word counts, passing the test is being kept. *)
Lemma passes_kept (text w : string) :
  is_Some (wordCounts text !! w) → (passes (wordCounts text) w ↔ kept text w).
Proof.
  unfold passes, kept. rewrite !wordCounts_lookup.
  destruct (decide (counted w ∧ w ∈ tokens text)) as [[Hc Hin]|Hn].
  - intros _. simpl. tauto.
  - intros [? [=]].
Qed.

Lemma kept_is_key (text w : string) : kept text w → is_Some (wordCounts text !! w).
Proof.
  intros (Hc & Hin & _). rewrite wordCounts_lookup.
  rewrite decide_True by (split; assumption). eauto.
Qed.

(** C4 (as the code has it): extractKeywords splits the text on whitespace,
    lowercases it and strips the punctuation . , ! ? ; : from both ends of
    each token; it counts the tokens longer than three bytes that are no stop
    words; such a word is kept when it occurs at least twice or is longer
    than six bytes.  The result is the kept words in the order the map of
    counts is visited, cut after ten: no word twice, never more than ten,
    only kept words, and every kept word when there are at most ten. *)
Theorem keywords_are_the_kept_words (ρ : RangeOrder) (text : string) :
  range_order (wordCounts text) (ρ (wordCounts text)) →
  extractKeywords ρ text = take 10 (filter (kept text) (ρ (wordCounts text)))
  ∧ (length (extractKeywords ρ text) ≤ 10)%nat
  ∧ NoDup (extractKeywords ρ text)
  ∧ (∀ w, w ∈ extractKeywords ρ text → kept text w)
  ∧ (∀ w, w ∈ filter (kept text) (ρ (wordCounts text)) ↔ kept text w)
  ∧ ((length (filter (kept text) (ρ (wordCounts text))) ≤ 10)%nat →
     ∀ w, w ∈ extractKeywords ρ text ↔ kept text w).
Proof.
  intros [Hnd Hkeys].
  set (order := ρ (wordCounts text)) in *.
  assert (Hfilter : filter (passes (wordCounts text)) order = filter (kept text) order).
  { clear Hnd. assert (Hall : ∀ w, w ∈ order → is_Some (wordCounts text !! w))
      by (intros w; apply Hkeys).
    clear Hkeys. induction order as [|w rest IH]; [reflexivity|].
    rewrite !filter_cons.
    assert (Hw : passes (wordCounts text) w ↔ kept text w)
      by (apply passes_kept, Hall; left).
    rewrite IH by (intros w' Hw'; apply Hall; right; exact Hw').
    destruct (decide (passes (wordCounts text) w)) as [Hp|Hp];
      destruct (decide (kept text w)) as [Hk|Hk]; try reflexivity; tauto. }
  assert (Heq : extractKeywords ρ text = take 10 (filter (kept text) order)).
  { unfold extractKeywords. fold order.
    rewrite collectKeywords_take by (simpl; lia). simpl. rewrite Hfilter. reflexivity. }
  assert (Hmem : ∀ w, w ∈ filter (kept text) order ↔ kept text w).
  { intros w. rewrite list_elem_of_filter. split; [tauto|].
    intros Hk. split; [exact Hk|]. apply Hkeys, kept_is_key, Hk. }
  split; [exact Heq|]. rewrite Heq. split_and!.
  - rewrite length_take. lia.
  - eapply sublist_NoDup; [|apply sublist_take]. apply NoDup_filter, Hnd.
  - intros w Hw. apply Hmem. eapply subseteq_take, Hw.
  - exact Hmem.
  - intros Hfew w. rewrite take_ge by exact Hfew. apply Hmem.
Qed.

(** Visiting the keys as the map lists them, or in the reverse of that, is
    a way to range over a map. *)
Lemma listed_valid : valid_order listed.
Proof.
  intros m. split; [apply NoDup_fst_map_to_list|].
  intros w. unfold listed. rewrite list_elem_of_fmap. split.
  - intros ([k v] & -> & Hkv). apply elem_of_map_to_list in Hkv. simpl. eauto.
  - intros [v Hv]. exists (w, v). split; [reflexivity|]. apply elem_of_map_to_list, Hv.
Qed.

Lemma reversed_valid : valid_order reversed.
Proof.
  intros m. destruct (listed_valid m) as [Hnd Hkeys]. split.
  - unfold reversed. rewrite reverse_Permutation. exact Hnd.
  - intros w. unfold reversed. rewrite elem_of_reverse. apply Hkeys.
Qed.

(** C4, counterexample: "cat" is no stop word and occurs twice in the text,
    and it is no keyword, in whatever order the counts are visited: the map
    of counts is empty, because the word has only three bytes. *)
Lemma short_repeated_word_is_dropped :
  tokens "cat cat" = ["cat"; "cat"]
  ∧ ("cat" ∉ stopWords)
  ∧ occurrences "cat cat" "cat" = 2%nat
  ∧ wordCounts "cat cat" = ∅
  ∧ extractKeywords listed "cat cat" = []
  ∧ extractKeywords reversed "cat cat" = [].
Proof.
  split; [reflexivity|]. split.
  { apply (bool_decide_eq_false_1 _). vm_compute. reflexivity. }
  repeat split; vm_compute; reflexivity.
Qed.

(** The keywords of a sentence, its counts visited as the map lists them. *)
Lemma keywords_are_the_kept_words_witness :
  extractKeywords listed "The elephants, the giraffes and the cats; cats sleep."
  = take 10 (filter (kept "The elephants, the giraffes and the cats; cats sleep.")
               (listed (wordCounts "The elephants, the giraffes and the cats; cats sleep.")))
  ∧ (length (extractKeywords listed
               "The elephants, the giraffes and the cats; cats sleep.") ≤ 10)%nat.
Proof.
  destruct (keywords_are_the_kept_words listed
              "The elephants, the giraffes and the cats; cats sleep."
              (listed_valid _)) as (H1 & H2 & _).
  split; assumption.
Defined.

(** On the same text, two admissible visiting orders of the map of word
    counts give the keywords in different orders. *)
Lemma keywords_follow_the_visiting_order :
  range_order (wordCounts "elephant giraffes") (listed (wordCounts "elephant giraffes"))
  ∧ range_order (wordCounts "elephant giraffes") (reversed (wordCounts "elephant giraffes"))
  ∧ extractKeywords listed "elephant giraffes" = ["giraffes"; "elephant"]
  ∧ extractKeywords reversed "elephant giraffes" = ["elephant"; "giraffes"].
Proof.
  split; [apply listed_valid|]. split; [apply reversed_valid|].
  split; vm_compute; reflexivity.
Qed.

(** ** The worker pool: URL dedupe *)

Section PoolFacts.
Context {U : Type} {net : NetURL U} {pkg : Packages}.

(** An invariant of the pool: it holds initially and every action keeps
    it, so it holds in every reachable state. *)
Lemma reachable_invariant (cfg : Config) (nworkers : nat) (seedURLs : list string)
    (I : System (U := U) → Prop) :
  I (initial nworkers seedURLs) →
  (∀ a σ σ', I σ → act cfg a σ = Some σ' → I σ') →
  ∀ σ, reachable cfg nworkers seedURLs σ → I σ.
Proof.
  intros Hinit Hstep σ Hreach. induction Hreach as [|σ σ' _ IH [a Ha]].
  - exact Hinit.
  - eapply Hstep; eauto.
Qed.

Lemma run_reachable (cfg : Config) (nworkers : nat) (seedURLs : list string)
    (trace : list action) (σ σ' : System (U := U)) :
  reachable cfg nworkers seedURLs σ → run cfg trace σ = Some σ' →
  reachable cfg nworkers seedURLs σ'.
Proof.
  revert σ. induction trace as [|a rest IH]; intros σ Hreach Hrun; simpl in Hrun.
  - injection Hrun as <-. exact Hreach.
  - destruct (act cfg a σ) as [σ1|] eqn:Ha; [|discriminate].
    apply (IH σ1); [|exact Hrun]. eapply reach_step; [exact Hreach|]. exists a. exact Ha.
Qed.

(** What an action of a worker is made of. *)
Lemma act_Work (cfg : Config) (id : nat) (m : move) (σ σ' : System (U := U)) :
  act cfg (Work id m) σ = Some σ' →
  ∃ p p' s',
    workers σ !! id = Some p
    ∧ workerStep cfg m p (shared σ) = Some (p', s')
    ∧ σ' = {| shared := s'; workers := <[id := p']> (workers σ); seeds := seeds σ |}.
Proof.
  simpl. intros Hact.
  destruct (workers σ !! id) as [p|]; [|discriminate].
  destruct (workerStep cfg m p (shared σ)) as [[p' s']|] eqn:Hstep; [|discriminate].
  injection Hact as <-. exists p, p', s'. auto.
Qed.

(** The effect of a worker's step on its claim: nothing; a fresh URL
    claimed; a claim given up; or the claimed URL moved to the fetch log. *)
Lemma claim_effects (cfg : Config) (m : move) (p p' : pc (U := U)) (s s' : Shared) :
  workerStep cfg m p s = Some (p', s') →
  seen s ⊆ seen s'
  ∧ ((pendingURL p' = pendingURL p ∧ fetchLog s' = fetchLog s)
     ∨ (pendingURL p = None ∧ fetchLog s' = fetchLog s
        ∧ ∃ u, pendingURL p' = Some u ∧ (u ∉ seen s) ∧ (u ∈ seen s'))
     ∨ (pendingURL p' = None ∧ fetchLog s' = fetchLog s)
     ∨ (∃ urlMeta, pendingURL p = Some (um_URL urlMeta) ∧ pendingURL p' = None
                   ∧ fetchLog s' = fetchLog s ++ [urlMeta])).
Proof.
  intros Hstep.
  destruct p; destruct m; simpl in Hstep; try discriminate;
    repeat case_match; simplify_eq; simpl; unfold trySend; repeat case_match; simpl;
    (split; [try set_solver|]);
    try (left; split; reflexivity);
    try (right; right; left; split; reflexivity).
  - right; left. split; [reflexivity|]. split; [reflexivity|].
    eexists. split; [reflexivity|].
    match goal with H : bool_decide _ = false |- _ => apply bool_decide_eq_false in H end.
    split; [assumption|set_solver].
  - right; right; right. eexists. repeat split; reflexivity.
Qed.

Lemma omap_cons_list {A B} (f : A → option B) (x : A) (l : list A) :
  omap f (x :: l) = option_list (f x) ++ omap f l.
Proof. simpl. destruct (f x); reflexivity. Qed.

(** The claims of the pool, with the claim of worker [id] put first. *)
Lemma omap_worker {B} (f : pc (U := U) → option B) (ws : list (pc (U := U))) (id : nat) (p p' : pc (U := U)) :
  ws !! id = Some p →
  omap f ws ≡ₚ option_list (f p) ++ omap f (take id ws ++ drop (S id) ws)
  ∧ omap f (<[id := p']> ws) ≡ₚ option_list (f p') ++ omap f (take id ws ++ drop (S id) ws).
Proof.
  intros Hid. split.
  - rewrite <- (take_drop_middle ws id p Hid) at 1.
    rewrite !omap_app, omap_cons_list.
    rewrite (Permutation_app_swap_app (omap f (take id ws))). reflexivity.
  - rewrite insert_take_drop by (eapply lookup_lt_Some; eauto).
    rewrite !omap_app, omap_cons_list.
    rewrite (Permutation_app_swap_app (omap f (take id ws))). reflexivity.
Qed.

Lemma dedupe_inv_step (cfg : Config) (a : action) (σ σ' : System (U := U)) :
  dedupe_inv σ → act cfg a σ = Some σ' → dedupe_inv σ'.
Proof.
  intros [Hnd Hseen] Hact. destruct a as [| |host data|id m].
  - simpl in Hact. repeat case_match; simplify_eq. split; assumption.
  - simpl in Hact. simplify_eq. split; assumption.
  - simpl in Hact. repeat case_match; simplify_eq. split; assumption.
  - apply act_Work in Hact as (p & p' & s' & Hid & Hstep & ->).
    apply claim_effects in Hstep as [Hsub Heff].
    destruct (omap_worker pendingURL (workers σ) id p p' Hid) as [Hold Hnew].
    set (others := omap pendingURL (take id (workers σ) ++ drop (S id) (workers σ))) in *.
    unfold dedupe_inv, claimedURLs in *. simpl.
    rewrite Hold in Hnd. setoid_rewrite Hold in Hseen. rewrite Hnew. setoid_rewrite Hnew.
    clear Hold Hnew Hid.
    destruct Heff as [[-> ->] | [(Hp & -> & u & -> & Hfresh & Hin)
                      | [[-> ->] | (urlMeta & Hp & -> & ->)]]].
    + split; [exact Hnd|]. intros u Hu. apply Hsub, Hseen, Hu.
    + rewrite Hp in *. simpl in *. split.
      * rewrite (Permutation_app_comm _ (u :: others)). simpl.
        apply NoDup_cons. split.
        -- intros Hu. apply Hfresh, Hseen. set_solver.
        -- rewrite (Permutation_app_comm others). exact Hnd.
      * intros v Hv. apply elem_of_app in Hv as [Hv|Hv].
        -- apply Hsub, Hseen. set_solver.
        -- apply elem_of_cons in Hv as [->|Hv]; [exact Hin|].
           apply Hsub, Hseen. set_solver.
    + simpl. split.
      * apply NoDup_app in Hnd as (Hl & Hdisj & Hr). apply NoDup_app.
        split; [exact Hl|]. split.
        -- intros x Hx Hx'. apply (Hdisj x Hx). set_solver.
        -- apply NoDup_app in Hr as (_ & _ & Hr). exact Hr.
      * intros v Hv. apply Hsub, Hseen. set_solver.
    + rewrite Hp in *. simpl in *. rewrite fmap_app. simpl. split.
      * rewrite <- app_assoc. simpl. exact Hnd.
      * intros v Hv. apply Hsub, Hseen. set_solver.
Qed.

Lemma dedupe_inv_initial (nworkers : nat) (seedURLs : list string) :
  dedupe_inv (U := U) (initial nworkers seedURLs).
Proof.
  unfold dedupe_inv, claimedURLs. simpl.
  assert (Hnone : omap pendingURL (replicate nworkers (AtSelect (U := U))) = []).
  { induction nworkers as [|n IH]; [reflexivity|]. simpl. exact IH. }
  rewrite Hnone. split; [constructor|]. intros u Hu. inversion Hu.
Qed.

(** C7: in every reachable state of the pool no URL occurs twice among the
    fetches, however often it stood in the frontier; a worker that finds the
    dequeued URL in the seen set goes back to the select without touching
    anything, and the first one to claim it enters it into the set. *)
Theorem each_url_fetched_at_most_once (cfg : Config) (nworkers : nat)
    (seedURLs : list string) (σ : System (U := U)) :
  reachable cfg nworkers seedURLs σ →
  NoDup (um_URL <$> fetchLog (shared σ))
  ∧ (∀ urlMeta, urlMeta ∈ fetchLog (shared σ) → um_URL urlMeta ∈ seen (shared σ))
  ∧ (∀ urlMeta, um_URL urlMeta ∈ seen (shared σ) →
       workerStep (U := U) cfg Next (Received urlMeta) (shared σ)
       = Some (AtSelect, shared σ))
  ∧ (∀ urlMeta, um_URL urlMeta ≠ "" → um_URL urlMeta ∉ seen (shared σ) →
       workerStep (U := U) cfg Next (Received urlMeta) (shared σ)
       = Some (Claimed urlMeta,
               with_seen ({[ um_URL urlMeta ]} ∪ seen (shared σ)) (shared σ))).
Proof.
  intros Hreach.
  assert (Hinv : dedupe_inv σ).
  { revert σ Hreach. apply reachable_invariant.
    - apply dedupe_inv_initial.
    - intros a σ σ'. apply dedupe_inv_step. }
  destruct Hinv as [Hnd Hseen]. unfold claimedURLs in *. split_and!.
  - apply NoDup_app in Hnd as (Hl & _ & _). exact Hl.
  - intros urlMeta Hin. apply Hseen, elem_of_app. left.
    apply list_elem_of_fmap. exists urlMeta. auto.
  - intros urlMeta Hin. simpl.
    destruct (String.eqb (um_URL urlMeta) ""); [reflexivity|].
    rewrite bool_decide_eq_true_2 by exact Hin. reflexivity.
  - intros urlMeta Hne Hout. simpl.
    destruct (String.eqb_spec (um_URL urlMeta) "") as [He|_]; [contradiction|].
    rewrite bool_decide_eq_false_2 by exact Hout. reflexivity.
Qed.

(** ** The worker pool: depth bound *)

Lemma wrap64_range (z : Z) : (- 2 ^ 63 ≤ wrap64 z < 2 ^ 63)%Z.
Proof.
  unfold wrap64. pose proof (Z.mod_pos_bound (z + 2 ^ 63) (2 ^ 64) ltac:(lia)). lia.
Qed.

Lemma bornFrom_mono (log extra : list URLWithMetadata) (e : URLWithMetadata) :
  bornFrom log e → bornFrom (log ++ extra) e.
Proof.
  intros [H0|(p & Hp & Hpar & Hd)]; [left; exact H0|].
  right. exists p. split; [apply elem_of_app; left; exact Hp|]. auto.
Qed.

Lemma queue_ok_mono (log extra q : list URLWithMetadata) :
  queue_ok log q → queue_ok (log ++ extra) q.
Proof.
  intros Hq. eapply Forall_impl; [exact Hq|].
  intros e [Hr Hb]. split; [exact Hr|apply bornFrom_mono, Hb].
Qed.

Lemma worker_ok_mono (cfg : Config) (log extra : list URLWithMetadata) (p : pc (U := U)) :
  worker_ok cfg log p → worker_ok cfg (log ++ extra) p.
Proof.
  intros Hok urlMeta Hh. destruct (Hok urlMeta Hh) as (Hr & Hd & Hf).
  split; [exact Hr|]. split; [exact Hd|].
  intros Hp. apply elem_of_app. left. apply Hf, Hp.
Qed.

(** A worker's step keeps the three parts of the invariant; the fetch
    log only grows. *)
Lemma depth_effects (cfg : Config) (m : move) (p p' : pc (U := U)) (s s' : Shared) :
  workerStep cfg m p s = Some (p', s') →
  log_ok cfg (fetchLog s) → queue_ok (fetchLog s) (urlQueue s) →
  worker_ok cfg (fetchLog s) p →
  ∃ extra,
    fetchLog s' = fetchLog s ++ extra
    ∧ log_ok cfg (fetchLog s')
    ∧ queue_ok (fetchLog s') (urlQueue s')
    ∧ worker_ok cfg (fetchLog s') p'.
Proof.
  intros Hstep Hlog Hq Hw.
  assert (Hsame : ∀ p'', (∀ u, holds p'' = Some u → holds p = Some u) →
            (pastDepthTest p'' → pastDepthTest p) → (pastFetch p'' → pastFetch p) →
            worker_ok (U := U) cfg (fetchLog s) p'').
  { intros p'' Hh Hd Hf urlMeta Hu. destruct (Hw urlMeta (Hh _ Hu)) as (? & ? & ?).
    split; [assumption|]. split; auto. }
  assert (Hidle : ∀ log, worker_ok (U := U) cfg log AtSelect) by (intros log um0 [=]).
  destruct p; destruct m; simpl in Hstep; try discriminate.
  - (* the select: an entry is received *)
    destruct (urlQueue s) as [|e q] eqn:Hqs; simplify_eq. simpl.
    exists []. rewrite app_nil_r. apply Forall_cons in Hq as [[Hr Hb] Hq].
    split_and!; auto. intros um0 [= <-]. split; [exact Hr|]. split; intros [].
  - (* the select: ctx.Done *)
    case_match; simplify_eq. exists []. rewrite app_nil_r.
    split_and!; auto.
  - (* LoadOrStore *)
    repeat case_match; simplify_eq; simpl; exists []; rewrite app_nil_r;
      split_and!; auto; try (apply Hsame; auto).
  - (* depth test, url.Parse, whitelist, host policies *)
    repeat case_match; simplify_eq; simpl; exists []; rewrite app_nil_r;
      split_and!; auto;
      intros um0 [= <-]; destruct (Hw urlMeta eq_refl) as (Hr & _ & _);
      (split; [exact Hr|]); (split; [|intros []]); intros _;
      match goal with
      | H : (_ >? _)%Z = false |- _ => rewrite Z.gtb_ltb in H; apply Z.ltb_ge in H
      end; lia.
  - (* robots *)
    repeat case_match; simplify_eq; simpl; exists []; rewrite app_nil_r;
      split_and!; auto; try (apply Hsame; auto).
  - (* lim.Wait returned nil: the fetch is logged *)
    simplify_eq. simpl. exists [urlMeta]. destruct (Hw urlMeta eq_refl) as (Hr & Hd & _).
    split_and!; auto.
    + apply Forall_app. split; [exact Hlog|]. apply Forall_singleton.
      split; [apply Hd; exact I|exact Hr].
    + apply queue_ok_mono, Hq.
    + intros um0 [= <-]. split; [exact Hr|]. split; [intros []|].
      intros _. apply elem_of_app. right. left.
  - (* lim.Wait failed *)
    case_match; simplify_eq. exists []. rewrite app_nil_r. split_and!; auto.
  - (* client.Do returned *)
    repeat case_match; simplify_eq; simpl; exists []; rewrite app_nil_r;
      split_and!; auto.
  - (* IncrementPages *)
    simplify_eq. simpl. exists []. rewrite app_nil_r.
    split_and!; auto; try (apply Hsame; auto).
  - (* AddBytes *)
    simplify_eq. simpl. exists []. rewrite app_nil_r.
    split_and!; auto; try (apply Hsame; auto).
  - (* out <- doc *)
    simplify_eq. simpl. exists []. rewrite app_nil_r.
    split_and!; auto; try (apply Hsame; auto).
  - (* the links *)
    destruct (Hw urlMeta eq_refl) as (Hr & _ & Hf).
    assert (Hnext : ∀ rest, worker_ok (U := U) cfg (fetchLog s) (Queueing urlMeta rest)).
    { intros rest u [= <-]. split; [exact Hr|]. split; [intros []|]. intros _. apply Hf. exact I. }
    destruct newLinks as [|link rest]; simplify_eq.
    + exists []. rewrite app_nil_r. split_and!; auto.
    + case_match; simplify_eq; exists []; rewrite app_nil_r; [|split_and!; auto].
      unfold trySend. case_match; simpl; split_and!; auto.
      apply Forall_app. split; [exact Hq|]. apply Forall_singleton. split.
      * unfold intRange, childEntry. simpl. apply wrap64_range.
      * right. exists urlMeta. split; [apply Hf; exact I|]. split; reflexivity.
  - destruct newLinks; discriminate.
  - destruct newLinks; discriminate.
Qed.

Lemma depth_inv_step (cfg : Config) (a : action) (σ σ' : System (U := U)) :
  depth_inv cfg σ → act cfg a σ = Some σ' → depth_inv cfg σ'.
Proof.
  intros (Hlog & Hq & Hws) Hact. destruct a as [| |host data|id m].
  - simpl in Hact. repeat case_match; simplify_eq. split_and!; simpl; auto.
    apply Forall_app. split; [exact Hq|]. apply Forall_singleton.
    split; [unfold intRange; simpl; lia|left; reflexivity].
  - simpl in Hact. simplify_eq. split_and!; assumption.
  - simpl in Hact. repeat case_match; simplify_eq. split_and!; assumption.
  - apply act_Work in Hact as (p & p' & s' & Hid & Hstep & ->).
    destruct (depth_effects cfg m p p' (shared σ) s' Hstep Hlog Hq
                (Forall_lookup_1 _ _ _ _ Hws Hid)) as (extra & Hext & Hlog' & Hq' & Hp').
    split_and!; simpl; auto.
    apply Forall_insert; [|exact Hp'].
    rewrite Hext. eapply Forall_impl; [exact Hws|].
    intros q. apply worker_ok_mono.
Qed.

Lemma depth_inv_initial (cfg : Config) (nworkers : nat) (seedURLs : list string) :
  depth_inv (U := U) cfg (initial nworkers seedURLs).
Proof.
  split_and!; simpl; try constructor.
  apply Forall_replicate. intros u [=].
Qed.

End PoolFacts.

(** ** A run of the pool

    Two workers, max-depth 1, the same seed given twice: the site of the
    depth-cutoff scenario, with a robots.txt that arrives while the first
    page is on its way. *)

Lemma demoState_reachable :
  reachable (net := Standin.netURL) (pkg := Standin.packages) Standin.config 2 demoSeeds
    demoState.
Proof.
  apply (run_reachable (net := Standin.netURL) (pkg := Standin.packages)
           Standin.config 2 demoSeeds demoTrace (initial 2 demoSeeds)).
  - apply reach_initial.
  - vm_compute. reflexivity.
Qed.

(** The fetches of the run, and what is left in the frontier: the page at
    depth 2 was claimed and skipped, and the link back to the first page
    waits at depth 2. *)
Lemma demoState_fetches :
  (λ e, (um_URL e, depth (um_Metadata e))) <$> fetchLog (shared demoState)
  = [("http://a.test/page1", 0%Z); ("http://a.test/page2", 1%Z)]
  ∧ (λ e, (um_URL e, depth (um_Metadata e), parent (um_Metadata e)))
      <$> urlQueue (shared demoState)
    = [("http://a.test/page1", 2%Z, "http://a.test/page2")]
  ∧ URL <$> rawOut (shared demoState) = ["http://a.test/page1"; "http://a.test/page2"]
  ∧ PagesProcessed (stats (shared demoState)) = 2%Z
  ∧ Errors (stats (shared demoState)) = 0%Z.
Proof. repeat split; vm_compute; reflexivity. Qed.

(** The fetches of the run are of distinct URLs, all in the seen set. *)
Lemma each_url_fetched_at_most_once_witness :
  NoDup (um_URL <$> fetchLog (shared demoState))
  ∧ (∀ urlMeta, urlMeta ∈ fetchLog (shared demoState) →
       um_URL urlMeta ∈ seen (shared demoState)).
Proof.
  destruct (each_url_fetched_at_most_once (net := Standin.netURL) (pkg := Standin.packages)
              Standin.config 2 demoSeeds demoState demoState_reachable)
    as (Hnd & Hseen & _).
  split; assumption.
Defined.

(** ** Determinism of the annotation *)

Section AnnotationFacts.
Context {U : Type} {net : NetURL U} {pkg : Packages}.

Lemma chunk_fold_sameButKeywords
    (f1 f2 : list ContentChunk * Z → Element → list ContentChunk * Z)
    (sel : list Element) (st1 st2 : list ContentChunk * Z) :
  (∀ a b s, sameButKeywords a b → sameButKeywords (f1 a s) (f2 b s)) →
  sameButKeywords st1 st2 →
  sameButKeywords (foldl f1 st1 sel) (foldl f2 st2 sel).
Proof.
  intros Hf. revert st1 st2. induction sel as [|s sel IH]; intros st1 st2 Hst.
  - exact Hst.
  - simpl. apply IH, Hf, Hst.
Qed.

Lemma headlineChunk_sameButKeywords (ρ1 ρ2 : Z → RangeOrder) a b s :
  sameButKeywords a b → sameButKeywords (headlineChunk ρ1 a s) (headlineChunk ρ2 b s).
Proof.
  destruct a as [c1 n1], b as [c2 n2]. intros [Hc Hn]. simpl in Hc, Hn. subst n2.
  unfold headlineChunk. case_match; [|split; [exact Hc|reflexivity]].
  split; simpl; [|reflexivity]. rewrite !fmap_app, Hc. reflexivity.
Qed.

Lemma paragraphChunk_sameButKeywords (ρ1 ρ2 : Z → RangeOrder) a b s :
  sameButKeywords a b → sameButKeywords (paragraphChunk ρ1 a s) (paragraphChunk ρ2 b s).
Proof.
  destruct a as [c1 n1], b as [c2 n2]. intros [Hc Hn]. simpl in Hc, Hn. subst n2.
  unfold paragraphChunk. case_match; [|split; [exact Hc|reflexivity]].
  split; simpl; [|reflexivity]. rewrite !fmap_app, Hc. reflexivity.
Qed.

Lemma quoteChunk_sameButKeywords (ρ1 ρ2 : Z → RangeOrder) a b s :
  sameButKeywords a b → sameButKeywords (quoteChunk ρ1 a s) (quoteChunk ρ2 b s).
Proof.
  destruct a as [c1 n1], b as [c2 n2]. intros [Hc Hn]. simpl in Hc, Hn. subst n2.
  unfold quoteChunk. case_match; [|split; [exact Hc|reflexivity]].
  split; simpl; [|reflexivity]. rewrite !fmap_app, Hc. reflexivity.
Qed.

(** Two runs of the chunk extraction agree on everything but the keyword
    lists. *)
Lemma chunks_agree_but_keywords (ρ1 ρ2 : Z → RangeOrder) (doc : Page) (clean : string) :
  withoutKeywords <$> extractContentChunks ρ1 doc clean
  = withoutKeywords <$> extractContentChunks ρ2 doc clean.
Proof.
  unfold extractContentChunks.
  apply chunk_fold_sameButKeywords; [apply quoteChunk_sameButKeywords|].
  apply chunk_fold_sameButKeywords; [apply paragraphChunk_sameButKeywords|].
  apply chunk_fold_sameButKeywords; [apply headlineChunk_sameButKeywords|].
  split; reflexivity.
Qed.

(** The dream hints read the chunks only through their number. *)
Lemma generateDreamHints_chunks (doc1 doc2 : Document) :
  CleanText doc1 = CleanText doc2 → Title doc1 = Title doc2 →
  WordCount (Metadata doc1) = WordCount (Metadata doc2) →
  length (Chunks doc1) = length (Chunks doc2) →
  length (Media doc1) = length (Media doc2) →
  generateDreamHints doc1 = generateDreamHints doc2.
Proof.
  intros Hc Ht Hw Hn Hm.
  unfold generateDreamHints, calculateComplexity, calculateSurrealismPotential.
  simpl. rewrite Hc, Ht, Hw, Hn, Hm. reflexivity.
Qed.

(** Two runs of enhancedFetchAndParse on the same response differ at most in
    the keyword lists of the chunks: the error, the links, the dream hints
    and every other field of the document are the same. *)
Lemma runs_agree_but_keywords (ρ1 ρ2 : Z → RangeOrder) (now : Z) (outcome : FetchOutcome)
    (rawurl : string) (metadata : URLMetadata) :
  let run1 := enhancedFetchAndParse ρ1 now outcome rawurl metadata in
  let run2 := enhancedFetchAndParse ρ2 now outcome rawurl metadata in
  snd run1 = snd run2
  ∧ snd (fst run1) = snd (fst run2)
  ∧ DreamHints (fst (fst run1)) = DreamHints (fst (fst run2))
  ∧ withoutKeywords <$> Chunks (fst (fst run1)) = withoutKeywords <$> Chunks (fst (fst run2))
  ∧ CleanText (fst (fst run1)) = CleanText (fst (fst run2))
  ∧ Metadata (fst (fst run1)) = Metadata (fst (fst run2))
  ∧ Media (fst (fst run1)) = Media (fst (fst run2)).
Proof.
  cbv zeta. unfold enhancedFetchAndParse.
  destruct (url_Parse rawurl) as [base|]; [|repeat split].
  destruct outcome as [|resp]; [repeat split|].
  destruct (negb (StatusCode resp =? StatusOK)%Z); [repeat split|].
  destruct (Body resp) as [gqDoc|]; [|repeat split].
  simpl. split_and!; try reflexivity.
  - apply generateDreamHints_chunks; try reflexivity. simpl.
    rewrite <- (length_fmap withoutKeywords (extractContentChunks ρ1 _ _)).
    rewrite <- (length_fmap withoutKeywords (extractContentChunks ρ2 _ _)).
    f_equal. apply chunks_agree_but_keywords.
  - apply chunks_agree_but_keywords.
Qed.

End AnnotationFacts.

(** C3: two runs of the parse-and-annotate stage on the same response and
    the same base URL, which differ only in the order in which the keyword
    loop visits its map of counts, produce different keyword lists for the
    same chunk. *)
Lemma parse_runs_differ_in_keywords :
  Keywords <$> Chunks (fst (fst (enhancedFetchAndParse
      (net := Standin.netURL) (pkg := Standin.packages)
      (λ _, listed) 0 (Standin.ok zooPage) "http://a.test/zoo"
      {| depth := 0; parent := ""; priority := 10 |})))
  = [["giraffes"; "elephant"; "quietly"]]
  ∧ Keywords <$> Chunks (fst (fst (enhancedFetchAndParse
      (net := Standin.netURL) (pkg := Standin.packages)
      (λ _, reversed) 0 (Standin.ok zooPage) "http://a.test/zoo"
      {| depth := 0; parent := ""; priority := 10 |})))
    = [["quietly"; "elephant"; "giraffes"]]
  ∧ valid_order listed ∧ valid_order reversed.
Proof.
  split; [vm_compute; reflexivity|]. split; [vm_compute; reflexivity|].
  split; [apply listed_valid|apply reversed_valid].
Qed.

(** * Further properties of the crawler *)

(** ** Strings *)

Lemma append_cons (c : ascii) (a b : string) : String c a +:+ b = String c (a +:+ b).
Proof. reflexivity. Qed.

Lemma append_nil_r (a : string) : a +:+ "" = a.
Proof. induction a as [|c a IH]; [reflexivity|]. rewrite append_cons, IH. reflexivity. Qed.

Lemma append_assoc (a b c : string) : (a +:+ b) +:+ c = a +:+ (b +:+ c).
Proof.
  induction a as [|x a IH]; [reflexivity|]. rewrite !append_cons, IH. reflexivity.
Qed.

Lemma TrimLeftFunc_head (f : ascii → bool) (s : string) :
  Strings.TrimLeftFunc f s = ""
  ∨ ∃ c s', Strings.TrimLeftFunc f s = String c s' ∧ f c = false.
Proof.
  induction s as [|c s IH]; [left; reflexivity|]. simpl.
  destruct (f c) eqn:Hc; [exact IH|]. right. exists c, s. auto.
Qed.

Lemma TrimRightFunc_cons (f : ascii → bool) (c : ascii) (s : string) :
  f c = false → Strings.TrimRightFunc f (String c s) = String c (Strings.TrimRightFunc f s).
Proof. intros Hc. simpl. rewrite Hc. destruct (Strings.TrimRightFunc f s); reflexivity. Qed.

Lemma TrimRightFunc_idem (f : ascii → bool) (s : string) :
  Strings.TrimRightFunc f (Strings.TrimRightFunc f s) = Strings.TrimRightFunc f s.
Proof.
  induction s as [|c s IH]; [reflexivity|]. simpl.
  destruct (Strings.TrimRightFunc f s) as [|d t] eqn:Ht.
  - destruct (f c) eqn:Hc; [reflexivity|]. simpl. rewrite Hc. reflexivity.
  - change (Strings.TrimRightFunc f (String c (String d t)))
      with (match Strings.TrimRightFunc f (String d t) with
            | EmptyString => if f c then EmptyString else String c EmptyString
            | u => String c u
            end).
    rewrite IH. reflexivity.
Qed.

(** Trimming at both ends a second time changes nothing. *)
Lemma Trim_both_idem (f : ascii → bool) (s : string) :
  Strings.TrimRightFunc f (Strings.TrimLeftFunc f
    (Strings.TrimRightFunc f (Strings.TrimLeftFunc f s)))
  = Strings.TrimRightFunc f (Strings.TrimLeftFunc f s).
Proof.
  destruct (TrimLeftFunc_head f s) as [->|(c & s' & -> & Hc)]; [reflexivity|].
  rewrite (TrimRightFunc_cons f c s' Hc).
  assert (Hl : Strings.TrimLeftFunc f (String c (Strings.TrimRightFunc f s'))
               = String c (Strings.TrimRightFunc f s')) by (simpl; rewrite Hc; reflexivity).
  rewrite Hl, (TrimRightFunc_cons f c _ Hc), TrimRightFunc_idem. reflexivity.
Qed.

Lemma TrimSpace_idem (s : string) :
  Strings.TrimSpace (Strings.TrimSpace s) = Strings.TrimSpace s.
Proof. apply Trim_both_idem. Qed.

Lemma TrimLeftFunc_Forall (P : ascii → Prop) (f : ascii → bool) (s : string) :
  Forall P (list_ascii_of_string s) →
  Forall P (list_ascii_of_string (Strings.TrimLeftFunc f s)).
Proof.
  induction s as [|c s IH]; [auto|]. simpl. intros Hall.
  destruct (f c); [apply IH; inversion Hall; assumption|exact Hall].
Qed.

Lemma TrimRightFunc_Forall (P : ascii → Prop) (f : ascii → bool) (s : string) :
  Forall P (list_ascii_of_string s) →
  Forall P (list_ascii_of_string (Strings.TrimRightFunc f s)).
Proof.
  induction s as [|c s IH]; [auto|]. simpl. intros Hall.
  inversion Hall as [|? ? Hc Hs]; subst. specialize (IH Hs).
  destruct (Strings.TrimRightFunc f s) as [|d t].
  - destruct (f c); [constructor|]. simpl. constructor; [exact Hc|constructor].
  - simpl. constructor; [exact Hc|exact IH].
Qed.

(** ** Cleaning of the extracted text *)

Lemma collapseSpace_spaces (inRun : bool) (s : string) :
  Forall (λ c, re_space c = true → c = " "%char)
    (list_ascii_of_string (collapseSpace inRun s)).
Proof.
  revert inRun. induction s as [|c s IH]; intros inRun; [constructor|]. simpl.
  destruct (re_space c) eqn:Hc.
  - destruct inRun; [apply IH|]. simpl. constructor; [reflexivity|apply IH].
  - simpl. constructor; [|apply IH]. rewrite Hc. discriminate.
Qed.

Lemma keepBytes_Forall (P : ascii → Prop) (s : string) :
  Forall P (list_ascii_of_string s) →
  Forall (λ c, keptByte c = true ∧ P c) (list_ascii_of_string (keepBytes s)).
Proof.
  induction s as [|c s IH]; [constructor|]. simpl. intros Hall.
  inversion Hall as [|? ? Hc Hs]; subst.
  destruct (keptByte c) eqn:Hk; [|apply IH, Hs].
  simpl. constructor; [split; assumption|apply IH, Hs].
Qed.

(** X1: Every byte of a cleaned text is a letter, a digit, an underscore, one of
    the punctuation marks the second pattern keeps, or a space (no other
    whitespace survives), and the text neither begins nor ends with
    whitespace: trimming it again changes nothing. *)
Theorem cleanText_alphabet (text : string) :
  Forall (λ c, keptByte c = true ∧ (re_space c = true → c = " "%char))
    (list_ascii_of_string (cleanText text))
  ∧ Strings.TrimSpace (cleanText text) = cleanText text.
Proof.
  split; [|apply TrimSpace_idem].
  unfold cleanText, Strings.TrimSpace.
  apply TrimRightFunc_Forall, TrimLeftFunc_Forall, keepBytes_Forall, collapseSpace_spaces.
Qed.

(** ** File extensions *)

Lemma split_go_nonempty (sep : ascii) (cur s : string) : Strings.split_go sep cur s ≠ [].
Proof.
  revert cur. induction s as [|c s IH]; intros cur; simpl; [discriminate|].
  destruct (Ascii.eqb c sep); [discriminate|apply IH].
Qed.

Lemma split_go_no_sep (sep : ascii) (cur s : string) :
  Strings.mem sep s = false → Strings.split_go sep cur s = [cur +:+ s].
Proof.
  revert cur. induction s as [|c s IH]; intros cur Hm; simpl.
  - rewrite append_nil_r. reflexivity.
  - simpl in Hm. apply orb_false_iff in Hm as [Hc Hs].
    rewrite Ascii.eqb_sym, Hc. rewrite (IH _ Hs), append_assoc. reflexivity.
Qed.

Lemma split_go_last_clean (sep : ascii) (cur s : string) :
  Strings.mem sep cur = false →
  Strings.mem sep (List.last (Strings.split_go sep cur s) "") = false.
Proof.
  revert cur. induction s as [|c s IH]; intros cur Hcur; simpl; [exact Hcur|].
  destruct (Ascii.eqb c sep) eqn:Hc.
  - pose proof (split_go_nonempty sep "" s) as Hne.
    destruct (Strings.split_go sep "" s) as [|p ps] eqn:Hsp; [contradiction|].
    change (List.last (cur :: p :: ps) "") with (List.last (p :: ps) "").
    rewrite <- Hsp. apply IH. reflexivity.
  - apply IH. clear IH. induction cur as [|d cur IHc]; simpl.
    + rewrite Ascii.eqb_sym, Hc. reflexivity.
    + simpl in Hcur. apply orb_false_iff in Hcur as [Hd Hcur].
      rewrite Hd. apply IHc, Hcur.
Qed.

Lemma split_go_stem (sep : ascii) (cur s : string) :
  Strings.mem sep s = true →
  ∃ stem, cur +:+ s = stem +:+ String sep (List.last (Strings.split_go sep cur s) "")
          ∧ (1 < length (Strings.split_go sep cur s))%nat.
Proof.
  revert cur. induction s as [|c s IH]; intros cur Hm; [discriminate|]. simpl.
  destruct (Ascii.eqb c sep) eqn:Hc.
  - apply Ascii.eqb_eq in Hc as ->.
    pose proof (split_go_nonempty sep "" s) as Hne.
    destruct (Strings.mem sep s) eqn:Hs.
    + destruct (IH "" eq_refl) as (stem & Heq & Hlen).
      destruct (Strings.split_go sep "" s) as [|p ps] eqn:Hsp; [contradiction|].
      exists (cur +:+ String sep stem). split; [|simpl; lia].
      change (List.last (cur :: p :: ps) "") with (List.last (p :: ps) "").
      change ("" +:+ s) with s in Heq. rewrite Heq, append_assoc. reflexivity.
    + rewrite (split_go_no_sep sep "" s Hs). exists cur. split; [reflexivity|simpl; lia].
  - simpl in Hm. rewrite Ascii.eqb_sym, Hc in Hm. simpl in Hm.
    destruct (IH (cur +:+ String c "") Hm) as (stem & Heq & Hlen).
    exists stem. split; [|exact Hlen]. rewrite <- Heq, append_assoc. reflexivity.
Qed.

(** X2: getFileExtension returns what follows the last dot of the name, which
    itself holds no dot, and the empty string for a name without a dot. *)
Theorem file_extension_is_the_last_dot_suffix (filename : string) :
  Strings.mem "."%char (getFileExtension filename) = false
  ∧ if Strings.mem "."%char filename
    then ∃ stem, filename = stem +:+ "." +:+ getFileExtension filename
    else getFileExtension filename = "".
Proof.
  unfold getFileExtension, Strings.Split. split.
  - destruct (1 <? length (Strings.split_go "." "" filename))%nat; [|reflexivity].
    apply split_go_last_clean. reflexivity.
  - destruct (Strings.mem "." filename) eqn:Hm.
    + destruct (split_go_stem "." "" filename Hm) as (stem & Heq & Hlen).
      apply Nat.ltb_lt in Hlen. rewrite Hlen. exists stem. exact Heq.
    + rewrite (split_go_no_sep _ _ _ Hm). reflexivity.
Qed.

(** ** Main-content extraction *)

(** X3: The body text is a fallback only for a page without any main-content
    element: when such elements exist and none has a trimmed text longer
    than 50 bytes, the extracted text is empty, whatever the body holds. *)
Theorem short_main_content_gives_no_text (d : Page) :
  find_main d ≠ [] →
  (∀ s, s ∈ find_main d →
     (String.length (Strings.TrimSpace (elem_Text s)) ≤ 50)%nat) →
  extractText d = "".
Proof.
  unfold extractText. intros Hne Hshort.
  destruct (find_main d) as [|s0 rest] eqn:Hm; [contradiction|].
  assert (Hnone : omap (λ s, let text := Strings.TrimSpace (elem_Text s) in
                            if (50 <? String.length text)%nat then Some text else None)
                    (s0 :: rest) = []).
  { clear Hm Hne. induction (s0 :: rest) as [|s l IH]; [reflexivity|].
    simpl. destruct (Nat.ltb_spec 50 (String.length (Strings.TrimSpace (elem_Text s))))
      as [Hlt|_].
    - specialize (Hshort s ltac:(left)). lia.
    - apply IH. intros s' Hs'. apply Hshort. right. exact Hs'. }
  cbv zeta in Hnone. rewrite Hnone. reflexivity.
Qed.

(** The teaser page: its main element is too short and its long body is
    not used. *)
Lemma short_main_content_gives_no_text_witness :
  extractText teaserPage = ""
  ∧ (50 < String.length (Strings.TrimSpace (Text_of (find_body teaserPage))))%nat.
Proof.
  split.
  - apply (short_main_content_gives_no_text teaserPage).
    + discriminate.
    + intros s Hs. apply list_elem_of_singleton in Hs as ->. vm_compute. lia.
  - vm_compute. lia.
Defined.

(** ** Metadata of a page *)

Section MetadataFacts.
Context {pkg : Packages}.

Lemma firstContent_fold (sel : list Element) (field : string) :
  foldl (λ cur s, match Attr s "content" with
                  | Some content =>
                      if String.eqb cur "" then Strings.TrimSpace content else cur
                  | None => cur
                  end) field sel
  = if String.eqb field ""
    then default "" (head (filter (λ c, c ≠ "") (Strings.TrimSpace <$> contents sel)))
    else field.
Proof.
  revert field. induction sel as [|s sel IH]; intros field.
  - simpl. destruct (String.eqb_spec field ""); congruence.
  - simpl. rewrite IH. unfold contents. simpl.
    destruct (Attr s "content") as [content|]; [|reflexivity].
    destruct (String.eqb_spec field "") as [->|Hne].
    + simpl. rewrite filter_cons.
      destruct (String.eqb_spec (Strings.TrimSpace content) "") as [He|Hne'].
      * destruct (decide (Strings.TrimSpace content ≠ "")) as [Hd|_];
          [contradiction|reflexivity].
      * destruct (decide (Strings.TrimSpace content ≠ "")) as [_|Hd];
          [reflexivity|contradiction].
    + destruct (String.eqb_spec field ""); [contradiction|reflexivity].
Qed.

(** X4: extractMetadata never overwrites an author or a category the record
    already has; an empty one becomes the first content attribute of the
    matching meta elements that is not blank after trimming, and stays
    empty when there is none. *)
Theorem metadata_author_is_first_nonblank (doc : Page) (metadata : DocumentMetadata) :
  Author (extractMetadata doc metadata)
  = (if String.eqb (Author metadata) ""
     then default "" (head (filter (λ c, c ≠ "")
                              (Strings.TrimSpace <$> contents (find_author doc))))
     else Author metadata)
  ∧ Category (extractMetadata doc metadata)
    = (if String.eqb (Category metadata) ""
       then default "" (head (filter (λ c, c ≠ "")
                                (Strings.TrimSpace <$> contents (find_category doc))))
       else Category metadata).
Proof. split; apply firstContent_fold. Qed.

Lemma append_mem_false (c : ascii) (a b : string) :
  Strings.mem c a = false → Strings.mem c b = false → Strings.mem c (a +:+ b) = false.
Proof.
  intros Ha Hb. induction a as [|d a IH]; [exact Hb|].
  simpl in Ha. apply orb_false_iff in Ha as [Hd Ha].
  rewrite append_cons. simpl. rewrite Hd. apply IH, Ha.
Qed.

Lemma split_go_clean (sep : ascii) (cur s : string) :
  Strings.mem sep cur = false →
  Forall (λ part, Strings.mem sep part = false) (Strings.split_go sep cur s).
Proof.
  revert cur. induction s as [|c s IH]; intros cur Hcur; simpl.
  - constructor; [exact Hcur|constructor].
  - destruct (Ascii.eqb c sep) eqn:Hc.
    + constructor; [exact Hcur|]. apply IH. reflexivity.
    + apply IH. apply append_mem_false; [exact Hcur|].
      simpl. rewrite Ascii.eqb_sym, Hc. reflexivity.
Qed.

Lemma mem_false_Forall (c : ascii) (s : string) :
  Strings.mem c s = false ↔ Forall (λ d, d ≠ c) (list_ascii_of_string s).
Proof.
  induction s as [|d s IH]; simpl.
  - split; [constructor|reflexivity].
  - rewrite orb_false_iff, IH, Forall_cons, Ascii.eqb_neq. split; intros [? ?]; split; auto.
Qed.

Lemma TrimSpace_clean (c : ascii) (s : string) :
  Strings.mem c s = false → Strings.mem c (Strings.TrimSpace s) = false.
Proof.
  rewrite !mem_false_Forall. intros H.
  apply TrimRightFunc_Forall, TrimLeftFunc_Forall, H.
Qed.

Lemma tags_fold (tags : list string) (parts : list string) :
  foldl (λ tags tag, let tag := Strings.TrimSpace tag in
                     if String.eqb tag "" then tags else tags ++ [tag]) tags parts
  = tags ++ filter (λ t, t ≠ "") (Strings.TrimSpace <$> parts).
Proof.
  revert tags. induction parts as [|part parts IH]; intros tags; simpl.
  - rewrite app_nil_r. reflexivity.
  - rewrite IH, filter_cons.
    destruct (String.eqb_spec (Strings.TrimSpace part) "") as [He|Hne].
    + rewrite decide_False by (intros H; apply H; exact He). reflexivity.
    + rewrite decide_True by exact Hne. rewrite <- app_assoc. reflexivity.
Qed.

(** X5: extractMetadata only appends to the tags: the new ones are the pieces
    between the commas of the keyword contents, in order, each trimmed, and
    the blank ones left out; so no added tag is empty, holds a comma, or
    begins or ends with whitespace. *)
Theorem metadata_tags_are_appended (doc : Page) (metadata : DocumentMetadata) :
  let added :=
    filter (λ t, t ≠ "")
      (Strings.TrimSpace <$>
         (contents (find_keywords doc) ≫= λ content, Strings.Split content ","%char)) in
  Tags (extractMetadata doc metadata) = Tags metadata ++ added
  ∧ Forall (λ t, t ≠ "" ∧ Strings.mem ","%char t = false ∧ Strings.TrimSpace t = t) added.
Proof.
  intros added. split.
  - unfold extractMetadata. simpl. subst added. unfold contents.
    generalize (Tags metadata). induction (find_keywords doc) as [|s sel IH]; intros tags.
    + simpl. rewrite app_nil_r. reflexivity.
    + simpl. destruct (Attr s "content") as [content|]; [|apply IH].
      rewrite IH, tags_fold. rewrite bind_cons, fmap_app, filter_app, app_assoc.
      reflexivity.
  - subst added. apply Forall_forall. intros t Ht.
    apply list_elem_of_filter in Ht as [Hne Ht].
    apply list_elem_of_fmap in Ht as (part & -> & Hpart).
    apply list_elem_of_bind in Hpart as (content & Hpart & _).
    split; [exact Hne|]. split; [|apply TrimSpace_idem].
    apply TrimSpace_clean.
    pose proof (split_go_clean ","%char "" content eq_refl) as Hall.
    rewrite Forall_forall in Hall. apply Hall, Hpart.
Qed.

End MetadataFacts.

(** ** Content chunks *)

Lemma wrap64_small (z : Z) : (- 2 ^ 63 ≤ z < 2 ^ 63)%Z → wrap64 z = z.
Proof. intros Hz. unfold wrap64. rewrite Z.mod_small by lia. lia. Qed.

Lemma wrap64_add_l (a b : Z) : wrap64 (wrap64 a + b) = wrap64 (a + b).
Proof.
  unfold wrap64. f_equal.
  replace ((a + 2 ^ 63) mod 2 ^ 64 - 2 ^ 63 + b + 2 ^ 63)%Z
    with ((a + 2 ^ 63) mod 2 ^ 64 + b)%Z by lia.
  rewrite Z.add_mod_idemp_l by lia. f_equal. lia.
Qed.

Section ChunkFold.
Variable f : list ContentChunk * Z → Element → list ContentChunk * Z.
Hypothesis f_step : ∀ chunks n s,
  f (chunks, n) s = (chunks, n)
  ∨ ∃ c, f (chunks, n) s = (chunks ++ [c], int_add n 1)
         ∧ Position c = n
         ∧ ∃ kind, kind ∈ ["h_"; "p_"; "q_"] ∧ ID c = kind +:+ pretty n.

(** A chunk loop keeps the numbering, and appends at most one chunk for
    each element. *)
Lemma chunk_fold_numbered (st : list ContentChunk * Z) (sel : list Element) :
  numbered st →
  numbered (foldl f st sel)
  ∧ (length (fst (foldl f st sel)) ≤ length (fst st) + length sel)%nat.
Proof using f_step.
  revert st. induction sel as [|s sel IH]; intros [chunks n] Hst; simpl.
  - split; [exact Hst|lia].
  - destruct (f_step chunks n s) as [->|(c & -> & Hpos & kind & Hkind & Hid)].
    + destruct (IH _ Hst) as [Hn Hlen]. split; [exact Hn|]. simpl in *. lia.
    + destruct Hst as [Hcount Hall]. simpl in Hcount, Hall.
      destruct (IH (chunks ++ [c], int_add n 1)) as [Hn Hlen].
      * split; simpl.
        -- rewrite length_app. simpl. unfold int_add. rewrite Hcount, wrap64_add_l.
           f_equal. lia.
        -- intros i c' Hi. apply lookup_snoc_Some in Hi as [[_ Hi]|[-> <-]].
           ++ apply Hall, Hi.
           ++ rewrite Hpos. split; [exact Hcount|]. exists kind. auto.
      * split; [exact Hn|]. simpl in *. rewrite length_app in Hlen. simpl in Hlen. lia.
Qed.

End ChunkFold.

Section ChunkFacts.
Context {pkg : Packages}.

Lemma headlineChunk_step (ρ : Z → RangeOrder) chunks n s :
  headlineChunk ρ (chunks, n) s = (chunks, n)
  ∨ ∃ c, headlineChunk ρ (chunks, n) s = (chunks ++ [c], int_add n 1)
         ∧ Position c = n
         ∧ ∃ kind, kind ∈ ["h_"; "p_"; "q_"] ∧ ID c = kind +:+ pretty n.
Proof.
  unfold headlineChunk. case_match; [|left; reflexivity].
  right. eexists. split; [reflexivity|]. split; [reflexivity|].
  exists "h_". split; [set_solver|reflexivity].
Qed.

Lemma paragraphChunk_step (ρ : Z → RangeOrder) chunks n s :
  paragraphChunk ρ (chunks, n) s = (chunks, n)
  ∨ ∃ c, paragraphChunk ρ (chunks, n) s = (chunks ++ [c], int_add n 1)
         ∧ Position c = n
         ∧ ∃ kind, kind ∈ ["h_"; "p_"; "q_"] ∧ ID c = kind +:+ pretty n.
Proof.
  unfold paragraphChunk. case_match; [|left; reflexivity].
  right. eexists. split; [reflexivity|]. split; [reflexivity|].
  exists "p_". split; [set_solver|reflexivity].
Qed.

Lemma quoteChunk_step (ρ : Z → RangeOrder) chunks n s :
  quoteChunk ρ (chunks, n) s = (chunks, n)
  ∨ ∃ c, quoteChunk ρ (chunks, n) s = (chunks ++ [c], int_add n 1)
         ∧ Position c = n
         ∧ ∃ kind, kind ∈ ["h_"; "p_"; "q_"] ∧ ID c = kind +:+ pretty n.
Proof.
  unfold quoteChunk. case_match; [|left; reflexivity].
  right. eexists. split; [reflexivity|]. split; [reflexivity|].
  exists "q_". split; [set_solver|reflexivity].
Qed.

Lemma extractContentChunks_numbered (ρ : Z → RangeOrder) (doc : Page) (clean : string) :
  (∀ (i : nat) c, extractContentChunks ρ doc clean !! i = Some c →
     Position c = wrap64 (Z.of_nat i)
     ∧ ∃ kind, kind ∈ ["h_"; "p_"; "q_"] ∧ ID c = kind +:+ pretty (Position c))
  ∧ (length (extractContentChunks ρ doc clean)
     ≤ length (find_headlines doc) + length (find_p doc) + length (find_quotes doc))%nat.
Proof.
  unfold extractContentChunks.
  destruct (chunk_fold_numbered _ (headlineChunk_step ρ) ([], 0%Z) (find_headlines doc))
    as [Hh Hlh]; [split; [reflexivity|intros i c [=]]|].
  destruct (chunk_fold_numbered _ (paragraphChunk_step ρ) _ (find_p doc) Hh) as [Hp Hlp].
  destruct (chunk_fold_numbered _ (quoteChunk_step ρ) _ (find_quotes doc) Hp) as [Hq Hlq].
  split; [apply Hq|]. simpl in *. lia.
Qed.

(** X6: On a page with fewer than 2^63 headline, paragraph and quote elements
    the chunks are numbered 0, 1, 2, ... in the order of the result: the
    position of a chunk is its index, its ID is the kind prefix h_, p_ or q_
    before that number, and no two chunks have the same ID. *)
Theorem chunk_positions_are_dense (ρ : Z → RangeOrder) (doc : Page) (clean : string) :
  (Z.of_nat (length (find_headlines doc) + length (find_p doc)
             + length (find_quotes doc)) < 2 ^ 63)%Z →
  (∀ (i : nat) c, extractContentChunks ρ doc clean !! i = Some c →
     Position c = Z.of_nat i
     ∧ ∃ kind, kind ∈ ["h_"; "p_"; "q_"] ∧ ID c = kind +:+ pretty (Z.of_nat i))
  ∧ NoDup (ID <$> extractContentChunks ρ doc clean).
Proof.
  intros Hsize.
  destruct (extractContentChunks_numbered ρ doc clean) as [Hnum Hlen].
  set (chunks := extractContentChunks ρ doc clean) in *.
  assert (Hdense : ∀ (i : nat) c, chunks !! i = Some c →
            Position c = Z.of_nat i
            ∧ ∃ kind, kind ∈ ["h_"; "p_"; "q_"] ∧ ID c = kind +:+ pretty (Z.of_nat i)).
  { intros i c Hi. destruct (Hnum i c Hi) as [Hpos (kind & Hkind & Hid)].
    apply lookup_lt_Some in Hi.
    rewrite wrap64_small in Hpos by lia.
    split; [exact Hpos|]. exists kind. rewrite <- Hpos. auto. }
  split; [exact Hdense|].
  apply NoDup_alt. intros i j id Hi Hj.
  apply list_lookup_fmap_Some in Hi as (ci & -> & Hi).
  apply list_lookup_fmap_Some in Hj as (cj & Heq & Hj).
  destruct (Hdense i ci Hi) as [_ (ki & Hki & Hidi)].
  destruct (Hdense j cj Hj) as [_ (kj & Hkj & Hidj)].
  rewrite Hidi, Hidj in Heq.
  assert (Hp : pretty (Z.of_nat i) = pretty (Z.of_nat j)).
  { repeat (apply elem_of_cons in Hki as [->|Hki]);
      repeat (apply elem_of_cons in Hkj as [->|Hkj]);
      try (apply elem_of_nil in Hki; contradiction);
      try (apply elem_of_nil in Hkj; contradiction);
      rewrite !append_cons in Heq; injection Heq; auto; discriminate. }
  apply (inj pretty) in Hp. lia.
Qed.

End ChunkFacts.

(** The article page: three chunks, numbered 0 to 2. *)
Lemma chunk_positions_are_dense_witness :
  ID <$> extractContentChunks (pkg := Standin.packages) (λ _, listed) articlePage ""
  = ["h_0"; "p_1"; "q_2"]
  ∧ NoDup (ID <$> extractContentChunks (pkg := Standin.packages) (λ _, listed) articlePage "").
Proof.
  split; [vm_compute; reflexivity|].
  apply (chunk_positions_are_dense (pkg := Standin.packages) (λ _, listed) articlePage "").
  vm_compute. reflexivity.
Defined.

Section ChunkTexts.
Context {pkg : Packages}.

Lemma headline_fold (ρ : Z → RangeOrder) (st : list ContentChunk * Z) (sel : list Element) :
  tagged <$> fst (foldl (headlineChunk ρ) st sel)
  = (tagged <$> fst st)
    ++ (pair "headline" <$> filter (λ t, 5 < String.length t)%nat (trimmed sel)).
Proof.
  revert st. induction sel as [|s sel IH]; intros [chunks n].
  - simpl. rewrite app_nil_r. reflexivity.
  - simpl foldl. rewrite IH. unfold trimmed. rewrite fmap_cons, filter_cons.
    unfold headlineChunk, len.
    destruct (decide (5 < String.length (Strings.TrimSpace (elem_Text s)))%nat) as [Hl|Hl].
    + destruct (String.eqb_spec (Strings.TrimSpace (elem_Text s)) "") as [He|_].
      { rewrite He in Hl. simpl in Hl. lia. }
      destruct (Z.ltb_spec 5 (Z.of_nat (String.length (Strings.TrimSpace (elem_Text s)))));
        [|lia].
      simpl. rewrite fmap_app, <- app_assoc. reflexivity.
    + destruct (Z.ltb_spec 5 (Z.of_nat (String.length (Strings.TrimSpace (elem_Text s)))));
        [lia|].
      rewrite andb_false_r. reflexivity.
Qed.

Lemma paragraph_fold (ρ : Z → RangeOrder) (st : list ContentChunk * Z) (sel : list Element) :
  tagged <$> fst (foldl (paragraphChunk ρ) st sel)
  = (tagged <$> fst st)
    ++ (pair "paragraph" <$> filter (λ t, 20 < String.length t)%nat (trimmed sel)).
Proof.
  revert st. induction sel as [|s sel IH]; intros [chunks n].
  - simpl. rewrite app_nil_r. reflexivity.
  - simpl foldl. rewrite IH. unfold trimmed. rewrite fmap_cons, filter_cons.
    unfold paragraphChunk, len.
    destruct (decide (20 < String.length (Strings.TrimSpace (elem_Text s)))%nat) as [Hl|Hl].
    + destruct (String.eqb_spec (Strings.TrimSpace (elem_Text s)) "") as [He|_].
      { rewrite He in Hl. simpl in Hl. lia. }
      destruct (Z.ltb_spec 20 (Z.of_nat (String.length (Strings.TrimSpace (elem_Text s)))));
        [|lia].
      simpl. rewrite fmap_app, <- app_assoc. reflexivity.
    + destruct (Z.ltb_spec 20 (Z.of_nat (String.length (Strings.TrimSpace (elem_Text s)))));
        [lia|].
      rewrite andb_false_r. reflexivity.
Qed.

Lemma quote_fold (ρ : Z → RangeOrder) (st : list ContentChunk * Z) (sel : list Element) :
  tagged <$> fst (foldl (quoteChunk ρ) st sel)
  = (tagged <$> fst st) ++ (pair "quote" <$> filter (λ t, t ≠ "") (trimmed sel)).
Proof.
  revert st. induction sel as [|s sel IH]; intros [chunks n].
  - simpl. rewrite app_nil_r. reflexivity.
  - simpl foldl. rewrite IH. unfold trimmed. rewrite fmap_cons, filter_cons.
    unfold quoteChunk.
    destruct (String.eqb_spec (Strings.TrimSpace (elem_Text s)) "") as [He|Hne].
    + destruct (decide (Strings.TrimSpace (elem_Text s) ≠ "")) as [Hd|_];
        [contradiction|reflexivity].
    + destruct (decide (Strings.TrimSpace (elem_Text s) ≠ "")) as [_|Hd];
        [|contradiction].
      simpl. rewrite fmap_app, <- app_assoc. reflexivity.
Qed.

(** X7: The chunks of a page are, in this order: a headline for every heading
    whose trimmed text is longer than 5 bytes, a paragraph for every p
    element whose trimmed text is longer than 20 bytes, and a quote for
    every blockquote or q element whose trimmed text is not empty; each
    kind in document order, the text of a chunk being the trimmed text of
    its element.  The kinds are not interleaved, whatever the order of the
    elements in the page. *)
Theorem chunks_follow_the_selections (ρ : Z → RangeOrder) (doc : Page) (clean : string) :
  tagged <$> extractContentChunks ρ doc clean
  = (pair "headline" <$> filter (λ t, 5 < String.length t)%nat (trimmed (find_headlines doc)))
    ++ (pair "paragraph" <$> filter (λ t, 20 < String.length t)%nat (trimmed (find_p doc)))
    ++ (pair "quote" <$> filter (λ t, t ≠ "") (trimmed (find_quotes doc))).
Proof.
  unfold extractContentChunks. cbv zeta.
  rewrite quote_fold, paragraph_fold, headline_fold. simpl. rewrite <- app_assoc.
  reflexivity.
Qed.

End ChunkTexts.

(** ** Keywords and the visiting order of the map *)

Lemma extractKeywords_take (ρ : RangeOrder) (text : string) :
  extractKeywords ρ text
  = take 10 (filter (passes (wordCounts text)) (ρ (wordCounts text))).
Proof. unfold extractKeywords. rewrite collectKeywords_take by (simpl; lia). reflexivity. Qed.

(** X8: The visiting order of the map of counts decides only the order of the
    keywords, as long as no more than ten words pass the test of the second
    loop: two runs on the same text then return the same words, each once,
    in possibly different orders.  In every case the two runs return the same
    number of keywords. *)
Theorem keywords_agree_up_to_order (ρ1 ρ2 : RangeOrder) (text : string) :
  range_order (wordCounts text) (ρ1 (wordCounts text)) →
  range_order (wordCounts text) (ρ2 (wordCounts text)) →
  length (extractKeywords ρ1 text) = length (extractKeywords ρ2 text)
  ∧ ((length (filter (passes (wordCounts text)) (ρ1 (wordCounts text))) ≤ 10)%nat →
     extractKeywords ρ1 text ≡ₚ extractKeywords ρ2 text).
Proof.
  intros [Hnd1 Hk1] [Hnd2 Hk2].
  assert (Hperm : filter (passes (wordCounts text)) (ρ1 (wordCounts text))
                  ≡ₚ filter (passes (wordCounts text)) (ρ2 (wordCounts text))).
  { apply NoDup_Permutation; [apply NoDup_filter, Hnd1|apply NoDup_filter, Hnd2|].
    intros w. rewrite !list_elem_of_filter, Hk1, Hk2. reflexivity. }
  pose proof (Permutation_length Hperm) as Hlen.
  rewrite !extractKeywords_take. split.
  - rewrite !length_take. lia.
  - intros Hfew. rewrite !take_ge by lia. exact Hperm.
Qed.

(** Two visiting orders on a text with two keywords. *)
Lemma keywords_agree_up_to_order_witness :
  extractKeywords listed "elephant giraffes" ≡ₚ extractKeywords reversed "elephant giraffes"
  ∧ extractKeywords listed "elephant giraffes" ≠ extractKeywords reversed "elephant giraffes".
Proof.
  split.
  - apply (keywords_agree_up_to_order listed reversed "elephant giraffes"
             (listed_valid _) (reversed_valid _)).
    vm_compute. lia.
  - vm_compute. discriminate.
Defined.

(** ** Entities *)

Lemma collectEntities_cons (m : string) (rest entities : list string) :
  collectEntities (m :: rest) entities
  = if (5 <=? length (if (3 <? String.length m)%nat && negb (bool_decide (m ∈ entities))
                      then entities ++ [m] else entities))%nat
    then (if (3 <? String.length m)%nat && negb (bool_decide (m ∈ entities))
          then entities ++ [m] else entities)
    else collectEntities rest
           (if (3 <? String.length m)%nat && negb (bool_decide (m ∈ entities))
            then entities ++ [m] else entities).
Proof. reflexivity. Qed.

Lemma collectEntities_spec (matches entities : list string) :
  NoDup entities → (length entities < 5)%nat →
  ∃ added,
    collectEntities matches entities = entities ++ added
    ∧ (length (entities ++ added) ≤ 5)%nat
    ∧ NoDup (entities ++ added)
    ∧ added `sublist_of` matches
    ∧ Forall (λ e, 3 < String.length e)%nat added
    ∧ ((length (entities ++ added) < 5)%nat →
       ∀ m, m ∈ matches → (3 < String.length m)%nat → m ∈ entities ++ added).
Proof.
  revert entities. induction matches as [|m rest IH]; intros entities Hnd Hlen.
  - exists []. simpl. rewrite app_nil_r. split_and!; auto.
    + lia.
    + intros _ m Hm. inversion Hm.
  - rewrite collectEntities_cons.
    destruct ((3 <? String.length m)%nat && negb (bool_decide (m ∈ entities))) eqn:Hadd.
    + apply andb_true_iff in Hadd as [Hlong Hnew].
      apply Nat.ltb_lt in Hlong. apply negb_true_iff, bool_decide_eq_false in Hnew.
      assert (Hnd' : NoDup (entities ++ [m])).
      { apply NoDup_app. split; [exact Hnd|]. split; [|apply NoDup_singleton].
        intros x Hx Hx'. apply list_elem_of_singleton in Hx' as ->. contradiction. }
      destruct (Nat.leb_spec 5 (length (entities ++ [m]))) as [Hfull|Hroom].
      * exists [m]. rewrite length_app in *. simpl in *. split_and!; auto.
        -- lia.
        -- apply sublist_skip, sublist_nil_l.
        -- intros Hlt. lia.
      * destruct (IH (entities ++ [m]) Hnd' Hroom)
          as (added & Heq & Hle & Hnd2 & Hsub & Hall & Hcomplete).
        exists (m :: added). rewrite <- app_assoc in *. simpl in *. split_and!; auto.
        -- apply sublist_skip, Hsub.
        -- intros Hlt x Hx Hxl. apply elem_of_cons in Hx as [->|Hx].
           ++ set_solver.
           ++ apply Hcomplete; assumption.
    + destruct (Nat.leb_spec 5 (length entities)) as [Hfull|Hroom]; [lia|].
      destruct (IH entities Hnd Hlen) as (added & Heq & Hle & Hnd2 & Hsub & Hall & Hcomplete).
      exists added. split_and!; auto.
      * apply sublist_cons, Hsub.
      * intros Hlt x Hx Hxl. apply elem_of_cons in Hx as [->|Hx].
        -- apply andb_false_iff in Hadd as [Hshort|Hold].
           ++ apply Nat.ltb_ge in Hshort. lia.
           ++ apply negb_false_iff, bool_decide_eq_true in Hold. set_solver.
        -- apply Hcomplete; assumption.
Qed.

(** X9: extractEntities returns at most five entities, none twice; they are
    matches of the pattern longer than 3 bytes, in the order of their first
    match; and when fewer than five are returned, every match longer than 3
    bytes is among them. *)
Theorem entities_are_the_first_five {pkg : Packages} (text : string) :
  (length (extractEntities text) ≤ 5)%nat
  ∧ NoDup (extractEntities text)
  ∧ extractEntities text `sublist_of` entity_FindAllString text
  ∧ Forall (λ e, 3 < String.length e)%nat (extractEntities text)
  ∧ ((length (extractEntities text) < 5)%nat →
     ∀ m, m ∈ entity_FindAllString text → (3 < String.length m)%nat →
          m ∈ extractEntities text).
Proof.
  unfold extractEntities.
  destruct (collectEntities_spec (entity_FindAllString text) [] (NoDup_nil_2) ltac:(simpl; lia))
    as (added & Heq & Hle & Hnd & Hsub & Hall & Hcomplete).
  rewrite Heq. simpl in *. split_and!; auto.
Qed.

(** ** Dream hints *)

Lemma detectEmotions_cases (text : string) :
  detectEmotions text = ["neutral"]
  ∨ (detectEmotions text ≠ []
     ∧ detectEmotions text `sublist_of` ["positive"; "dark"; "mystical"]).
Proof.
  unfold detectEmotions. cbv zeta.
  destruct (containsAny text _); destruct (containsAny text _); destruct (containsAny text _);
    simpl; auto; right; (split; [discriminate|]);
    repeat first [apply sublist_nil | apply sublist_skip | apply sublist_cons].
Qed.

Lemma detectEmotions_length (text : string) :
  (1 ≤ length (detectEmotions text) ≤ 3)%nat.
Proof.
  unfold detectEmotions. cbv zeta.
  destruct (containsAny text _); destruct (containsAny text _); destruct (containsAny text _);
    simpl; lia.
Qed.

Lemma detectThemes_sublist (text : string) :
  detectThemes text `sublist_of` ["technology"; "creative"; "scientific"].
Proof.
  unfold detectThemes. cbv zeta.
  destruct (containsAny text _); destruct (containsAny text _); destruct (containsAny text _);
    simpl; repeat first [apply sublist_nil | apply sublist_skip | apply sublist_cons].
Qed.

Lemma detectTone_cases (text : string) :
  detectTone text ∈ ["dramatic"; "formal"; "casual"; "neutral"].
Proof. unfold detectTone. cbv zeta. repeat case_match; set_solver. Qed.

(** X10: The categorical hints come from fixed vocabularies.  The emotions are
    neutral alone, or a non-empty selection of positive, dark and mystical
    in that order; the themes are a selection of technology, creative and
    scientific in that order; the motifs and the colours are the words of
    their lists found in the text, in list order; the tone is one of four
    values. *)
Theorem hints_use_fixed_vocabularies (doc : Document) :
  (Emotions (generateDreamHints doc) = ["neutral"]
   ∨ (Emotions (generateDreamHints doc) ≠ []
      ∧ Emotions (generateDreamHints doc) `sublist_of` ["positive"; "dark"; "mystical"]))
  ∧ Themes (generateDreamHints doc) `sublist_of` ["technology"; "creative"; "scientific"]
  ∧ Motifs (generateDreamHints doc)
      `sublist_of` ["light"; "shadow"; "color"; "bright"; "dark"; "crystal"; "liquid";
                    "flowing"; "geometric"; "organic"]
  ∧ ColorPalette (generateDreamHints doc)
      `sublist_of` ["red"; "blue"; "green"; "yellow"; "purple"; "orange"; "pink";
                    "white"; "black"; "gold"; "silver"]
  ∧ Tone (generateDreamHints doc) ∈ ["dramatic"; "formal"; "casual"; "neutral"].
Proof.
  unfold generateDreamHints. cbn [Emotions Themes Motifs ColorPalette Tone]. split_and!.
  - apply detectEmotions_cases.
  - apply detectThemes_sublist.
  - apply sublist_filter.
  - apply sublist_filter.
  - apply detectTone_cases.
Qed.

Lemma min_capped (x : float) : PrimFloat.ltb 1 (min 1 x) = false.
Proof. unfold min. destruct (PrimFloat.ltb 1 x) eqn:Hx; [reflexivity|exact Hx]. Qed.

Lemma abstractness_range (text : string) (hints : DreamingHints) :
  (1 ≤ length (Emotions hints) ≤ 3)%nat →
  PrimFloat.leb 0.05 (calculateAbstractness text hints) = true
  ∧ PrimFloat.ltb (calculateAbstractness text hints) 1 = true.
Proof.
  intros Hlen. unfold calculateAbstractness. cbv zeta. cbn [foldl].
  assert (Hcases : length (Emotions hints) = 1%nat ∨ length (Emotions hints) = 2%nat
                   ∨ length (Emotions hints) = 3%nat) by lia.
  clear Hlen.
  generalize (Strings.Contains text "concept"), (Strings.Contains text "idea"),
    (Strings.Contains text "essence"), (Strings.Contains text "meaning"),
    (Strings.Contains text "philosophy"), (Strings.Contains text "abstract"),
    (Strings.Contains text "theory"), (Strings.Contains text "metaphor").
  destruct Hcases as [->|[->| ->]];
    intros [] [] [] [] [] [] [] []; vm_compute; split; reflexivity.
Qed.

(** X11: None of the three scores of the hints exceeds 1.  The abstractness is
    at least 0.05, because there is always an emotion, and stays below 1:
    eight abstract words and three emotions do not reach the cap. *)
Theorem hint_scores_are_capped (doc : Document) :
  PrimFloat.ltb 1 (Complexity (generateDreamHints doc)) = false
  ∧ PrimFloat.ltb 1 (Surrealism (generateDreamHints doc)) = false
  ∧ PrimFloat.leb 0.05 (Abstractness (generateDreamHints doc)) = true
  ∧ PrimFloat.ltb (Abstractness (generateDreamHints doc)) 1 = true.
Proof.
  unfold generateDreamHints. cbn [Complexity Surrealism Abstractness]. split_and!.
  - apply min_capped.
  - apply min_capped.
  - apply abstractness_range. cbn [Emotions]. apply detectEmotions_length.
  - apply abstractness_range. cbn [Emotions]. apply detectEmotions_length.
Qed.

(** ** Priorities of the extracted links *)

Section LinkRange.
Context {U : Type} {net : NetURL U} {pkg : Packages}.

Lemma linkOf_priority (base : U) (currentDepth : Z) (s : Element) (link : ExtractedLink) :
  linkOf base currentDepth s = Some link →
  (link_Type link = "internal" ∧ (2 ≤ Priority link ≤ 5)%Z)
  ∨ (link_Type link = "external" ∧ (1 ≤ Priority link ≤ 3)%Z).
Proof.
  unfold linkOf. intros Hlink.
  destruct (Attr s "href") as [href|]; [|discriminate].
  destruct ((len href <? 2)%Z || Strings.HasPrefix href "#"); [discriminate|].
  destruct (URL_Parse base href) as [resolvedURL|]; [|discriminate].
  destruct (negb (String.eqb (Scheme resolvedURL) "http")
            && negb (String.eqb (Scheme resolvedURL) "https")); [discriminate|].
  injection Hlink as <-. cbn [link_Type Priority].
  destruct (String.eqb (Host resolvedURL) (Host base));
    destruct (anchorMentions (Strings.TrimSpace (elem_Text s)));
    destruct (currentDepth >=? 2)%Z; vm_compute; intuition congruence.
Qed.

(** X12: Every extracted link is internal with a priority from 2 to 5, or
    external with a priority from 1 to 3.  The priority is therefore always
    positive, and the worker's test [link.Priority > 0] never holds a link
    back. *)
Theorem link_priorities_are_positive (doc : Page) (baseURL : string) (currentDepth : Z)
    (links : list ExtractedLink) :
  extractLinksWithPriority doc baseURL currentDepth = Some links →
  Forall (λ link,
            ((link_Type link = "internal" ∧ (2 ≤ Priority link ≤ 5)%Z)
             ∨ (link_Type link = "external" ∧ (1 ≤ Priority link ≤ 3)%Z))
            ∧ (Priority link >? 0)%Z = true) links.
Proof.
  unfold extractLinksWithPriority. intros Hlinks.
  destruct (url_Parse baseURL) as [base|]; [|discriminate].
  injection Hlinks as <-. apply Forall_forall. intros link Hin.
  apply list_elem_of_omap in Hin as (s & _ & Hlink).
  apply linkOf_priority in Hlink. split; [exact Hlink|].
  apply Z.gtb_gt. destruct Hlink as [[_ ?]|[_ ?]]; lia.
Qed.

(** The links handed to the worker by enhancedFetchAndParse, in every
    outcome. *)
Lemma fetched_link_priorities (ρ : Z → RangeOrder) (now : Z) (outcome : FetchOutcome)
    (rawurl : string) (metadata : URLMetadata) :
  Forall (λ link, (Priority link >? 0)%Z = true)
    (snd (fst (enhancedFetchAndParse ρ now outcome rawurl metadata))).
Proof.
  unfold enhancedFetchAndParse.
  destruct (url_Parse rawurl) as [base|] eqn:Hbase; [|constructor].
  destruct outcome as [|resp]; [constructor|].
  destruct (negb (StatusCode resp =? StatusOK)%Z); [constructor|].
  destruct (Body resp) as [gqDoc|]; [|constructor].
  cbn [fst snd].
  destruct (extractLinksWithPriority gqDoc rawurl (depth metadata)) as [links|] eqn:Hl;
    [|constructor].
  simpl. unfold extractLinksWithPriority in Hl. rewrite Hbase in Hl.
  injection Hl as <-. apply Forall_forall. intros link Hin.
  apply list_elem_of_omap in Hin as (s & _ & Hlink).
  apply linkOf_priority in Hlink.
  apply Z.gtb_gt. destruct Hlink as [[_ ?]|[_ ?]]; lia.
Qed.

End LinkRange.

(** The links of the first page, extracted at depth 0. *)
Lemma link_priorities_are_positive_witness :
  Forall (λ link,
            ((link_Type link = "internal" ∧ (2 ≤ Priority link ≤ 5)%Z)
             ∨ (link_Type link = "external" ∧ (1 ≤ Priority link ≤ 3)%Z))
            ∧ (Priority link >? 0)%Z = true)
    (omap (linkOf (net := Standin.netURL) base1 0) (find_a_href page1)).
Proof.
  apply (link_priorities_are_positive (net := Standin.netURL) page1 "http://a.test/page1" 0).
  vm_compute. reflexivity.
Defined.

(** ** The worker pool: invariants of the shared state and of each worker *)

Section PoolInvariants.
Context {U : Type} {net : NetURL U} {pkg : Packages}.

(** A property [S] of the shared state together with a property [W] of
    every worker holds in every reachable state when the initial state has
    them, the seeding goroutine (which sends seed URLs only), the
    cancellation and the arrival of a robots.txt keep them, and a worker's
    step keeps [S], establishes [W] for the worker and keeps [W] for the
    others. *)
Lemma pool_invariant (cfg : Config) (nworkers : nat) (seedURLs : list string)
    (S : Shared → Prop) (W : Shared → pc (U := U) → Prop) :
  S (shared (initial (U := U) nworkers seedURLs)) →
  W (shared (initial (U := U) nworkers seedURLs)) AtSelect →
  (∀ s x, x ∈ seedURLs → (length (urlQueue s) < queueSize cfg)%nat → S s →
     S (with_urlQueue (urlQueue s ++ [seedEntry x]) s)
     ∧ ∀ q, W s q → W (with_urlQueue (urlQueue s ++ [seedEntry x]) s) q) →
  (∀ s, S s → S (with_cancelled true s) ∧ ∀ q, W s q → W (with_cancelled true s) q) →
  (∀ s host data, hostMap s !! host = Some {| robots := None |} → S s →
     S (with_hostMap (<[host := {| robots := Some data |}]> (hostMap s)) s)
     ∧ ∀ q, W s q →
            W (with_hostMap (<[host := {| robots := Some data |}]> (hostMap s)) s) q) →
  (∀ m p p' s s', workerStep cfg m p s = Some (p', s') → S s → W s p →
     S s' ∧ W s' p' ∧ ∀ q, W s q → W s' q) →
  ∀ σ, reachable cfg nworkers seedURLs σ →
       S (shared σ) ∧ Forall (W (shared σ)) (workers σ).
Proof.
  intros HS0 HW0 Hseed Hcancel Hrobots Hwork σ Hreach.
  enough (Hinv : (S (shared σ) ∧ Forall (W (shared σ)) (workers σ))
                 ∧ ∀ x, x ∈ seeds σ → x ∈ seedURLs) by apply Hinv.
  revert σ Hreach.
  apply (reachable_invariant cfg nworkers seedURLs
           (λ σ, (S (shared σ) ∧ Forall (W (shared σ)) (workers σ))
                 ∧ ∀ x, x ∈ seeds σ → x ∈ seedURLs)).
  - split; [|auto]. split; [exact HS0|]. apply Forall_replicate. exact HW0.
  - intros a σ σ' [[HS HW] Hseeds] Hact. destruct a as [| |host data|id m].
    + simpl in Hact. destruct (seeds σ) as [|x rest]; [discriminate|].
      destruct (Nat.ltb_spec (length (urlQueue (shared σ))) (queueSize cfg)) as [Hroom|_];
        [|discriminate].
      injection Hact as <-. simpl.
      destruct (Hseed (shared σ) x (Hseeds x ltac:(left)) Hroom HS) as [HS' HW'].
      split; [|intros y Hy; apply Hseeds; right; exact Hy].
      split; [exact HS'|]. eapply Forall_impl; [exact HW|exact HW'].
    + simpl in Hact. injection Hact as <-. simpl.
      destruct (Hcancel (shared σ) HS) as [HS' HW']. split; [|exact Hseeds].
      split; [exact HS'|]. eapply Forall_impl; [exact HW|exact HW'].
    + simpl in Hact.
      destruct (hostMap (shared σ) !! host) as [[[testAgent|]]|] eqn:Hhost;
        try discriminate.
      injection Hact as <-. simpl.
      destruct (Hrobots (shared σ) host data Hhost HS) as [HS' HW']. split; [|exact Hseeds].
      split; [exact HS'|]. eapply Forall_impl; [exact HW|exact HW'].
    + apply act_Work in Hact as (p & p' & s' & Hid & Hstep & ->). simpl.
      destruct (Hwork m p p' (shared σ) s' Hstep HS (Forall_lookup_1 _ _ _ _ HW Hid))
        as (HS' & Hp' & HW').
      split; [|exact Hseeds].
      split; [exact HS'|]. apply Forall_insert; [|exact Hp'].
      eapply Forall_impl; [exact HW|exact HW'].
Qed.

(** The frontier never holds more than its capacity. *)
Lemma capacity_step (cfg : Config) (m : move) (p p' : pc (U := U)) (s s' : Shared) :
  workerStep cfg m p s = Some (p', s') →
  (length (urlQueue s) ≤ queueSize cfg)%nat → (length (urlQueue s') ≤ queueSize cfg)%nat.
Proof.
  intros Hstep Hcap.
  destruct p; destruct m; simpl in Hstep; try discriminate;
    repeat case_match; simplify_eq; simpl in *; try lia.
  unfold trySend. destruct (Nat.ltb_spec (length (urlQueue s)) (queueSize cfg)); simpl;
    [rewrite length_app; simpl; lia|lia].
Qed.

(** X13: With a buffered frontier (a queue size of 1 or more) the frontier
    never holds more than queue-size entries.  When it is full, the seeding
    goroutine cannot send, and the step of a worker in its link loop drops
    the link at hand: the worker moves on to the next link and nothing of
    the shared state changes. *)
Theorem frontier_stays_within_capacity (cfg : Config) (nworkers : nat)
    (seedURLs : list string) (σ : System (U := U)) :
  (0 < queueSize cfg)%nat →
  reachable cfg nworkers seedURLs σ →
  (length (urlQueue (shared σ)) ≤ queueSize cfg)%nat
  ∧ (length (urlQueue (shared σ)) = queueSize cfg →
     act cfg Seed σ = None
     ∧ ∀ id urlMeta link rest,
         workers σ !! id = Some (Queueing urlMeta (link :: rest)) →
         act cfg (Work id Next) σ
         = Some {| shared := shared σ;
                   workers := <[id := Queueing urlMeta rest]> (workers σ);
                   seeds := seeds σ |}).
Proof.
  intros _ Hreach.
  assert (Hcap : (length (urlQueue (shared σ)) ≤ queueSize cfg)%nat).
  { apply (pool_invariant cfg nworkers seedURLs
             (λ s, (length (urlQueue s) ≤ queueSize cfg)%nat) (λ _ _, True) ) with (σ := σ).
    - simpl. lia.
    - exact I.
    - intros s x _ Hroom _. split; [|auto]. simpl. rewrite length_app. simpl. lia.
    - intros s Hs. split; [exact Hs|auto].
    - intros s host data _ Hs. split; [exact Hs|auto].
    - intros m p p' s s' Hstep Hs _. split_and!; auto. eapply capacity_step; eauto.
    - exact Hreach. }
  split; [exact Hcap|]. intros Hfull. split.
  - simpl. destruct (seeds σ); [reflexivity|].
    destruct (Nat.ltb_spec (length (urlQueue (shared σ))) (queueSize cfg)); [lia|reflexivity].
  - intros id urlMeta link rest Hid. simpl. rewrite Hid. simpl. unfold trySend.
    destruct (Nat.ltb_spec (length (urlQueue (shared σ))) (queueSize cfg)); [lia|].
    destruct (Priority link >? 0)%Z; reflexivity.
Qed.

End PoolInvariants.

Lemma fencedState_reachable :
  reachable (net := Standin.netURL) (pkg := Standin.packages) fencedConfig 2 fencedSeeds
    fencedState.
Proof.
  apply (run_reachable (net := Standin.netURL) (pkg := Standin.packages)
           fencedConfig 2 fencedSeeds fencedTrace (initial 2 fencedSeeds)).
  - apply reach_initial.
  - vm_compute. reflexivity.
Qed.

(** A frontier of capacity 1: the first link of the page has filled it, and
    the step on the second link drops that link. *)
Lemma frontier_stays_within_capacity_witness :
  length (urlQueue (shared tightState)) = queueSize tightConfig
  ∧ um_URL <$> urlQueue (shared tightState) = ["http://a.test/page2"]
  ∧ act (net := Standin.netURL) (pkg := Standin.packages) tightConfig (Work 0 Next)
      tightState
    = Some {| shared := shared tightState;
              workers := [Queueing (seedEntry "http://a.test/page1") []];
              seeds := [] |}.
Proof.
  destruct (frontier_stays_within_capacity (net := Standin.netURL)
              (pkg := Standin.packages) tightConfig 1 ["http://a.test/page1"] tightState)
    as [_ Hfull].
  - vm_compute. lia.
  - apply (run_reachable (net := Standin.netURL) (pkg := Standin.packages)
             tightConfig 1 ["http://a.test/page1"] tightTrace
             (initial 1 ["http://a.test/page1"])).
    + apply reach_initial.
    + vm_compute. reflexivity.
  - split; [vm_compute; reflexivity|]. split; [vm_compute; reflexivity|].
    destruct (Hfull ltac:(vm_compute; reflexivity)) as [_ Hdrop].
    rewrite (Hdrop 0%nat (seedEntry "http://a.test/page1") linkToNews []
               ltac:(vm_compute; reflexivity)).
    vm_compute. reflexivity.
Defined.

(** ** The worker pool: what is fetched *)

Section Vetting.
Context {U : Type} {net : NetURL U} {pkg : Packages}.

Lemma hostMap_grows (cfg : Config) (m : move) (p p' : pc (U := U)) (s s' : Shared) :
  workerStep cfg m p s = Some (p', s') →
  ∀ host, is_Some (hostMap s !! host) → is_Some (hostMap s' !! host).
Proof.
  intros Hstep host Hhost.
  destruct p; destruct m; simpl in Hstep; try discriminate;
    repeat case_match; simplify_eq; simpl; unfold trySend; repeat case_match; simpl;
    try exact Hhost.
  all: apply lookup_insert_is_Some'; right; exact Hhost.
Qed.

Lemma fetchLog_grows (cfg : Config) (m : move) (p p' : pc (U := U)) (s s' : Shared) :
  workerStep cfg m p s = Some (p', s') →
  fetchLog s' = fetchLog s
  ∨ ∃ urlMeta, p = Waiting urlMeta ∧ fetchLog s' = fetchLog s ++ [urlMeta].
Proof.
  intros Hstep.
  destruct p; destruct m; simpl in Hstep; try discriminate;
    repeat case_match; simplify_eq; simpl; unfold trySend; repeat case_match; simpl;
    eauto.
Qed.

Lemma vetted_mono (cfg : Config) (s s' : Shared) (urlMeta : URLWithMetadata) :
  (∀ host, is_Some (hostMap s !! host) → is_Some (hostMap s' !! host)) →
  vetted (U := U) cfg s urlMeta → vetted (U := U) cfg s' urlMeta.
Proof. intros Hgrow (parsed & Hp & Ha & Hh). exists parsed. auto. Qed.

Lemma worker_vetted_mono (cfg : Config) (s s' : Shared) (q : pc (U := U)) :
  (∀ host, is_Some (hostMap s !! host) → is_Some (hostMap s' !! host)) →
  worker_vetted cfg s q → worker_vetted cfg s' q.
Proof.
  intros Hgrow Hq. destruct q; simpl in *; auto.
  - destruct Hq as (Hp & Ha & Hh). auto.
  - eapply vetted_mono; eauto.
Qed.

Lemma vetted_step (cfg : Config) (m : move) (p p' : pc (U := U)) (s s' : Shared) :
  workerStep cfg m p s = Some (p', s') →
  Forall (vetted (U := U) cfg s) (fetchLog s) → worker_vetted cfg s p →
  Forall (vetted (U := U) cfg s') (fetchLog s') ∧ worker_vetted cfg s' p'.
Proof.
  intros Hstep Hlog Hp.
  pose proof (hostMap_grows cfg m p p' s s' Hstep) as Hgrow.
  assert (Hlog' : Forall (vetted (U := U) cfg s') (fetchLog s)).
  { eapply Forall_impl; [exact Hlog|]. intros um0. apply vetted_mono, Hgrow. }
  split.
  - destruct (fetchLog_grows cfg m p p' s s' Hstep) as [->|(urlMeta & -> & ->)];
      [exact Hlog'|].
    apply Forall_app. split; [exact Hlog'|]. apply Forall_singleton.
    eapply vetted_mono; [exact Hgrow|exact Hp].
  - clear Hlog Hlog' Hgrow.
    destruct p; destruct m; simpl in Hstep; try discriminate;
      repeat case_match; simplify_eq; simpl; auto.
    1-4: split; [assumption|]; split;
      [ intros allowed Hal;
        match goal with
        | H : allowedDomains _ = _ |- _ => assert_fails (constr_eq H Hal); rewrite H in Hal
        end;
        [discriminate Hal || (injection Hal as <-;
         match goal with
         | H : negb (bool_decide _) = false |- _ =>
             apply negb_false_iff, bool_decide_eq_true in H; exact H
         end)]
      | rewrite ?lookup_insert_eq; eauto ].
    + destruct Hp as (Hparse & Ha & Hh). eexists. eauto.
    + destruct Hp as (Hparse & Ha & Hh). eexists. eauto.
Qed.

(** X14: In every reachable state, each fetch was of a URL that url.Parse
    accepts and whose host is in the domain whitelist, when one is
    configured; and the host map holds a policy record for that host. *)
Theorem fetches_stay_inside_the_whitelist (cfg : Config) (nworkers : nat)
    (seedURLs : list string) (σ : System (U := U)) :
  reachable cfg nworkers seedURLs σ →
  ∀ urlMeta, urlMeta ∈ fetchLog (shared σ) →
    ∃ parsed : U,
      url_Parse (um_URL urlMeta) = Some parsed
      ∧ (∀ allowed, allowedDomains cfg = Some allowed → Host parsed ∈ allowed)
      ∧ is_Some (hostMap (shared σ) !! Host parsed).
Proof.
  intros Hreach.
  assert (Hinv : Forall (vetted (U := U) cfg (shared σ)) (fetchLog (shared σ))
                 ∧ Forall (worker_vetted cfg (shared σ)) (workers σ)).
  { revert σ Hreach.
    apply (pool_invariant cfg nworkers seedURLs
             (λ s, Forall (vetted (U := U) cfg s) (fetchLog s)) (worker_vetted cfg)).
    - constructor.
    - exact I.
    - intros s x _ _ Hs. split; [exact Hs|auto].
    - intros s Hs. split; [exact Hs|auto].
    - intros s host data Hhost Hs.
      assert (Hgrow : ∀ h, is_Some (hostMap s !! h) →
                is_Some (<[host := {| robots := Some data |}]> (hostMap s) !! h)).
      { intros h Hh. apply lookup_insert_is_Some'. right. exact Hh. }
      split.
      + eapply Forall_impl; [exact Hs|]. intros um0. apply vetted_mono. exact Hgrow.
      + intros q. apply worker_vetted_mono. exact Hgrow.
    - intros m p p' s s' Hstep Hs Hp.
      destruct (vetted_step cfg m p p' s s' Hstep Hs Hp) as [Hs' Hp'].
      split_and!; auto.
      intros q. apply worker_vetted_mono. eapply hostMap_grows, Hstep. }
  destruct Hinv as [Hlog _].
  intros urlMeta Hin. eapply Forall_forall in Hlog; eauto.
Qed.

End Vetting.

(** The fenced run: of the two seeds only the one on the whitelisted host
    is fetched. *)
Lemma fetches_stay_inside_the_whitelist_witness :
  um_URL <$> fetchLog (shared fencedState) = ["http://a.test/page1"]
  ∧ Forall (λ urlMeta, ∃ parsed,
              Standin.parse (um_URL urlMeta) = Some parsed
              ∧ Standin.u_host parsed ∈ ({[ "a.test" ]} : gset string))
      (fetchLog (shared fencedState)).
Proof.
  split; [vm_compute; reflexivity|].
  apply Forall_forall. intros urlMeta Hin.
  destruct (fetches_stay_inside_the_whitelist (net := Standin.netURL)
              (pkg := Standin.packages) fencedConfig 2 fencedSeeds fencedState
              fencedState_reachable urlMeta Hin) as (parsed & Hp & Ha & _).
  exists parsed. split; [exact Hp|]. apply Ha. reflexivity.
Defined.

(** ** The worker pool: where entries and documents come from *)

Section Provenance.
Context {U : Type} {net : NetURL U} {pkg : Packages}.

(** A successful enhancedFetchAndParse returns a document of the URL it
    was given, with no links in it. *)
Lemma fetch_success (ρ : Z → RangeOrder) (now : Z) (outcome : FetchOutcome)
    (rawurl : string) (metadata : URLMetadata) (doc : Document)
    (newLinks : list ExtractedLink) (err : option error) :
  enhancedFetchAndParse ρ now outcome rawurl metadata = (doc, newLinks, err) →
  Links doc = [] ∧ (err = None → URL doc = rawurl ∧ FetchedAt doc = now).
Proof.
  unfold enhancedFetchAndParse. intros Hfetch.
  destruct (url_Parse rawurl); [|simplify_eq; split; [reflexivity|discriminate]].
  destruct outcome as [|resp]; [simplify_eq; split; [reflexivity|discriminate]|].
  destruct (negb (StatusCode resp =? StatusOK)%Z); [simplify_eq; auto|].
  destruct (Body resp); simplify_eq; auto.
Qed.

Lemma parsedFrom_mono (log extra : list URLWithMetadata) urlMeta doc newLinks :
  parsedFrom (U := U) log urlMeta doc newLinks →
  parsedFrom (U := U) (log ++ extra) urlMeta doc newLinks.
Proof. intros [Hin Hp]. split; [apply elem_of_app; left; exact Hin|exact Hp]. Qed.

Lemma origin_mono (seedURLs : list string) (log extra : list URLWithMetadata) e :
  origin (U := U) seedURLs log e → origin (U := U) seedURLs (log ++ extra) e.
Proof.
  intros [Hseed|(urlMeta & doc & newLinks & link & Hp & Hl & He)]; [left; exact Hseed|].
  right. exists urlMeta, doc, newLinks, link. split; [apply parsedFrom_mono, Hp|auto].
Qed.

Lemma worker_parsed_mono (log extra : list URLWithMetadata) (q : pc (U := U)) :
  worker_parsed log q → worker_parsed (log ++ extra) q.
Proof.
  destruct q; simpl; auto using parsedFrom_mono.
  - intros Hin. apply elem_of_app. left. exact Hin.
  - intros (doc & all & Hp & Hsub). exists doc, all. split; [apply parsedFrom_mono, Hp|exact Hsub].
Qed.

Lemma prov_worker_mono (seedURLs : list string) (s s' : Shared) (extra : list URLWithMetadata)
    (q : pc (U := U)) :
  fetchLog s' = fetchLog s ++ extra →
  prov_worker seedURLs s q → prov_worker seedURLs s' q.
Proof.
  intros Hlog [Hh Hw]. unfold prov_worker. rewrite Hlog. split.
  - intros urlMeta Hq. apply origin_mono, Hh, Hq.
  - apply worker_parsed_mono, Hw.
Qed.

Lemma provenance_step (cfg : Config) (seedURLs : list string) (m : move)
    (p p' : pc (U := U)) (s s' : Shared) :
  workerStep cfg m p s = Some (p', s') →
  prov_shared (U := U) seedURLs s → prov_worker seedURLs s p →
  prov_shared (U := U) seedURLs s' ∧ prov_worker seedURLs s' p'.
Proof.
  intros Hstep (Hq & Hl & Ho) [Hh Hw]. unfold prov_shared, prov_worker.
  assert (Hidle : ∀ log, (∀ urlMeta, holds (AtSelect (U := U)) = Some urlMeta →
                             origin (U := U) seedURLs log urlMeta)
                         ∧ worker_parsed log (AtSelect (U := U))).
  { intros log. split; [intros um0 [=]|exact I]. }
  destruct p; destruct m; simpl in Hstep; try discriminate.
  - destruct (urlQueue s) as [|e q] eqn:Hqs; simplify_eq. simpl.
    apply Forall_cons in Hq as [He Hq].
    split_and!; auto; try exact I; try (intros um0 [=]; fail);
      try (intros um0 [= <-]; apply Hh; reflexivity). intros um0 [= <-]. exact He.
  - case_match; simplify_eq. split_and!; auto; try exact I; try (intros um0 [=]; fail);
      try (intros um0 [= <-]; apply Hh; reflexivity).
  - repeat case_match; simplify_eq; simpl; split_and!; auto; try exact I; try (intros um0 [=]; fail);
      try (intros um0 [= <-]; apply Hh; reflexivity).
  - repeat case_match; simplify_eq; simpl; split_and!; auto; try exact I; try (intros um0 [=]; fail);
      try (intros um0 [= <-]; apply Hh; reflexivity).
  - repeat case_match; simplify_eq; simpl; split_and!; auto; try exact I; try (intros um0 [=]; fail);
      try (intros um0 [= <-]; apply Hh; reflexivity).
  - simplify_eq. simpl.
    pose proof (Hh urlMeta eq_refl) as Hum.
    split_and!.
    + eapply Forall_impl; [exact Hq|]. intros e. apply origin_mono.
    + apply Forall_app. split.
      * eapply Forall_impl; [exact Hl|]. intros e. apply origin_mono.
      * apply Forall_singleton. apply origin_mono, Hum.
    + eapply Forall_impl; [exact Ho|]. intros doc (um0 & links & Hp).
      exists um0, links. apply parsedFrom_mono, Hp.
    + intros um0 [= <-]. apply origin_mono, Hum.
    + apply elem_of_app. right. left.
  - case_match; simplify_eq. split_and!; auto; try exact I; try (intros um0 [=]; fail);
      try (intros um0 [= <-]; apply Hh; reflexivity).
  - destruct (enhancedFetchAndParse ρ now outcome (um_URL urlMeta) (um_Metadata urlMeta))
      as [[doc newLinks] [err|]] eqn:Hfetch; simplify_eq; simpl; split_and!; auto; try exact I; try (intros um0 [=]; fail);
      try (intros um0 [= <-]; apply Hh; reflexivity).
    split; [exact Hw|]. exists ρ, now, outcome. exact Hfetch.
  - simplify_eq. simpl. split_and!; auto; try exact I; try (intros um0 [=]; fail);
      try (intros um0 [= <-]; apply Hh; reflexivity).
  - simplify_eq. simpl. split_and!; auto; try exact I; try (intros um0 [=]; fail);
      try (intros um0 [= <-]; apply Hh; reflexivity).
  - simplify_eq. simpl. split_and!; auto; try exact I; try (intros um0 [=]; fail);
      try (intros um0 [= <-]; apply Hh; reflexivity).
    + apply Forall_app. split; [exact Ho|]. apply Forall_singleton. eauto.
    + exists doc, newLinks. auto.
  - destruct Hw as (doc & all & Hp & Hsub).
    destruct newLinks as [|link rest]; simplify_eq.
    + split_and!; auto; try exact I; try (intros um0 [=]; fail);
      try (intros um0 [= <-]; apply Hh; reflexivity).
    + assert (Hrest : worker_parsed (U := U) (fetchLog s) (Queueing urlMeta rest)).
      { exists doc, all. split; [exact Hp|]. intros l Hl0. apply Hsub. right. exact Hl0. }
      case_match; simplify_eq;
        [|split_and!; auto; intros um0 [= <-]; apply Hh; reflexivity].
      unfold trySend. case_match; simpl; split_and!; auto; try exact I; try (intros um0 [=]; fail);
      try (intros um0 [= <-]; apply Hh; reflexivity).
      apply Forall_app. split; [exact Hq|]. apply Forall_singleton.
      right. exists urlMeta, doc, all, link. split; [exact Hp|].
      split; [apply Hsub; left|reflexivity].
  - destruct newLinks; discriminate.
  - destruct newLinks; discriminate.
Qed.

Lemma provenance_reachable (cfg : Config) (nworkers : nat) (seedURLs : list string)
    (σ : System (U := U)) :
  reachable cfg nworkers seedURLs σ →
  prov_shared (U := U) seedURLs (shared σ)
  ∧ Forall (prov_worker seedURLs (shared σ)) (workers σ).
Proof.
  revert σ.
  apply (pool_invariant cfg nworkers seedURLs (prov_shared (U := U) seedURLs)
           (prov_worker seedURLs)).
  - split_and!; constructor.
  - split; [intros um0 [=]|exact I].
  - intros s x Hx _ (Hq & Hl & Ho). split; [|auto].
    split_and!; simpl; auto.
    apply Forall_app. split; [exact Hq|]. apply Forall_singleton. left. eauto.
  - intros s Hs. split; [exact Hs|auto].
  - intros s host data _ Hs. split; [exact Hs|auto].
  - intros m p p' s s' Hstep Hs Hp.
    destruct (provenance_step cfg seedURLs m p p' s s' Hstep Hs Hp) as [Hs' Hp'].
    split_and!; auto. intros q.
    destruct (fetchLog_grows cfg m p p' s s' Hstep) as [Hlog|(urlMeta & _ & Hlog)].
    + apply (prov_worker_mono seedURLs s s' []). rewrite app_nil_r. exact Hlog.
    + apply (prov_worker_mono seedURLs s s' [urlMeta]). exact Hlog.
Qed.

(** X15: Every document sent to the output channel is what a successful
    enhancedFetchAndParse made of a logged fetch: it carries the URL of that
    fetch, and no links (the links are returned beside the document and
    never stored in it). *)
Theorem published_documents_are_fetches (cfg : Config) (nworkers : nat)
    (seedURLs : list string) (σ : System (U := U)) :
  reachable cfg nworkers seedURLs σ →
  ∀ doc, doc ∈ rawOut (shared σ) →
    Links doc = []
    ∧ ∃ urlMeta, urlMeta ∈ fetchLog (shared σ)
        ∧ URL doc = um_URL urlMeta
        ∧ ∃ ρ now outcome newLinks,
            enhancedFetchAndParse ρ now outcome (um_URL urlMeta) (um_Metadata urlMeta)
            = (doc, newLinks, None).
Proof.
  intros Hreach doc Hdoc.
  destruct (provenance_reachable cfg nworkers seedURLs σ Hreach) as [(_ & _ & Ho) _].
  eapply Forall_forall in Ho as (urlMeta & newLinks & Hin & ρ & now & outcome & Hfetch);
    [|exact Hdoc].
  destruct (fetch_success _ _ _ _ _ _ _ _ Hfetch) as [Hlinks Hurl].
  split; [exact Hlinks|]. exists urlMeta. split; [exact Hin|].
  split; [apply Hurl; reflexivity|]. eauto.
Qed.

(** X16: The crawl is closed under its sources: every entry that stands in the
    frontier or has been fetched is a seed, at depth 0 with priority 10, or
    was made of a link of positive priority that a successful parse of a
    fetched page returned, and then names that page as its parent. *)
Theorem entries_are_seeds_or_extracted_links (cfg : Config) (nworkers : nat)
    (seedURLs : list string) (σ : System (U := U)) :
  reachable cfg nworkers seedURLs σ →
  ∀ e, e ∈ urlQueue (shared σ) ∨ e ∈ fetchLog (shared σ) →
    (∃ x, x ∈ seedURLs ∧ e = seedEntry x)
    ∨ (∃ urlMeta doc newLinks link,
         urlMeta ∈ fetchLog (shared σ)
         ∧ (∃ ρ now outcome,
              enhancedFetchAndParse ρ now outcome (um_URL urlMeta) (um_Metadata urlMeta)
              = (doc, newLinks, None))
         ∧ link ∈ newLinks
         ∧ (0 < Priority link)%Z
         ∧ e = childEntry urlMeta link).
Proof.
  intros Hreach e He.
  destruct (provenance_reachable cfg nworkers seedURLs σ Hreach) as [(Hq & Hl & _) _].
  assert (Ho : origin (U := U) seedURLs (fetchLog (shared σ)) e).
  { destruct He as [He|He]; [eapply Forall_forall in Hq|eapply Forall_forall in Hl]; eauto. }
  destruct Ho as [Hseed|(urlMeta & doc & newLinks & link & [Hin Hp] & Hlink & ->)];
    [left; exact Hseed|].
  right. exists urlMeta, doc, newLinks, link. split_and!; auto.
  destruct Hp as (ρ & now & outcome & Hfetch).
  pose proof (fetched_link_priorities ρ now outcome (um_URL urlMeta) (um_Metadata urlMeta))
    as Hprio.
  rewrite Hfetch in Hprio. simpl in Hprio.
  eapply Forall_forall in Hprio; [|exact Hlink]. apply Z.gtb_gt in Hprio. lia.
Qed.

(** X17: The worker offers every link of a fetched page to the frontier: its
    test on the priority never skips one, because the links that reach the
    loop all have a positive priority. *)
Theorem every_link_is_offered (cfg : Config) (nworkers : nat)
    (seedURLs : list string) (σ : System (U := U)) (id : nat)
    (urlMeta : URLWithMetadata) (link : ExtractedLink) (rest : list ExtractedLink) :
  reachable cfg nworkers seedURLs σ →
  workers σ !! id = Some (Queueing urlMeta (link :: rest)) →
  act cfg (Work id Next) σ
  = Some {| shared := trySend cfg (childEntry urlMeta link) (shared σ);
            workers := <[id := Queueing urlMeta rest]> (workers σ);
            seeds := seeds σ |}.
Proof.
  intros Hreach Hid.
  destruct (provenance_reachable cfg nworkers seedURLs σ Hreach) as [_ Hws].
  pose proof (Forall_lookup_1 _ _ _ _ Hws Hid) as [_ Hw]. simpl in Hw.
  destruct Hw as (doc & newLinks & [_ (ρ & now & outcome & Hfetch)] & Hsub).
  pose proof (fetched_link_priorities ρ now outcome (um_URL urlMeta) (um_Metadata urlMeta))
    as Hprio.
  rewrite Hfetch in Hprio. simpl in Hprio.
  eapply Forall_forall in Hprio; [|apply Hsub; left].
  simpl. rewrite Hid. simpl. rewrite Hprio. reflexivity.
Qed.

End Provenance.

(** ** The worker pool: the depth bound *)

Section DepthBound.
Context {U : Type} {net : NetURL U} {pkg : Packages}.

(** C8: in every reachable state of the pool, every fetch was of an entry
    whose depth is at most max-depth, and a claimed entry of greater depth
    sends the worker back to the select before any fetch.  Every entry in
    the frontier is the entry of a seed, at depth 0, or the child entry that
    the link loop made of a link of a fetched page, with that page as parent
    and that page's depth plus one.  A worker in its link loop is at a
    fetched page, and its next step sends the child entry of the link at
    hand, whose depth is the page's depth plus one: the entry is appended to
    the frontier when there is room, and the worker goes on to the next
    link.  The plus is that of the 64-bit int, which is the integers' as
    long as max-depth is below the largest int. *)
Theorem no_fetch_beyond_max_depth (cfg : Config) (nworkers : nat)
    (seedURLs : list string) (σ : System (U := U)) :
  reachable cfg nworkers seedURLs σ →
  (∀ urlMeta, urlMeta ∈ fetchLog (shared σ) →
     (depth (um_Metadata urlMeta) ≤ maxDepth cfg)%Z)
  ∧ (∀ urlMeta s, (depth (um_Metadata urlMeta) > maxDepth cfg)%Z →
       workerStep (U := U) cfg Next (Claimed urlMeta) s = Some (AtSelect, s))
  ∧ (∀ e, e ∈ urlQueue (shared σ) →
       (∃ x, x ∈ seedURLs ∧ e = seedEntry x ∧ depth (um_Metadata e) = 0%Z)
       ∨ ∃ p link, p ∈ fetchLog (shared σ)
              ∧ e = childEntry p link
              ∧ parent (um_Metadata e) = um_URL p
              ∧ depth (um_Metadata e) = int_add (depth (um_Metadata p)) 1
              ∧ ((maxDepth cfg < 2 ^ 63 - 1)%Z →
                 depth (um_Metadata e) = (depth (um_Metadata p) + 1)%Z))
  ∧ (∀ id urlMeta link rest,
       workers σ !! id = Some (Queueing urlMeta (link :: rest)) →
       urlMeta ∈ fetchLog (shared σ)
       ∧ (∃ σ', act cfg (Work id Next) σ = Some σ'
                ∧ workers σ' !! id = Some (Queueing urlMeta rest)
                ∧ urlQueue (shared σ')
                  = (if (length (urlQueue (shared σ)) <? queueSize cfg)%nat
                     then urlQueue (shared σ) ++ [childEntry urlMeta link]
                     else urlQueue (shared σ))
                ∧ fetchLog (shared σ') = fetchLog (shared σ))
       ∧ depth (um_Metadata (childEntry urlMeta link))
         = int_add (depth (um_Metadata urlMeta)) 1
       ∧ ((maxDepth cfg < 2 ^ 63 - 1)%Z →
          depth (um_Metadata (childEntry urlMeta link))
          = (depth (um_Metadata urlMeta) + 1)%Z))
  ∧ (∀ urlMeta link,
       depth (um_Metadata (childEntry urlMeta link))
       = int_add (depth (um_Metadata urlMeta)) 1
       ∧ parent (um_Metadata (childEntry urlMeta link)) = um_URL urlMeta).
Proof.
  intros Hreach.
  assert (Hinv : depth_inv cfg σ).
  { apply (reachable_invariant cfg nworkers seedURLs (depth_inv cfg));
      [apply depth_inv_initial| |exact Hreach].
    intros a σ1 σ2. apply depth_inv_step. }
  destruct Hinv as (Hlog & _ & _).
  destruct (provenance_reachable cfg nworkers seedURLs σ Hreach) as [(Hq & _ & _) Hws].
  assert (Hplus : ∀ p, p ∈ fetchLog (shared σ) → (maxDepth cfg < 2 ^ 63 - 1)%Z →
            int_add (depth (um_Metadata p)) 1 = (depth (um_Metadata p) + 1)%Z).
  { intros p Hp Hmax. apply int_add_small.
    eapply Forall_forall in Hlog as [Hle Hr]; [|exact Hp]. unfold intRange in Hr. lia. }
  split_and!.
  - intros urlMeta Hin. eapply Forall_forall in Hlog as [Hd _]; eauto.
  - intros urlMeta s Hd. simpl.
    destruct (Z.gtb_spec (depth (um_Metadata urlMeta)) (maxDepth cfg)); [reflexivity|lia].
  - intros e Hin. eapply Forall_forall in Hq; [|exact Hin].
    destruct Hq as [(x & Hx & ->)|(p & doc & newLinks & link & [Hp _] & _ & ->)].
    + left. exists x. auto.
    + right. exists p, link. split_and!; auto. intros Hmax. apply Hplus; assumption.
  - intros id urlMeta link rest Hid.
    pose proof (Forall_lookup_1 _ _ _ _ Hws Hid) as [_ Hw]. simpl in Hw.
    destruct Hw as (doc & newLinks & [Hp (ρ & now & outcome & Hfetch)] & Hsub).
    pose proof (fetched_link_priorities ρ now outcome (um_URL urlMeta) (um_Metadata urlMeta))
      as Hprio.
    rewrite Hfetch in Hprio. simpl in Hprio.
    eapply Forall_forall in Hprio; [|apply Hsub; left].
    split; [exact Hp|]. split; [|split; [reflexivity|intros Hmax; apply Hplus; assumption]].
    eexists. split; [simpl; rewrite Hid; simpl; rewrite Hprio; reflexivity|]. simpl.
    split; [apply list_lookup_insert_eq; eapply lookup_lt_Some; exact Hid|].
    unfold trySend. destruct (length (urlQueue (shared σ)) <? queueSize cfg)%nat;
      split; reflexivity.
  - intros urlMeta link. split; reflexivity.
Qed.

End DepthBound.

Lemma offeringState_reachable :
  reachable (net := Standin.netURL) (pkg := Standin.packages) fencedConfig 2 fencedSeeds
    offeringState.
Proof.
  apply (run_reachable (net := Standin.netURL) (pkg := Standin.packages)
           fencedConfig 2 fencedSeeds (take 14 fencedTrace) (initial 2 fencedSeeds)).
  - apply reach_initial.
  - vm_compute. reflexivity.
Qed.

(** The document of the fenced run. *)
Lemma published_documents_are_fetches_witness :
  URL <$> rawOut (shared fencedState) = ["http://a.test/page1"]
  ∧ Forall (λ doc, Links doc = []) (rawOut (shared fencedState)).
Proof.
  split; [vm_compute; reflexivity|].
  apply Forall_forall. intros doc Hdoc.
  apply (published_documents_are_fetches (net := Standin.netURL) (pkg := Standin.packages)
           fencedConfig 2 fencedSeeds fencedState fencedState_reachable doc Hdoc).
Defined.

(** The frontier of the fenced run holds a link of the fetched page. *)
Lemma entries_are_seeds_or_extracted_links_witness :
  um_URL <$> urlQueue (shared fencedState) = ["https://example.com/external"]
  ∧ Forall (λ e, (∃ x, x ∈ fencedSeeds ∧ e = seedEntry x)
                 ∨ ∃ urlMeta link, urlMeta ∈ fetchLog (shared fencedState)
                                   ∧ (0 < Priority link)%Z ∧ e = childEntry urlMeta link)
      (urlQueue (shared fencedState)).
Proof.
  split; [vm_compute; reflexivity|].
  apply Forall_forall. intros e He.
  destruct (entries_are_seeds_or_extracted_links (net := Standin.netURL)
              (pkg := Standin.packages) fencedConfig 2 fencedSeeds fencedState
              fencedState_reachable e (or_introl He))
    as [Hseed|(urlMeta & doc & newLinks & link & Hin & _ & _ & Hprio & Hchild)].
  - left. exact Hseed.
  - right. exists urlMeta, link. auto.
Defined.

(** Worker 0 of the fenced run, about to offer the first link of its page. *)
Lemma every_link_is_offered_witness :
  ∃ urlMeta link rest,
    workers offeringState !! 0%nat = Some (Queueing urlMeta (link :: rest))
    ∧ act (net := Standin.netURL) (pkg := Standin.packages) fencedConfig (Work 0 Next)
        offeringState
      = Some {| shared := trySend fencedConfig (childEntry urlMeta link) (shared offeringState);
                workers := <[0%nat := Queueing urlMeta rest]> (workers offeringState);
                seeds := seeds offeringState |}.
Proof.
  eexists _, _, _. split; [vm_compute; reflexivity|].
  apply (every_link_is_offered (net := Standin.netURL) (pkg := Standin.packages)
           fencedConfig 2 fencedSeeds offeringState 0).
  - exact offeringState_reachable.
  - vm_compute. reflexivity.
Defined.

(** ** The worker pool: what is sent to the output channel *)

Section Output.
Context {U : Type} {net : NetURL U} {pkg : Packages}.

(** The effect of a worker's step on the documents: nothing; a fetch is
    logged; a fetch or a document is given up; a document is sent. *)
Lemma output_effects (cfg : Config) (m : move) (p p' : pc (U := U)) (s s' : Shared) :
  workerStep cfg m p s = Some (p', s') →
  (sendingURL p' = sendingURL p ∧ rawOut s' = rawOut s ∧ fetchLog s' = fetchLog s)
  ∨ (∃ urlMeta, sendingURL p = None ∧ sendingURL p' = Some (um_URL urlMeta)
                ∧ rawOut s' = rawOut s ∧ fetchLog s' = fetchLog s ++ [urlMeta])
  ∨ (sendingURL p' = None ∧ rawOut s' = rawOut s ∧ fetchLog s' = fetchLog s)
  ∨ (∃ doc, sendingURL p = Some (URL doc) ∧ sendingURL p' = None
            ∧ rawOut s' = rawOut s ++ [doc] ∧ fetchLog s' = fetchLog s).
Proof.
  intros Hstep.
  destruct p; destruct m; simpl in Hstep; try discriminate.
  all: try (destruct (enhancedFetchAndParse ρ now outcome (um_URL urlMeta)
                        (um_Metadata urlMeta)) as [[doc0 links0] [err|]] eqn:Hfetch;
            simplify_eq; simpl;
            [right; right; left; auto|];
            destruct (fetch_success _ _ _ _ _ _ _ _ Hfetch) as [_ Hurl];
            destruct (Hurl eq_refl) as [-> _]; left; auto).
  all: repeat case_match; simplify_eq; simpl; unfold trySend; repeat case_match; simpl;
    first [ left; split_and!; reflexivity
          | right; right; left; split_and!; reflexivity
          | right; left; eexists; split_and!; reflexivity
          | right; right; right; eexists; split_and!; reflexivity ].
Qed.

Lemma output_inv_step (cfg : Config) (a : action) (σ σ' : System (U := U)) :
  output_inv σ → act cfg a σ = Some σ' → output_inv σ'.
Proof.
  intros Hinv Hact. destruct a as [| |host data|id m].
  - simpl in Hact. repeat case_match; simplify_eq. exact Hinv.
  - simpl in Hact. simplify_eq. exact Hinv.
  - simpl in Hact. repeat case_match; simplify_eq. exact Hinv.
  - apply act_Work in Hact as (p & p' & s' & Hid & Hstep & ->).
    apply output_effects in Hstep.
    destruct (omap_worker sendingURL (workers σ) id p p' Hid) as [Hold Hnew].
    set (others := omap sendingURL (take id (workers σ) ++ drop (S id) (workers σ))) in *.
    unfold output_inv, outputURLs in *. simpl.
    rewrite Hold in Hinv. rewrite Hnew. clear Hold Hnew Hid.
    destruct Hstep as [(-> & -> & ->) | [(urlMeta & Hp & -> & -> & ->)
                      | [(-> & -> & ->) | (doc & Hp & -> & -> & ->)]]].
    + exact Hinv.
    + rewrite Hp in Hinv. simpl in *. rewrite fmap_app. simpl.
      rewrite <- (Permutation_middle (URL <$> rawOut (shared σ)) others (um_URL urlMeta)).
      rewrite (Permutation_app_comm (um_URL <$> fetchLog (shared σ)) [um_URL urlMeta]).
      simpl. apply submseteq_skip. exact Hinv.
    + simpl. etrans; [|exact Hinv].
      apply submseteq_skips_l. apply submseteq_inserts_l. reflexivity.
    + rewrite Hp in Hinv. simpl in *. rewrite fmap_app. simpl.
      rewrite <- app_assoc. simpl. exact Hinv.
Qed.

Lemma output_inv_initial (nworkers : nat) (seedURLs : list string) :
  output_inv (U := U) (initial nworkers seedURLs).
Proof.
  unfold output_inv, outputURLs. simpl.
  assert (Hnone : omap sendingURL (replicate nworkers (AtSelect (U := U))) = []).
  { induction nworkers as [|n IH]; [reflexivity|]. simpl. exact IH. }
  rewrite Hnone. reflexivity.
Qed.

(** X18: No URL is sent to the output channel twice: the documents sent have
    distinct URLs, each the URL of a logged fetch, and there are at most as
    many documents as fetches. *)
Theorem published_urls_are_distinct (cfg : Config) (nworkers : nat)
    (seedURLs : list string) (σ : System (U := U)) :
  reachable cfg nworkers seedURLs σ →
  NoDup (URL <$> rawOut (shared σ))
  ∧ (∀ doc, doc ∈ rawOut (shared σ) → URL doc ∈ um_URL <$> fetchLog (shared σ))
  ∧ (length (rawOut (shared σ)) ≤ length (fetchLog (shared σ)))%nat.
Proof.
  intros Hreach.
  assert (Hout : output_inv σ).
  { apply (reachable_invariant cfg nworkers seedURLs output_inv);
      [apply output_inv_initial| |exact Hreach].
    intros a σ1 σ2 Hinv Hact. eapply output_inv_step; eauto. }
  assert (Hdd : dedupe_inv σ).
  { apply (reachable_invariant cfg nworkers seedURLs dedupe_inv);
      [apply dedupe_inv_initial| |exact Hreach].
    intros a σ1 σ2. apply dedupe_inv_step. }
  destruct Hdd as [Hnd _]. unfold claimedURLs in Hnd.
  apply NoDup_app in Hnd as (Hlog & _ & _).
  unfold output_inv, outputURLs in Hout.
  assert (Hsub : URL <$> rawOut (shared σ) ⊆+ um_URL <$> fetchLog (shared σ)).
  { etrans; [|exact Hout]. apply submseteq_inserts_r. reflexivity. }
  split_and!.
  - destruct (submseteq_Permutation _ _ Hsub) as [k Hk].
    rewrite Hk in Hlog. apply NoDup_app in Hlog as (Hraw & _ & _). exact Hraw.
  - intros doc Hdoc. eapply elem_of_submseteq; [|exact Hsub].
    apply list_elem_of_fmap. exists doc. auto.
  - apply submseteq_length in Hsub. rewrite !length_fmap in Hsub. exact Hsub.
Qed.

End Output.

(** The demo run: two fetches, two documents with different URLs. *)
Lemma published_urls_are_distinct_witness :
  URL <$> rawOut (shared demoState) = ["http://a.test/page1"; "http://a.test/page2"]
  ∧ NoDup (URL <$> rawOut (shared demoState)).
Proof.
  split; [vm_compute; reflexivity|].
  apply (published_urls_are_distinct (net := Standin.netURL) (pkg := Standin.packages)
           Standin.config 2 demoSeeds demoState demoState_reachable).
Defined.

(** ** The worker pool: the counters *)

Lemma total_app (l k : list Z) : total (l ++ k) = (total l + total k)%Z.
Proof. unfold total. induction l as [|x l IH]; simpl; [reflexivity|]. rewrite IH. lia. Qed.

Lemma total_Permutation (l k : list Z) : l ≡ₚ k → total l = total k.
Proof.
  unfold total. induction 1 as [|x l k _ IH|x y l|l k j _ IH1 _ IH2]; simpl; lia.
Qed.

Section Counters.
Context {U : Type} {net : NetURL U} {pkg : Packages}.

(** The effect of a worker's step on the counters: nothing (the error
    counter apart); a page is counted; its size is added; its document is
    sent. *)
Lemma stats_effects (cfg : Config) (m : move) (p p' : pc (U := U)) (s s' : Shared) :
  workerStep cfg m p s = Some (p', s') →
  DreamsGenerated (stats s') = DreamsGenerated (stats s)
  ∧ ((counting p' = counting p ∧ sized p' = sized p ∧ rawOut s' = rawOut s
      ∧ PagesProcessed (stats s') = PagesProcessed (stats s)
      ∧ BytesProcessed (stats s') = BytesProcessed (stats s))
     ∨ (counting p = None ∧ counting p' = Some () ∧ sized p = None ∧ sized p' = None
        ∧ rawOut s' = rawOut s
        ∧ PagesProcessed (stats s') = int_add (PagesProcessed (stats s)) 1
        ∧ BytesProcessed (stats s') = BytesProcessed (stats s))
     ∨ (∃ doc, counting p = Some () ∧ counting p' = Some ()
               ∧ sized p = None ∧ sized p' = Some (len (Text doc))
               ∧ rawOut s' = rawOut s
               ∧ PagesProcessed (stats s') = PagesProcessed (stats s)
               ∧ BytesProcessed (stats s')
                 = int_add (BytesProcessed (stats s)) (len (Text doc)))
     ∨ (∃ doc, counting p = Some () ∧ counting p' = None
               ∧ sized p = Some (len (Text doc)) ∧ sized p' = None
               ∧ rawOut s' = rawOut s ++ [doc]
               ∧ PagesProcessed (stats s') = PagesProcessed (stats s)
               ∧ BytesProcessed (stats s') = BytesProcessed (stats s))).
Proof.
  intros Hstep.
  destruct p; destruct m; simpl in Hstep; try discriminate;
    repeat case_match; simplify_eq; simpl; unfold trySend; repeat case_match; simpl;
    (split; [reflexivity|]);
    first [ left; split_and!; reflexivity
          | right; left; split_and!; reflexivity
          | right; right; left; eexists; split_and!; reflexivity
          | right; right; right; eexists; split_and!; reflexivity ].
Qed.

Lemma stats_inv_step (cfg : Config) (a : action) (σ σ' : System (U := U)) :
  stats_inv σ → act cfg a σ = Some σ' → stats_inv σ'.
Proof.
  intros Hinv Hact. destruct a as [| |host data|id m].
  - simpl in Hact. repeat case_match; simplify_eq. exact Hinv.
  - simpl in Hact. simplify_eq. exact Hinv.
  - simpl in Hact. repeat case_match; simplify_eq. exact Hinv.
  - apply act_Work in Hact as (p & p' & s' & Hid & Hstep & ->).
    apply stats_effects in Hstep as [Hdreams Hstep].
    destruct (omap_worker counting (workers σ) id p p' Hid) as [Hc Hc'].
    destruct (omap_worker sized (workers σ) id p p' Hid) as [Hz Hz'].
    apply Permutation_length in Hc, Hc'. apply total_Permutation in Hz, Hz'.
    rewrite length_app in Hc, Hc'. rewrite total_app in Hz, Hz'.
    set (oc := length (omap counting (take id (workers σ) ++ drop (S id) (workers σ)))) in *.
    set (oz := total (omap sized (take id (workers σ) ++ drop (S id) (workers σ)))) in *.
    destruct Hinv as (Hpages & Hbytes & Hzero).
    unfold stats_inv. simpl. rewrite Hc', Hz', Hdreams. rewrite Hc in Hpages.
    rewrite Hz in Hbytes. clear Hc Hc' Hz Hz' Hid.
    split_and!; [| |exact Hzero].
    + destruct Hstep as [(-> & _ & -> & -> & _) | [(Hp & -> & _ & _ & -> & -> & _)
                        | [(doc & Hp & -> & _ & _ & -> & -> & _)
                          | (doc & Hp & -> & _ & _ & -> & -> & _)]]].
      * exact Hpages.
      * rewrite Hp in Hpages. rewrite Hpages. unfold int_add. rewrite wrap64_add_l.
        f_equal. simpl. lia.
      * rewrite Hp in Hpages. exact Hpages.
      * rewrite Hp in Hpages. rewrite Hpages. f_equal. rewrite length_app. simpl. lia.
    + destruct Hstep as [(_ & -> & -> & _ & ->) | [(_ & _ & Hp & -> & -> & _ & ->)
                        | [(doc & _ & _ & Hp & -> & -> & _ & ->)
                          | (doc & _ & _ & Hp & -> & -> & _ & ->)]]].
      * exact Hbytes.
      * rewrite Hp in Hbytes. exact Hbytes.
      * rewrite Hp in Hbytes. rewrite Hbytes. unfold int_add. rewrite wrap64_add_l.
        f_equal. unfold total. simpl. lia.
      * rewrite Hp in Hbytes. rewrite Hbytes. f_equal.
        rewrite fmap_app, total_app. unfold total. simpl. lia.
Qed.

Lemma omap_none {A B} (f : A → option B) (l : list A) :
  (∀ x, x ∈ l → f x = None) → omap f l = [].
Proof.
  induction l as [|x l IH]; intros Hall; [reflexivity|].
  simpl. rewrite (Hall x) by left. apply IH. intros y Hy. apply Hall. right. exact Hy.
Qed.

Lemma stats_inv_initial (nworkers : nat) (seedURLs : list string) :
  stats_inv (U := U) (initial nworkers seedURLs).
Proof.
  unfold stats_inv. simpl.
  rewrite (omap_none counting), (omap_none sized).
  - split_and!; reflexivity.
  - intros x Hx. apply elem_of_replicate in Hx as [-> _]. reflexivity.
  - intros x Hx. apply elem_of_replicate in Hx as [-> _]. reflexivity.
Qed.

(** X19: The counters of the crawler.  The dreams counter is never incremented:
    it is 0 in every reachable state.  The pages counter is, as a 64-bit
    integer, the number of documents sent plus the number of workers between
    IncrementPages and the send; the bytes counter is the sum of the text
    lengths of the documents sent and of those a worker holds after
    AddBytes.  So whenever no worker is in between, as at the final report
    after the workers have returned, the two counters are the number of
    documents sent and the sum of their text lengths. *)
Theorem counters_match_the_output (cfg : Config) (nworkers : nat)
    (seedURLs : list string) (σ : System (U := U)) :
  reachable cfg nworkers seedURLs σ →
  DreamsGenerated (stats (shared σ)) = 0%Z
  ∧ PagesProcessed (stats (shared σ))
    = wrap64 (Z.of_nat (length (rawOut (shared σ)) + length (omap counting (workers σ))))
  ∧ BytesProcessed (stats (shared σ))
    = wrap64 (total ((λ doc, len (Text doc)) <$> rawOut (shared σ))
              + total (omap sized (workers σ)))
  ∧ ((∀ p, p ∈ workers σ → counting p = None) →
     PagesProcessed (stats (shared σ)) = wrap64 (Z.of_nat (length (rawOut (shared σ))))
     ∧ BytesProcessed (stats (shared σ))
       = wrap64 (total ((λ doc, len (Text doc)) <$> rawOut (shared σ)))).
Proof.
  intros Hreach.
  assert (Hinv : stats_inv σ).
  { apply (reachable_invariant cfg nworkers seedURLs stats_inv);
      [apply stats_inv_initial| |exact Hreach].
    intros a σ1 σ2 Hinv Hact. eapply stats_inv_step; eauto. }
  destruct Hinv as (Hpages & Hbytes & Hzero). split_and!; auto.
  intros Hquiet.
  rewrite (omap_none counting) in Hpages by exact Hquiet.
  rewrite (omap_none sized) in Hbytes.
  - simpl in *. rewrite Nat.add_0_r in Hpages. rewrite Z.add_0_r in Hbytes. auto.
  - intros p Hp. specialize (Hquiet p Hp). destruct p; simpl in *; congruence.
Qed.

End Counters.

(** The counters at the end of the demo run: two pages, no dreams. *)
Lemma counters_match_the_output_witness :
  DreamsGenerated (stats (shared demoState)) = 0%Z
  ∧ PagesProcessed (stats (shared demoState)) = 2%Z
  ∧ length (rawOut (shared demoState)) = 2%nat.
Proof.
  destruct (counters_match_the_output (net := Standin.netURL) (pkg := Standin.packages)
              Standin.config 2 demoSeeds demoState demoState_reachable)
    as (Hzero & _ & _ & _).
  split; [exact Hzero|]. split; vm_compute; reflexivity.
Defined.

(** ** The worker pool: cancellation and robots.txt *)

Section Lifecycle.
Context {U : Type} {net : NetURL U} {pkg : Packages}.

Lemma cancelled_step (cfg : Config) (m : move) (p p' : pc (U := U)) (s s' : Shared) :
  workerStep cfg m p s = Some (p', s') →
  cancelled s' = cancelled s ∧ (p' = Exited → cancelled s = true).
Proof.
  intros Hstep.
  destruct p; destruct m; simpl in Hstep; try discriminate;
    repeat case_match; simplify_eq; simpl; unfold trySend; repeat case_match; simpl;
    split; auto; discriminate.
Qed.

(** X20: The pool keeps its workers, and a worker returns only through the
    ctx.Done case of its select: in every reachable state there are as many
    workers as were started, and one that has returned did so after the
    cancellation and takes no further step. *)
Theorem workers_return_only_after_cancel (cfg : Config) (nworkers : nat)
    (seedURLs : list string) (σ : System (U := U)) :
  reachable cfg nworkers seedURLs σ →
  length (workers σ) = nworkers
  ∧ ∀ id, workers σ !! id = Some Exited →
      cancelled (shared σ) = true ∧ ∀ m, act cfg (Work id m) σ = None.
Proof.
  intros Hreach. split.
  - apply (reachable_invariant cfg nworkers seedURLs (λ σ, length (workers σ) = nworkers));
      [apply length_replicate| |exact Hreach].
    intros a σ1 σ2 Hlen Hact. destruct a as [| |host data|id m].
    + simpl in Hact. repeat case_match; simplify_eq; reflexivity.
    + simpl in Hact. simplify_eq. reflexivity.
    + simpl in Hact. repeat case_match; simplify_eq; reflexivity.
    + apply act_Work in Hact as (p & p' & s' & _ & _ & ->). simpl.
      rewrite length_insert. exact Hlen.
  - intros id Hid.
    destruct (pool_invariant cfg nworkers seedURLs (λ _, True)
                (λ s p, p = Exited → cancelled s = true)) with (σ := σ) as [_ Hws].
    + exact I.
    + discriminate.
    + intros s x _ _ _. split; [exact I|auto].
    + intros s _. split; [exact I|]. intros q _ _. reflexivity.
    + intros s host data _ _. split; [exact I|auto].
    + intros m p p' s s' Hstep _ _.
      destruct (cancelled_step cfg m p p' s s' Hstep) as [Heq Hexit].
      split; [exact I|]. rewrite Heq. split; [exact Hexit|auto].
    + exact Hreach.
    + split; [exact (Forall_lookup_1 _ _ _ _ Hws Hid eq_refl)|].
      intros m. simpl. rewrite Hid. destruct m; reflexivity.
Qed.

Lemma robots_kept_by_step (cfg : Config) (m : move) (p p' : pc (U := U)) (s s' : Shared)
    (host : string) (hp : hostPolicies) :
  workerStep cfg m p s = Some (p', s') →
  hostMap s !! host = Some hp → hostMap s' !! host = Some hp.
Proof.
  intros Hstep Hhost.
  destruct p; destruct m; simpl in Hstep; try discriminate;
    repeat case_match; simplify_eq; simpl; unfold trySend; repeat case_match; simpl;
    try exact Hhost.
  all: rewrite lookup_insert_ne; [exact Hhost|]; intros <-; congruence.
Qed.

Lemma robots_kept_by_act (cfg : Config) (a : action) (σ σ' : System (U := U))
    (host : string) (data : string → bool) :
  act cfg a σ = Some σ' →
  hostMap (shared σ) !! host = Some {| robots := Some data |} →
  hostMap (shared σ') !! host = Some {| robots := Some data |}.
Proof.
  intros Hact Hhost. destruct a as [| |host' data'|id m].
  - simpl in Hact. repeat case_match; simplify_eq. exact Hhost.
  - simpl in Hact. simplify_eq. exact Hhost.
  - simpl in Hact.
    destruct (hostMap (shared σ) !! host') as [[[testAgent|]]|] eqn:Hhost'; try discriminate.
    injection Hact as <-. simpl.
    rewrite lookup_insert_ne; [exact Hhost|]. intros <-. congruence.
  - apply act_Work in Hact as (p & p' & s' & _ & Hstep & ->). simpl.
    eapply robots_kept_by_step; eauto.
Qed.

(** X21: Once the robots.txt of a host is in its policy record, no run of the
    pool replaces or removes it, and a second arrival for that host is not
    taken; from then on a worker that reaches the robots check with a path
    of that host that the file disallows goes back to the select, without
    fetching. *)
Theorem loaded_robots_are_kept (cfg : Config) (trace : list action)
    (σ σ' : System (U := U)) (host : string) (data : string → bool) :
  run cfg trace σ = Some σ' →
  hostMap (shared σ) !! host = Some {| robots := Some data |} →
  hostMap (shared σ') !! host = Some {| robots := Some data |}
  ∧ (∀ data', act cfg (RobotsFetched host data') σ' = None)
  ∧ (∀ urlMeta parsed, Host parsed = host → data (Path parsed) = false →
       workerStep cfg Next (WithPolicy urlMeta parsed) (shared σ')
       = Some (AtSelect, shared σ')).
Proof.
  intros Hrun Hhost.
  assert (Hkept : hostMap (shared σ') !! host = Some {| robots := Some data |}).
  { revert σ Hrun Hhost. induction trace as [|a rest IH]; intros σ Hrun Hhost.
    - simpl in Hrun. injection Hrun as <-. exact Hhost.
    - simpl in Hrun. destruct (act cfg a σ) as [σ1|] eqn:Hact; [|discriminate].
      apply (IH σ1 Hrun). eapply robots_kept_by_act; eauto. }
  split_and!.
  - exact Hkept.
  - intros data'. simpl. rewrite Hkept. reflexivity.
  - intros urlMeta parsed <- Hdis. simpl. rewrite Hkept. simpl. rewrite Hdis. reflexivity.
Qed.

End Lifecycle.

(** The demo run ends with the cancellation and no worker has returned
    yet; both workers are still there. *)
Lemma workers_return_only_after_cancel_witness :
  length (workers demoState) = 2%nat
  ∧ cancelled (shared demoState) = true.
Proof.
  split; [|vm_compute; reflexivity].
  apply (workers_return_only_after_cancel (net := Standin.netURL) (pkg := Standin.packages)
           Standin.config 2 demoSeeds demoState demoState_reachable).
Defined.

(** The demo run from the arrival of the robots.txt of a.test on: the file
    is still there at the end, and a path under /private is turned away. *)
Lemma loaded_robots_are_kept_witness :
  workerStep (net := Standin.netURL) (pkg := Standin.packages) Standin.config Next
    (WithPolicy (seedEntry "http://a.test/private/notes") privatePath) (shared demoState)
  = Some (AtSelect, shared demoState).
Proof.
  destruct (loaded_robots_are_kept (net := Standin.netURL) (pkg := Standin.packages)
              Standin.config (drop 8 demoTrace) robotsLoaded demoState "a.test"
              (λ path, negb (Strings.HasPrefix path "/private")))
    as (_ & _ & Hturn).
  - vm_compute. reflexivity.
  - vm_compute. reflexivity.
  - apply Hturn; reflexivity.
Defined.

(** ** The producer: nothing but the documents it is given *)

Section ProducerSound.
Context {pkg : Packages}.

Lemma produce_sound (cfg : Config) (doc : Document) (msg : Message) :
  msg ∈ produce cfg doc →
  ∃ docBytes,
    json_Marshal doc = Some docBytes
    ∧ Key msg = URL doc ∧ Value msg = docBytes
    ∧ (msg = rawMessage cfg doc docBytes
       ∨ (msg = dreamMessage cfg doc docBytes
          ∧ PrimFloat.ltb 0.5 (Surrealism (DreamHints doc)) = true)).
Proof.
  unfold produce, dreamGate. intros Hmsg.
  destruct (json_Marshal doc) as [docBytes|]; [|inversion Hmsg].
  exists docBytes. split; [reflexivity|].
  apply elem_of_cons in Hmsg as [->|Hmsg]; [split_and!; auto|].
  destruct (PrimFloat.ltb 0.5 (Surrealism (DreamHints doc))) eqn:Hgate; [|inversion Hmsg].
  apply list_elem_of_singleton in Hmsg as ->. split_and!; auto.
Qed.

Lemma produce_length (cfg : Config) (doc : Document) :
  (length (produce cfg doc) ≤ 2)%nat.
Proof.
  unfold produce. destruct (json_Marshal doc); [|simpl; lia].
  destruct (dreamGate doc); simpl; lia.
Qed.

(** X22: The producer publishes nothing of its own: every message carries the
    JSON encoding of one of the documents it received, under that
    document's URL as key, and is either the raw-content message of the
    document or its dream message, the latter only for a surrealism above
    0.5.  A document whose encoding fails is skipped, and no document gives
    more than two messages. *)
Theorem producer_publishes_only_its_input (cfg : Config) (docs : list Document) :
  (∀ msg, msg ∈ enhancedProducer cfg docs →
     ∃ doc docBytes,
       doc ∈ docs ∧ json_Marshal doc = Some docBytes
       ∧ Key msg = URL doc ∧ Value msg = docBytes
       ∧ (msg = rawMessage cfg doc docBytes
          ∨ (msg = dreamMessage cfg doc docBytes
             ∧ PrimFloat.ltb 0.5 (Surrealism (DreamHints doc)) = true)))
  ∧ (length (enhancedProducer cfg docs) ≤ 2 * length docs)%nat
  ∧ ((∀ doc, doc ∈ docs → json_Marshal doc = None) → enhancedProducer cfg docs = []).
Proof.
  split_and!.
  - intros msg Hmsg. unfold enhancedProducer in Hmsg.
    apply list_elem_of_bind in Hmsg as (doc & Hmsg & Hdoc).
    destruct (produce_sound cfg doc msg Hmsg) as (docBytes & H). exists doc, docBytes. auto.
  - induction docs as [|doc rest IH]; [simpl; lia|].
    rewrite enhancedProducer_cons, length_app. pose proof (produce_length cfg doc).
    simpl length. lia.
  - induction docs as [|doc rest IH]; intros Hfail; [reflexivity|].
    rewrite enhancedProducer_cons, produce_unmarshalled by (apply Hfail; left).
    apply IH. intros d Hd. apply Hfail. right. exact Hd.
Qed.

End ProducerSound.

(** ** The document of a parsed page *)

Section ParsedDocument.
Context {U : Type} {net : NetURL U} {pkg : Packages}.

Lemma extractMetadata_keeps (doc : Page) (metadata : DocumentMetadata) :
  Domain (extractMetadata doc metadata) = Domain metadata
  ∧ WordCount (extractMetadata doc metadata) = WordCount metadata
  ∧ Headers (extractMetadata doc metadata) = Headers metadata
  ∧ ContentType (extractMetadata doc metadata) = ContentType metadata
  ∧ Size (extractMetadata doc metadata) = Size metadata.
Proof. split_and!; reflexivity. Qed.

(** X23: The fields of a document returned for a 200 response agree with each
    other: the clean text is the cleaning of the text, the content hash is
    the MD5 of the clean text, the word count is the number of fields of the
    clean text, the domain is that of the URL; the title and the clean text
    have no surrounding whitespace; and the content type is the Content-Type
    entry of the captured headers, or empty when there is none. *)
Theorem parsed_document_is_consistent (ρ : Z → RangeOrder) (now : Z)
    (outcome : FetchOutcome) (rawurl : string) (metadata : URLMetadata)
    (doc : Document) (newLinks : list ExtractedLink) :
  enhancedFetchAndParse ρ now outcome rawurl metadata = (doc, newLinks, None) →
  Status doc = StatusOK →
  CleanText doc = cleanText (Text doc)
  ∧ ContentHash doc = md5_hex (CleanText doc)
  ∧ WordCount (Metadata doc) = Z.of_nat (length (Strings.Fields (CleanText doc)))
  ∧ Domain (Metadata doc) = extractDomain rawurl
  ∧ Strings.TrimSpace (Title doc) = Title doc
  ∧ Strings.TrimSpace (CleanText doc) = CleanText doc
  ∧ ContentType (Metadata doc) = default "" (Headers (Metadata doc) !! "Content-Type").
Proof.
  unfold enhancedFetchAndParse. intros Hfetch Hstatus.
  destruct (url_Parse rawurl) as [base|]; [|discriminate].
  destruct outcome as [|resp]; [discriminate|].
  destruct (Z.eqb_spec (StatusCode resp) StatusOK) as [Hok|Hne]; simpl in Hfetch.
  - destruct (Body resp) as [gqDoc|]; [|discriminate].
    injection Hfetch as <- _. cbn [CleanText Text ContentHash Metadata Title].
    destruct (extractMetadata_keeps gqDoc
                {| Domain := extractDomain rawurl; Language := "";
                   WordCount := Z.of_nat (length (Strings.Fields (cleanText (extractText gqDoc))));
                   Author := ""; PublishedAt := None; Tags := []; Category := "";
                   Headers := omap head (Header resp);
                   ContentType := Header_Get (Header resp) "Content-Type";
                   Size := ContentLength resp |}) as (Hd & Hw & Hh & Hc & _).
    cbn [Domain WordCount Headers ContentType] in Hd, Hw, Hh, Hc.
    split_and!; try reflexivity; try apply TrimSpace_idem.
    rewrite Hc, Hh. unfold Header_Get. rewrite lookup_omap. reflexivity.
  - injection Hfetch as <- _. simpl in Hstatus. contradiction.
Qed.

Lemma omap_length_le {A B} (f : A → option B) (l : list A) :
  (length (omap f l) ≤ length l)%nat.
Proof. induction l as [|x l IH]; csimpl; [lia|]. destruct (f x); csimpl; lia. Qed.

Lemma getFileExtension_spec (filename : string) :
  Strings.mem "."%char (getFileExtension filename) = false
  ∧ if Strings.mem "."%char filename
    then ∃ stem, filename = stem +:+ "." +:+ getFileExtension filename
    else getFileExtension filename = "".
Proof.
  unfold getFileExtension, Strings.Split. split.
  - destruct (1 <? length (Strings.split_go "." "" filename))%nat; [|reflexivity].
    apply split_go_last_clean. reflexivity.
  - destruct (Strings.mem "." filename) eqn:Hm.
    + destruct (split_go_stem "." "" filename Hm) as (stem & Heq & Hlen).
      apply Nat.ltb_lt in Hlen. rewrite Hlen. exists stem. exact Heq.
    + rewrite (split_go_no_sep _ _ _ Hm). reflexivity.
Qed.

(** X24: The media assets of a page are its images, in document order,
    followed by its videos, each list made by the callback of its loop in
    the order of the elements.  The images are exactly the assets of the img
    elements that have a src attribute which parses against the base URL,
    the videos those of the video elements; an asset holds the resolved URL,
    an empty caption and size, the alt text of an image and no alt text for
    a video.  Its format is cut from the src attribute as written: the src
    is stem, dot, format with no dot in the format, and the format is empty
    for a src without a dot. *)
Theorem media_assets_are_images_then_videos (doc : Page) (baseURL : string)
    (assets : list MediaAsset) :
  extractMediaAssets doc baseURL = Some assets →
  ∃ base images videos,
    url_Parse baseURL = Some base
    ∧ assets = images ++ videos
    ∧ images = omap (imageOf base) (find_img doc)
    ∧ videos = omap (videoOf base) (find_video doc)
    ∧ (length images ≤ length (find_img doc))%nat
    ∧ (length videos ≤ length (find_video doc))%nat
    ∧ (∀ a, a ∈ images ↔
         ∃ s src resolvedURL,
           s ∈ find_img doc ∧ Attr s "src" = Some src
           ∧ URL_Parse base src = Some resolvedURL
           ∧ a = {| media_URL := URL_String resolvedURL; media_Type := "image";
                    Alt := default "" (Attr s "alt"); Caption := ""; media_Size := "";
                    Format := getFileExtension src |})
    ∧ (∀ a, a ∈ videos ↔
         ∃ s src resolvedURL,
           s ∈ find_video doc ∧ Attr s "src" = Some src
           ∧ URL_Parse base src = Some resolvedURL
           ∧ a = {| media_URL := URL_String resolvedURL; media_Type := "video";
                    Alt := ""; Caption := ""; media_Size := "";
                    Format := getFileExtension src |})
    ∧ (∀ src, Strings.mem "."%char (getFileExtension src) = false
              ∧ if Strings.mem "."%char src
                then ∃ stem, src = stem +:+ "." +:+ getFileExtension src
                else getFileExtension src = "").
Proof.
  unfold extractMediaAssets. intros Hassets.
  destruct (url_Parse baseURL) as [base|]; [|discriminate].
  injection Hassets as <-.
  exists base, (omap (imageOf base) (find_img doc)), (omap (videoOf base) (find_video doc)).
  split_and!; auto using omap_length_le, getFileExtension_spec.
  - intros a. rewrite list_elem_of_omap. unfold imageOf. split.
    + intros (s & Hs & Ha).
      destruct (Attr s "src") as [src|] eqn:Hsrc; [|discriminate].
      destruct (URL_Parse base src) as [resolvedURL|] eqn:Hparse; [|discriminate].
      injection Ha as <-. exists s, src, resolvedURL. auto.
    + intros (s & src & resolvedURL & Hs & Hsrc & Hparse & ->).
      exists s. split; [exact Hs|]. rewrite Hsrc, Hparse. reflexivity.
  - intros a. rewrite list_elem_of_omap. unfold videoOf. split.
    + intros (s & Hs & Ha).
      destruct (Attr s "src") as [src|] eqn:Hsrc; [|discriminate].
      destruct (URL_Parse base src) as [resolvedURL|] eqn:Hparse; [|discriminate].
      injection Ha as <-. exists s, src, resolvedURL. auto.
    + intros (s & src & resolvedURL & Hs & Hsrc & Hparse & ->).
      exists s. split; [exact Hs|]. rewrite Hsrc, Hparse. reflexivity.
Qed.

End ParsedDocument.

(** The dreamy page: the document made of it. *)
Lemma parsed_document_is_consistent_witness :
  CleanText dreamyDocument = cleanText (Text dreamyDocument)
  ∧ ContentHash dreamyDocument = md5_hex (Packages := Standin.packages) (CleanText dreamyDocument)
  ∧ WordCount (Metadata dreamyDocument) = 6%Z.
Proof.
  destruct (parsed_document_is_consistent (net := Standin.netURL) (pkg := Standin.packages)
              (λ _, listed) 0
              (Standin.ok (Standin.pageOf "Dreams"
                 ["mystical dream cosmic ethereal beautiful creative"] []))
              "http://a.test/dreams" {| depth := 0; parent := ""; priority := 10 |}
              dreamyDocument [])
    as (Hclean & Hhash & _).
  - vm_compute. reflexivity.
  - reflexivity.
  - split; [exact Hclean|]. split; [exact Hhash|]. vm_compute. reflexivity.
Defined.

(** The gallery: two images, of which one has a src without extension,
    then the video. *)
Lemma media_assets_are_images_then_videos_witness :
  (λ a, (media_Type a, Format a)) <$> galleryAssets
  = [("image", "png"); ("image", "test/photo"); ("video", "mp4")]
  ∧ ∃ images videos,
      galleryAssets = images ++ videos
      ∧ (length images ≤ 3)%nat ∧ (length videos ≤ 1)%nat
      ∧ {| media_URL := "http://a.test/img/cat.png"; media_Type := "image";
           Alt := "A cat"; Caption := ""; media_Size := ""; Format := "png" |} ∈ images
      ∧ {| media_URL := "http://a.test/v/clip.mp4"; media_Type := "video";
           Alt := ""; Caption := ""; media_Size := ""; Format := "mp4" |} ∈ videos.
Proof.
  split; [vm_compute; reflexivity|].
  destruct (media_assets_are_images_then_videos (net := Standin.netURL) galleryPage
              "http://a.test/gallery" galleryAssets)
    as (base & images & videos & Hbase & Heq & _ & _ & Hli & Hlv & Hi & Hv & _).
  - vm_compute. reflexivity.
  - vm_compute in Hbase. injection Hbase as <-.
    exists images, videos. split_and!; auto.
    + apply Hi.
      exists {| attributes := [("src", "/img/cat.png"); ("alt", "A cat")]; elem_Text := "" |},
        "/img/cat.png",
        {| Standin.u_scheme := "http"; Standin.u_host := "a.test";
           Standin.u_path := "/img/cat.png" |}.
      split_and!; [set_solver|reflexivity|reflexivity|vm_compute; reflexivity].
    + apply Hv.
      exists {| attributes := [("src", "/v/clip.mp4")]; elem_Text := "" |}, "/v/clip.mp4",
        {| Standin.u_scheme := "http"; Standin.u_host := "a.test";
           Standin.u_path := "/v/clip.mp4" |}.
      split_and!; [set_solver|reflexivity|reflexivity|vm_compute; reflexivity].
Defined.

(** ** The worker pool: the empty URL *)

Section EmptyURL.
Context {U : Type} {net : NetURL U} {pkg : Packages}.

Lemma blank_step (cfg : Config) (m : move) (p p' : pc (U := U)) (s s' : Shared) :
  workerStep cfg m p s = Some (p', s') →
  ("" ∉ seen s) ∧ Forall (λ urlMeta, um_URL urlMeta ≠ "") (fetchLog s) →
  pendingURL p ≠ Some "" →
  (("" ∉ seen s') ∧ Forall (λ urlMeta, um_URL urlMeta ≠ "") (fetchLog s'))
  ∧ pendingURL p' ≠ Some "".
Proof.
  intros Hstep [Hseen Hlog] Hp.
  destruct p; destruct m; simpl in Hstep; try discriminate;
    repeat case_match; simplify_eq; simpl in *; unfold trySend; repeat case_match;
    simpl; split_and!; auto; try discriminate.
  - match goal with H : (_ =? "")%string = false |- _ => apply String.eqb_neq in H end.
    set_solver.
  - match goal with H : (_ =? "")%string = false |- _ => apply String.eqb_neq in H end.
    congruence.
  - apply Forall_app. split; [exact Hlog|]. apply Forall_singleton. congruence.
Qed.

(** X25: An entry with an empty URL is dropped before anything else happens to
    it: in every reachable state the empty URL is not in the seen set and
    was never fetched. *)
Theorem empty_url_is_skipped (cfg : Config) (nworkers : nat)
    (seedURLs : list string) (σ : System (U := U)) :
  reachable cfg nworkers seedURLs σ →
  ("" ∉ seen (shared σ))
  ∧ (∀ urlMeta, urlMeta ∈ fetchLog (shared σ) → um_URL urlMeta ≠ "")
  ∧ (∀ urlMeta s, um_URL urlMeta = "" →
       workerStep (U := U) cfg Next (Received urlMeta) s = Some (AtSelect, s)).
Proof.
  intros Hreach.
  destruct (pool_invariant cfg nworkers seedURLs
              (λ s, ("" ∉ seen s) ∧ Forall (λ urlMeta, um_URL urlMeta ≠ "") (fetchLog s))
              (λ _ p, pendingURL p ≠ Some "")) with (σ := σ) as [[Hseen Hlog] _].
  - split; [set_solver|constructor].
  - discriminate.
  - intros s x _ _ Hs. split; [exact Hs|auto].
  - intros s Hs. split; [exact Hs|auto].
  - intros s host data _ Hs. split; [exact Hs|auto].
  - intros m p p' s s' Hstep Hs Hp.
    destruct (blank_step cfg m p p' s s' Hstep Hs Hp) as [Hs' Hp'].
    split; [exact Hs'|]. split; [exact Hp'|auto].
  - exact Hreach.
  - split_and!; auto.
    + intros urlMeta Hin. eapply Forall_forall in Hlog; eauto.
    + intros urlMeta s Hempty. simpl. rewrite Hempty. reflexivity.
Qed.

End EmptyURL.

Lemma blankSeedState_reachable :
  reachable (net := Standin.netURL) (pkg := Standin.packages) Standin.config 1 blankSeeds
    blankSeedState.
Proof.
  apply (run_reachable (net := Standin.netURL) (pkg := Standin.packages)
           Standin.config 1 blankSeeds
           [ Seed; Seed; Work 0 Next; Work 0 Next;
             Work 0 Next; Work 0 Next; Work 0 Next; Work 0 Next; Work 0 Next ]
           (initial 1 blankSeeds)).
  - apply reach_initial.
  - vm_compute. reflexivity.
Qed.

(** The run on the empty seed: it is received, and neither marked nor
    fetched. *)
Lemma empty_url_is_skipped_witness :
  um_URL <$> fetchLog (shared blankSeedState) = ["http://a.test/page1"]
  ∧ seeds blankSeedState = []
  ∧ ("" ∉ seen (shared blankSeedState)).
Proof.
  split; [vm_compute; reflexivity|]. split; [vm_compute; reflexivity|].
  apply (empty_url_is_skipped (net := Standin.netURL) (pkg := Standin.packages)
           Standin.config 1 blankSeeds blankSeedState blankSeedState_reachable).
Defined.

(** ** Keywords are lowercase words *)

Lemma list_ascii_of_string_app (a b : string) :
  list_ascii_of_string (a +:+ b) = list_ascii_of_string a ++ list_ascii_of_string b.
Proof.
  induction a as [|c a IH]; [reflexivity|]. rewrite append_cons. simpl. rewrite IH.
  reflexivity.
Qed.

Lemma toLower_not_upper (c : ascii) : Strings.isUpper (Strings.toLower c) = false.
Proof. destruct c as [[] [] [] [] [] [] [] []]; vm_compute; reflexivity. Qed.

Lemma ToLower_not_upper (s : string) :
  Forall (λ c, Strings.isUpper c = false) (list_ascii_of_string (Strings.ToLower s)).
Proof.
  induction s as [|c s IH]; simpl; constructor; [apply toLower_not_upper|exact IH].
Qed.

Lemma fields_go_Forall (P : ascii → Prop) (cur s : string) :
  Forall (λ c, P c ∧ Strings.isSpace c = false) (list_ascii_of_string cur) →
  Forall P (list_ascii_of_string s) →
  Forall (λ field, Forall (λ c, P c ∧ Strings.isSpace c = false)
                     (list_ascii_of_string field))
    (Strings.fields_go cur s).
Proof.
  revert cur. induction s as [|c s IH]; intros cur Hcur Hs; simpl.
  - destruct cur; [constructor|]. constructor; [exact Hcur|constructor].
  - simpl in Hs. apply Forall_cons in Hs as [Hc Hs].
    destruct (Strings.isSpace c) eqn:Hsp.
    + destruct cur.
      * apply IH; [constructor|exact Hs].
      * constructor; [exact Hcur|]. apply IH; [constructor|exact Hs].
    + apply IH; [|exact Hs]. rewrite list_ascii_of_string_app. apply Forall_app.
      split; [exact Hcur|]. simpl. constructor; [split; assumption|constructor].
Qed.

(** X26: Whatever the visiting order of the map, every keyword is longer than 3
    bytes, is no stop word, and is made of bytes that are neither whitespace
    nor ASCII upper-case letters: the text is lowercased and split on
    whitespace before the words are counted. *)
Theorem keywords_are_lowercase_words (ρ : RangeOrder) (text : string) :
  range_order (wordCounts text) (ρ (wordCounts text)) →
  Forall (λ w, (3 < String.length w)%nat ∧ (w ∉ stopWords)
               ∧ Forall (λ c, Strings.isUpper c = false ∧ Strings.isSpace c = false)
                   (list_ascii_of_string w))
    (extractKeywords ρ text).
Proof.
  intros [_ Hkeys]. rewrite extractKeywords_take. apply Forall_forall. intros w Hw.
  apply subseteq_take in Hw. apply list_elem_of_filter in Hw as [_ Hw].
  apply Hkeys in Hw. rewrite wordCounts_lookup in Hw.
  destruct (decide (counted w ∧ w ∈ tokens text)) as [[[Hlen Hstop] Hin]|_];
    [|destruct Hw as [? [=]]].
  split; [exact Hlen|]. split; [exact Hstop|].
  unfold tokens in Hin. apply list_elem_of_fmap in Hin as (field & -> & Hfield).
  unfold Strings.Trim. apply TrimRightFunc_Forall, TrimLeftFunc_Forall.
  pose proof (fields_go_Forall (λ c, Strings.isUpper c = false) "" (Strings.ToLower text)
                ltac:(constructor) (ToLower_not_upper text)) as Hall.
  rewrite Forall_forall in Hall. apply Hall, Hfield.
Qed.

(** The keywords of a sentence with capitals and punctuation. *)
Lemma keywords_are_lowercase_words_witness :
  extractKeywords listed "The ELEPHANTS, the Giraffes and the cats; cats sleep."
  = ["giraffes"; "cats"; "elephants"]
  ∧ Forall (λ w, (3 < String.length w)%nat ∧ (w ∉ stopWords)
                 ∧ Forall (λ c, Strings.isUpper c = false ∧ Strings.isSpace c = false)
                     (list_ascii_of_string w))
      (extractKeywords listed "The ELEPHANTS, the Giraffes and the cats; cats sleep.").
Proof.
  split; [vm_compute; reflexivity|].
  apply (keywords_are_lowercase_words listed
           "The ELEPHANTS, the Giraffes and the cats; cats sleep." (listed_valid _)).
Defined.

(** The depth bound on the demo run.  Its fetches are at depth 0 and 1, and
    the entry left in the frontier is the child of the page fetched at depth
    1, at depth 2.  Where worker 0 starts on the links of the first page, its
    step puts the child entry of the first link into the frontier, at depth
    1. *)
Lemma no_fetch_beyond_max_depth_witness :
  Forall (λ urlMeta, (depth (um_Metadata urlMeta) ≤ maxDepth Standin.config)%Z)
    (fetchLog (shared demoState))
  ∧ Forall (λ e, ∃ p link, p ∈ fetchLog (shared demoState) ∧ e = childEntry p link
                           ∧ depth (um_Metadata e) = (depth (um_Metadata p) + 1)%Z)
      (urlQueue (shared demoState))
  ∧ (λ e, (um_URL e, depth (um_Metadata e))) <$> urlQueue (shared demoState)
    = [("http://a.test/page1", 2%Z)]
  ∧ ∃ σ',
      act (net := Standin.netURL) (pkg := Standin.packages) Standin.config (Work 0 Next)
        linkingState = Some σ'
      ∧ urlQueue (shared σ')
        = [childEntry (seedEntry "http://a.test/page1") linkToPage2]
      ∧ depth (um_Metadata (childEntry (seedEntry "http://a.test/page1") linkToPage2))
        = 1%Z.
Proof.
  destruct (no_fetch_beyond_max_depth (net := Standin.netURL) (pkg := Standin.packages)
              Standin.config 2 demoSeeds demoState demoState_reachable)
    as (Hdepth & _ & Hqueue & _).
  destruct (no_fetch_beyond_max_depth (net := Standin.netURL) (pkg := Standin.packages)
              Standin.config 2 demoSeeds linkingState) as (_ & _ & _ & Hloop & _).
  { apply (run_reachable (net := Standin.netURL) (pkg := Standin.packages)
             Standin.config 2 demoSeeds (take 14 demoTrace) (initial 2 demoSeeds)).
    - apply reach_initial.
    - vm_compute. reflexivity. }
  destruct (Hloop 0%nat (seedEntry "http://a.test/page1") linkToPage2 [linkToNews])
    as (_ & (σ' & Hact & _ & Hq & _) & _ & Hplus).
  { vm_compute. reflexivity. }
  split; [apply Forall_forall; exact Hdepth|].
  split.
  { apply Forall_forall. intros e He.
    destruct (Hqueue e He) as [(x & _ & -> & _)|(p & link & Hp & Hc & _ & _ & Hd)].
    - vm_compute in He. apply list_elem_of_singleton in He. discriminate He.
    - exists p, link. split_and!; auto. apply Hd. vm_compute. reflexivity. }
  split; [vm_compute; reflexivity|].
  exists σ'. split; [exact Hact|]. split.
  - rewrite Hq. vm_compute. reflexivity.
  - apply Hplus. vm_compute. reflexivity.
Defined.
